(** * warp_drive/training/models/fully_connected.py

    A shallow embedding of the fully connected policy/value network of
    WarpDrive and the properties of it that its specification states.

    Tensors are a shape and row-major data; the entries are real numbers
    (the arithmetic of the floating-point kernels is idealised to exact
    arithmetic).  Python exceptions are the [Raise] results of [result];
    the methods that assign attributes of [self] return the instance next
    to their result, also when they raise.  *)

From Stdlib Require Import Reals Lra Lia ZArith.
From stdpp Require Import gmap strings list.

(** ** Python exceptions *)

Inductive exception : Type :=
| NotImplementedError (msg : string)
| ValueError (msg : string)
| AssertionError
| IndexError
| KeyError
| RuntimeError
| UnboundLocalError.

Inductive result (A : Type) : Type :=
| Ok (a : A)
| Raise (e : exception).
Arguments Ok {A} a.
Arguments Raise {A} e.

Definition bind {A B} (r : result A) (k : A -> result B) : result B :=
  match r with
  | Ok a => k a
  | Raise e => Raise e
  end.

Notation "x <- e ;; k" := (bind e (fun x => k))
  (at level 100, e at next level, right associativity).

Fixpoint mapR {A B} (f : A -> result B) (l : list A) : result (list B) :=
  match l with
  | [] => Ok []
  | a :: l' => b <- f a ;; bs <- mapR f l' ;; Ok (b :: bs)
  end.

(** Inverts a [bind] that is known to return. *)
Ltac inv_bind H :=
  match type of H with
  | bind ?r _ = Ok _ =>
      let E := fresh "E" in
      destruct r eqn:E; [cbn [bind] in H | discriminate H]
  end.

Definition sum_R (l : list R) : R := fold_right Rplus 0%R l.

(** ** numpy *)

Module np.
(** [np.prod] of a shape tuple; the product of the empty tuple is 1.
    Shapes are those of arrays that exist, so the product is the number
    of their entries and stays in the range of numpy's integers. *)
Definition prod (shape : list nat) : nat := fold_right Nat.mul 1 shape.
End np.

(** ** torch tensors *)

(** A tensor is its shape and its entries in row-major order.  The
    entries are real numbers: the tensors carry no dtype, and the
    rounding, overflow and underflow of float32 arithmetic are not
    modelled.  What is proved of values below is proved of exact
    arithmetic; shapes, indices and raised errors do not depend on it. *)
Record Tensor : Type := mkTensor { shape : list nat; data : list R }.

Module torch.

Definition numel (sh : list nat) : nat := fold_right Nat.mul 1 sh.

Definition well_formed (t : Tensor) : Prop :=
  length (data t) = numel (shape t).

(** Size of the last axis and the axes before it; a 0-dim tensor counts
    as one row of one entry. *)
Definition last_dim (sh : list nat) : nat := List.last sh 1.
Definition lead (sh : list nat) : list nat := removelast sh.

(** The [r]-th row along the last axis. *)
Definition row (t : Tensor) (r : nat) : list R :=
  firstn (last_dim (shape t)) (skipn (r * last_dim (shape t)) (data t)).

Definition num_rows (t : Tensor) : nat := numel (lead (shape t)).

(** Row-major offsets and multi-indices. *)
Fixpoint unravel (sh : list nat) (i : nat) : list nat :=
  match sh with
  | [] => []
  | _ :: sh' => (i / numel sh') :: unravel sh' (i mod numel sh')
  end.

Fixpoint ravel (sh idx : list nat) : nat :=
  match sh, idx with
  | _ :: sh', k :: idx' => k * numel sh' + ravel sh' idx'
  | _, _ => 0
  end.

(** The entry [t[idx]] at a multi-index. *)
Definition item (t : Tensor) (idx : list nat) : R :=
  nth (ravel (shape t) idx) (data t) 0%R.

(** A dimension argument, negative ones counted from the end. *)
Definition wrap_dim (rank : nat) (d : Z) : result nat :=
  if decide (0 <= d < Z.of_nat rank)%Z then Ok (Z.to_nat d)
  else if decide (- Z.of_nat rank <= d < 0)%Z then Ok (Z.to_nat (d + Z.of_nat rank))
  else Raise IndexError.

Fixpoint index_of (d : nat) (l : list nat) : nat :=
  match l with
  | [] => 0
  | x :: l' => if x =? d then 0 else S (index_of d l')
  end.

(** [t.permute( *dims )]: axis [k] of the result is axis [dims[k]] of [t]. *)
Definition permute (t : Tensor) (dims : list Z) : result Tensor :=
  let rank := length (shape t) in
  if negb (length dims =? rank) then Raise RuntimeError else
  perm <- mapR (wrap_dim rank) dims ;;
  if negb (bool_decide (NoDup perm)) then Raise RuntimeError else
  let sh' := map (fun p => nth p (shape t) 0) perm in
  let source j :=
    let jdx := unravel sh' j in
    ravel (shape t) (map (fun d => nth (index_of d perm) jdx 0) (seq 0 rank)) in
  Ok (mkTensor sh' (map (fun j => nth (source j) (data t) 0%R) (seq 0 (numel sh')))).

(** The sizes [t.reshape( *dims )] asks for, one of them possibly [-1]
    (torch's [infer_size]). *)
Definition infer_size (dims : list Z) (n : nat) : result (list nat) :=
  if bool_decide (Exists (fun d => d < -1)%Z dims) then Raise RuntimeError else
  let holes := length (filter (fun d => d = (-1)%Z) dims) in
  if 1 <? holes then Raise RuntimeError else
  let newsize := numel (map Z.to_nat (filter (fun d => d <> (-1)%Z) dims)) in
  if (n =? newsize) || ((holes =? 1) && (0 <? newsize) && (n mod newsize =? 0)) then
    if (holes =? 1) && (newsize =? 0) then Raise RuntimeError
    else Ok (map (fun d => if decide (d = (-1)%Z) then n / newsize else Z.to_nat d) dims)
  else Raise RuntimeError.

Definition reshape (t : Tensor) (dims : list Z) : result Tensor :=
  sh' <- infer_size dims (numel (shape t)) ;;
  Ok (mkTensor sh' (data t)).

(** [t[:, ids]]: the entries of axis 1 listed in [ids], in that order. *)
Definition index_axis1 (t : Tensor) (ids : list nat) : result Tensor :=
  match shape t with
  | e :: n :: rest =>
      if forallb (fun i => i <? n) ids then
        let blk := numel rest in
        Ok (mkTensor (e :: length ids :: rest)
              (flat_map (fun b =>
                 flat_map (fun i => firstn blk (skipn ((b * n + i) * blk) (data t))) ids)
                 (seq 0 e)))
      else Raise IndexError
  | _ => Raise IndexError
  end.

(** [torch.cat(ts, dim=-1)].  An empty list is refused; the class of
    that error has not been the same in every torch release
    ([RuntimeError], in later ones [ValueError]), and [RuntimeError] is
    written here, as for tensors whose shapes do not fit. *)
Definition cat (ts : list Tensor) : result Tensor :=
  match ts with
  | [] => Raise RuntimeError
  | t0 :: _ =>
      if forallb (fun t => negb (length (shape t) =? 0)
                             && bool_decide (lead (shape t) = lead (shape t0))) ts
      then
        Ok (mkTensor (lead (shape t0) ++ [foldr Nat.add 0 (map (fun t => last_dim (shape t)) ts)])
              (flat_map (fun r => flat_map (fun t => row t r) ts) (seq 0 (num_rows t0))))
      else Raise RuntimeError
  end.

(** Broadcasting of two shapes, aligned at the last axis. *)
Fixpoint broadcast_rev (a b : list nat) : option (list nat) :=
  match a, b with
  | [], _ => Some b
  | _, [] => Some a
  | x :: a', y :: b' =>
      if x =? y then cons x <$> broadcast_rev a' b'
      else if x =? 1 then cons y <$> broadcast_rev a' b'
      else if y =? 1 then cons x <$> broadcast_rev a' b'
      else None
  end.

Definition broadcast_shapes (a b : list nat) : result (list nat) :=
  match broadcast_rev (rev a) (rev b) with
  | Some s => Ok (rev s)
  | None => Raise RuntimeError
  end.

(** The data of [t] seen at shape [sh], an axis of size 1 repeated. *)
Definition expand (t : Tensor) (sh : list nat) : list R :=
  let psh := repeat 1 (length sh - length (shape t)) ++ shape t in
  map (fun j =>
         nth (ravel psh (zip_with (fun d i => if d =? 1 then 0 else i) psh (unravel sh j)))
             (data t) 0%R)
      (seq 0 (numel sh)).

Definition binop (f : R -> R -> R) (a b : Tensor) : result Tensor :=
  sh <- broadcast_shapes (shape a) (shape b) ;;
  Ok (mkTensor sh (zip_with f (expand a sh) (expand b sh))).

Definition add : Tensor -> Tensor -> result Tensor := binop Rplus.
Definition mul : Tensor -> Tensor -> result Tensor := binop Rmult.

Definition ones_like (t : Tensor) : Tensor :=
  mkTensor (shape t) (map (fun _ => 1%R) (data t)).
(** [t * c] and [c - t] for a Python number [c]. *)
Definition mul_scalar (t : Tensor) (c : R) : Tensor :=
  mkTensor (shape t) (map (fun x => (x * c)%R) (data t)).
Definition rsub_scalar (c : R) (t : Tensor) : Tensor :=
  mkTensor (shape t) (map (fun x => (c - x)%R) (data t)).

(** [t[..., 0]] *)
Definition select_last0 (t : Tensor) : result Tensor :=
  match shape t with
  | [] => Raise IndexError
  | _ =>
      if last_dim (shape t) =? 0 then Raise IndexError
      else Ok (mkTensor (lead (shape t))
                 (map (fun r => nth (r * last_dim (shape t)) (data t) 0%R)
                    (seq 0 (num_rows t))))
  end.

End torch.

(** ** torch.nn and torch.nn.functional *)

Module nn.

(** [nn.Linear]: [weight] has shape [[out_features; in_features]], [bias]
    has shape [[out_features]]. *)
Record Linear : Type := mkLinear { weight : Tensor; bias : Tensor }.

Definition out_features (l : Linear) : nat := nth 0 (shape (weight l)) 0.
Definition in_features (l : Linear) : nat := nth 1 (shape (weight l)) 0.

(** [nn.Linear(i, o)]; [theta] stands for the random initial values. *)
Definition new_Linear (theta : nat -> R) (i o : nat) : Linear :=
  {| weight := mkTensor [o; i] (map theta (seq 0 (o * i)));
     bias := mkTensor [o] (map (fun j => theta (o * i + j)) (seq 0 o)) |}.

End nn.

Module F.

(** [F.linear(x, weight, bias)]: [x @ weight.T + bias] on the last axis. *)
Definition linear (l : nn.Linear) (x : Tensor) : result Tensor :=
  match shape x with
  | [] => Raise RuntimeError
  | _ =>
      let i := nn.in_features l in
      let o := nn.out_features l in
      if negb (torch.last_dim (shape x) =? i) then Raise RuntimeError else
      Ok (mkTensor (torch.lead (shape x) ++ [o])
            (flat_map (fun r =>
               map (fun c =>
                      (sum_R (map (fun k => (nth (r * i + k) (data x) 0 *
                                             nth (c * i + k) (data (nn.weight l)) 0)%R)
                                (seq 0 i))
                       + nth c (data (nn.bias l)) 0)%R)
                   (seq 0 o))
               (seq 0 (torch.num_rows x))))
  end.

Definition relu (x : Tensor) : Tensor :=
  mkTensor (shape x) (map (fun v => Rmax 0 v) (data x)).

(** Softmax of one row: [exp(x_i) / sum_j exp(x_j)]. *)
Definition softmax_row (xs : list R) : list R :=
  map (fun x => (exp x / sum_R (map exp xs))%R) xs.

(** [F.softmax(x, dim=-1)] *)
Definition softmax (x : Tensor) : Tensor :=
  mkTensor (shape x)
    (flat_map (fun r => softmax_row (torch.row x r)) (seq 0 (torch.num_rows x))).

End F.

(** ** gym spaces and the environment wrapper *)

(** The space kinds of [gym.spaces].  The entries of a [Dict] are read
    through their [shape] only, which is what they carry here, in the
    order in which the [Dict] iterates over its keys. *)
Inductive Space : Type :=
| Box (shape : list nat)
| Discrete (n : nat)
| MultiDiscrete (nvec : list nat)
| MultiBinary (n : nat)
| Dict (spaces : list (string * list nat)).

(** [self.env]: [env.n_agents], [env.env.observation_space],
    [env.env.action_space] (per agent id) and the buffers of
    [env.cuda_data_manager] by name. *)
Record EnvWrapper : Type := mkEnv {
  n_agents : nat;
  env_observation_space : gmap nat Space;
  env_action_space : gmap nat Space;
  cuda_data_manager : gmap string Tensor;
}.

(** Modelled from the spec: the data manager of the environment
    ([env.cuda_data_manager]) is not among the sources.  The spec has it as "a named-lookup interface returning
    device-resident tensors by string key": a name with a buffer gives
    the buffer.  For a name without a buffer the spec says nothing; the
    call is taken to fail, and [KeyError] stands for whatever the data
    manager raises then. *)
Definition data_on_device_via_torch (e : EnvWrapper) (name : string) : result Tensor :=
  match cuda_data_manager e !! name with
  | Some t => Ok t
  | None => Raise KeyError
  end.

Record ModelConfig : Type := mkModelConfig { fc_dims : list nat }.

(** ** The network *)

Record FullyConnected : Type := mkFullyConnected {
  env : EnvWrapper;
  policy : string;
  policy_tag_to_agent_id_map : gmap string (list nat);
  create_separate_placeholders_for_each_policy : bool;
  obs_dim_corresponding_to_num_agents : string;
  fast_forward_mode : bool;
  observation_space : Space;
  fc : list nn.Linear;
  policy_head : list nn.Linear;
  vf_head : nn.Linear;
  action_mask : option Tensor;
}.

Definition name : string := "torch_fully_connected".

Definition set_action_mask (m : option Tensor) (self : FullyConnected) : FullyConnected :=
  {| env := env self;
     policy := policy self;
     policy_tag_to_agent_id_map := policy_tag_to_agent_id_map self;
     create_separate_placeholders_for_each_policy :=
       create_separate_placeholders_for_each_policy self;
     obs_dim_corresponding_to_num_agents := obs_dim_corresponding_to_num_agents self;
     fast_forward_mode := fast_forward_mode self;
     observation_space := observation_space self;
     fc := fc self;
     policy_head := policy_head self;
     vf_head := vf_head self;
     action_mask := m |}.

(** [apply_logit_mask(logits, mask=None)] *)
Definition apply_logit_mask (logits : Tensor) (mask : option Tensor) : result Tensor :=
  match mask with
  | None => Ok logits
  | Some mask =>
      let logit_mask := torch.mul_scalar (torch.ones_like logits) (-10000000) in
      logit_mask <- torch.mul logit_mask (torch.rsub_scalar 1 mask) ;;
      torch.add logits logit_mask
  end.

(** [dict_lookup m k] is [m[k]]. *)
Definition dict_lookup {K} `{Countable K} {V} (m : gmap K V) (k : K) : result V :=
  match m !! k with
  | Some v => Ok v
  | None => Raise KeyError
  end.

Definition list_head {A} (l : list A) : result A :=
  match l with
  | a :: _ => Ok a
  | [] => Raise IndexError
  end.

Section Model.

(** [Constants.OBSERVATIONS] and [Constants.ACTION_MASK] of
    [warp_drive.utils.constants]. *)
Variables (_OBSERVATIONS _ACTION_MASK : string).

Definition get_flattened_obs_size (self : FullyConnected) : result nat :=
  match observation_space self with
  | Box shape => Ok (np.prod shape)
  | Dict spaces =>
      Ok (fold_left
            (fun obs_size '(key, shape) =>
               if String.eqb key _ACTION_MASK then obs_size
               else obs_size + np.prod shape)
            spaces 0)
  | _ => Raise (NotImplementedError "Observation space must be of Box or Dict type")
  end.

Definition num_agents_of (self : FullyConnected) : result nat :=
  if create_separate_placeholders_for_each_policy self then
    ids <- dict_lookup (policy_tag_to_agent_id_map self) (policy self) ;;
    Ok (length ids)
  else Ok (n_agents (env self)).

Definition reshape_and_flatten_obs (self : FullyConnected) (obs : Tensor) : result Tensor :=
  num_envs <- list_head (shape obs) ;;
  num_agents <- num_agents_of self ;;
  obs <-
    (if String.eqb (obs_dim_corresponding_to_num_agents self) "first" then Ok obs
     else if String.eqb (obs_dim_corresponding_to_num_agents self) "last" then
       let shape_len := length (shape obs) in
       obs <- (if shape_len =? 1
               then torch.reshape obs [(-1)%Z; Z.of_nat num_agents]
               else Ok obs) ;;
       torch.permute obs
         (0%Z :: (-1)%Z :: map Z.of_nat (seq 1 (shape_len - 1 - 1)))
     else Raise (ValueError
       "num_agents can only be the first or last dimension in the observations.")) ;;
  torch.reshape obs [Z.of_nat num_envs; Z.of_nat num_agents; (-1)%Z].

(** The buffer name of the observation entry [key] of a [Dict] space. *)
Definition obs_name (self : FullyConnected) (key : string) : string :=
  if create_separate_placeholders_for_each_policy self
  then _OBSERVATIONS +:+ "_" +:+ policy self +:+ "_" +:+ key
  else _OBSERVATIONS +:+ "_" +:+ key.

(** The first loop of the [Dict] branch of [get_flattened_obs]: the
    buffers of the entries, the action mask set aside in [self]. *)
Fixpoint collect_obs (keys : list string) (obs_dict : list (string * Tensor))
    (self : FullyConnected) : result (list (string * Tensor)) * FullyConnected :=
  match keys with
  | [] => (Ok obs_dict, self)
  | key :: keys' =>
      match data_on_device_via_torch (env self) (obs_name self key) with
      | Raise e => (Raise e, self)
      | Ok obs =>
          if String.eqb key _ACTION_MASK then
            match reshape_and_flatten_obs self obs with
            | Raise e => (Raise e, self)
            | Ok m => collect_obs keys' obs_dict (set_action_mask (Some m) self)
            end
          else collect_obs keys' (obs_dict ++ [(key, obs)]) self
      end
  end.

Definition get_flattened_obs (self : FullyConnected) : result Tensor * FullyConnected :=
  match observation_space self with
  | Box _ =>
      (obs <- data_on_device_via_torch (env self)
                (if create_separate_placeholders_for_each_policy self
                 then _OBSERVATIONS +:+ "_" +:+ policy self
                 else _OBSERVATIONS) ;;
       reshape_and_flatten_obs self obs, self)
  | Dict spaces =>
      match collect_obs (map fst spaces) [] self with
      | (Raise e, self) => (Raise e, self)
      | (Ok obs_dict, self) =>
          (flattened <- mapR (fun kv => reshape_and_flatten_obs self (snd kv)) obs_dict ;;
           torch.cat flattened, self)
      end
  | _ => (Raise (NotImplementedError "Observation space must be of Box or Dict type"), self)
  end.

Definition set_fast_forward_mode (self : FullyConnected) : string * FullyConnected :=
  ("the model " +:+ name +:+ " turns on the fast_forward_mode to speed up "
     +:+ "the forward calculation (there is only one policy with discrete "
     +:+ "action space, therefore in the model forward there is no need to have "
     +:+ "an explicit mapping to agents which is slow) ",
   {| env := env self;
      policy := policy self;
      policy_tag_to_agent_id_map := policy_tag_to_agent_id_map self;
      create_separate_placeholders_for_each_policy :=
        create_separate_placeholders_for_each_policy self;
      obs_dim_corresponding_to_num_agents := obs_dim_corresponding_to_num_agents self;
      fast_forward_mode := true;
      observation_space := observation_space self;
      fc := fc self;
      policy_head := policy_head self;
      vf_head := vf_head self;
      action_mask := action_mask self |}).

(** Lines 191-203 of [forward]: the tensor [ip] that enters the trunk. *)
Definition forward_input (self : FullyConnected) (obs : option Tensor)
    : result Tensor * FullyConnected :=
  match obs with
  | None =>
      match get_flattened_obs self with
      | (Raise e, self) => (Raise e, self)
      | (Ok obs, self) =>
          if negb (fast_forward_mode self)
             && negb (create_separate_placeholders_for_each_policy self)
          then
            (agent_ids_for_policy <-
               dict_lookup (policy_tag_to_agent_id_map self) (policy self) ;;
             torch.index_axis1 obs agent_ids_for_policy, self)
          else (Ok obs, self)
      end
  | Some obs => (Ok obs, self)
  end.

(** The loop over the layers of [self.fc]; [op] is unbound when there is
    no layer. *)
Fixpoint feed_fc (layers : list nn.Linear) (ip : Tensor) (op : option Tensor)
    : result Tensor :=
  match layers with
  | [] =>
      match op with
      | Some op => Ok op
      | None => Raise UnboundLocalError
      end
  | layer :: layers' =>
      op <- F.linear layer ip ;;
      feed_fc layers' (F.relu op) (Some (F.relu op))
  end.

(** Lines 205-218 of [forward]: the trunk, the policy heads with the
    mask of [self.action_mask] and softmax, and the value head. *)
Definition forward_heads (self : FullyConnected) (ip : Tensor)
    : result (list Tensor * Tensor) :=
  op <- feed_fc (fc self) ip None ;;
  action_probs <-
    mapR (fun ph =>
            logits <- F.linear ph op ;;
            masked <- apply_logit_mask logits (action_mask self) ;;
            Ok (F.softmax masked))
         (policy_head self) ;;
  vals <- F.linear (vf_head self) op ;;
  vals0 <- torch.select_last0 vals ;;
  Ok (action_probs, vals0).

Definition forward (self : FullyConnected) (obs : option Tensor)
    : result (list Tensor * Tensor) * FullyConnected :=
  match forward_input self obs with
  | (Raise e, self) => (Raise e, self)
  | (Ok ip, self) => (forward_heads self ip, self)
  end.

(** The arguments of the constructor once [model_config["fc_dims"]] has
    been read and found to be a list (lines 58-59); [params k] stands
    for the random initial parameters of the [k]-th [nn.Linear] that it
    creates. *)
Record InitArgs : Type := mkInitArgs {
  arg_env : EnvWrapper;
  arg_model_config : ModelConfig;
  arg_policy : string;
  arg_policy_tag_to_agent_id_map : gmap string (list nat);
  arg_create_separate_placeholders_for_each_policy : bool;
  arg_obs_dim_corresponding_to_num_agents : string;
  params : nat -> nat -> R;
}.

(** [FullyConnected.__init__] from line 60 on, with the list [fc_dims]
    of lines 58-59 in [arg_model_config]; [new_FullyConnected] below
    is the whole constructor, from [model_config] as it is passed. *)
Definition __init__ (a : InitArgs) : result FullyConnected :=
  let fc_dims := fc_dims (arg_model_config a) in
  let num_fc_layers := length fc_dims in
  if negb (bool_decide (arg_obs_dim_corresponding_to_num_agents a ∈ ["first"; "last"]))
  then Raise AssertionError else
  ids <- dict_lookup (arg_policy_tag_to_agent_id_map a) (arg_policy a) ;;
  sample_agent_id <- list_head ids ;;
  observation_space <- dict_lookup (env_observation_space (arg_env a)) sample_agent_id ;;
  let self0 :=
    {| env := arg_env a;
       policy := arg_policy a;
       policy_tag_to_agent_id_map := arg_policy_tag_to_agent_id_map a;
       create_separate_placeholders_for_each_policy :=
         arg_create_separate_placeholders_for_each_policy a;
       obs_dim_corresponding_to_num_agents := arg_obs_dim_corresponding_to_num_agents a;
       fast_forward_mode := false;
       observation_space := observation_space;
       fc := [];
       policy_head := [];
       vf_head := nn.mkLinear (mkTensor [] []) (mkTensor [] []);
       action_mask := None |} in
  flattened_obs_size <- get_flattened_obs_size self0 ;;
  sample_action_space <- dict_lookup (env_action_space (arg_env a)) sample_agent_id ;;
  action_space <-
    match sample_action_space with
    | Discrete n => Ok [n]
    | MultiDiscrete nvec => Ok nvec
    | _ => Raise (NotImplementedError "")
    end ;;
  let input_dims := flattened_obs_size :: removelast fc_dims in
  let output_dims := fc_dims in
  let fc :=
    map (fun fc_layer =>
           nn.new_Linear (params a fc_layer)
             (nth fc_layer input_dims 0) (nth fc_layer output_dims 0))
        (seq 0 num_fc_layers) in
  policy_heads <-
    mapR (fun '(idx, act_space) =>
            last_fc <- list_head (rev fc_dims) ;;
            Ok (nn.new_Linear (params a (num_fc_layers + idx)) last_fc act_space))
         (imap (fun idx act_space => (idx, act_space)) action_space) ;;
  last_fc <- list_head (rev fc_dims) ;;
  let vf_head := nn.new_Linear (params a (num_fc_layers + length action_space)) last_fc 1 in
  Ok {| env := arg_env a;
        policy := arg_policy a;
        policy_tag_to_agent_id_map := arg_policy_tag_to_agent_id_map a;
        create_separate_placeholders_for_each_policy :=
          arg_create_separate_placeholders_for_each_policy a;
        obs_dim_corresponding_to_num_agents := arg_obs_dim_corresponding_to_num_agents a;
        fast_forward_mode := false;
        observation_space := observation_space;
        fc := fc;
        policy_head := policy_heads;
        vf_head := vf_head;
        action_mask := None |}.

(** What [model_config] holds under a key, as far as the constructor
    looks at it: a list of layer sizes, a tuple of them, or an object of
    another kind. *)
Inductive PyValue : Type :=
| PyList (items : list nat)
| PyTuple (items : list nat)
| PyOther.

(** [FullyConnected(env, model_config, policy, ...)]: lines 58-59 read
    [model_config["fc_dims"]] and assert that it is a list, before
    anything else is looked at; then the constructor goes on as
    [__init__] has it. *)
Definition new_FullyConnected (env : EnvWrapper) (model_config : gmap string PyValue)
    (policy : string) (policy_tag_to_agent_id_map : gmap string (list nat))
    (create_separate_placeholders_for_each_policy : bool)
    (obs_dim_corresponding_to_num_agents : string)
    (params : nat -> nat -> R) : result FullyConnected :=
  fc_dims <- dict_lookup model_config "fc_dims" ;;
  match fc_dims with
  | PyList fc_dims =>
      __init__
        {| arg_env := env;
           arg_model_config := {| fc_dims := fc_dims |};
           arg_policy := policy;
           arg_policy_tag_to_agent_id_map := policy_tag_to_agent_id_map;
           arg_create_separate_placeholders_for_each_policy :=
             create_separate_placeholders_for_each_policy;
           arg_obs_dim_corresponding_to_num_agents := obs_dim_corresponding_to_num_agents;
           params := params |}
  | _ => Raise AssertionError
  end.

(** ** What happens to an instance after its construction

    The calls of the methods that assign attributes of [self], the
    simulation writing new buffers into the data manager, and the
    optimizer giving the parameters new values (of the same shapes). *)
Inductive event : Type :=
| call_forward (obs : option Tensor)
| call_get_flattened_obs
| call_set_fast_forward_mode
| env_update (store : gmap string Tensor)
| optimizer_update (upd : Tensor -> list R).

Definition update_tensor (upd : Tensor -> list R) (t : Tensor) : Tensor :=
  mkTensor (shape t) (upd t).

Definition update_linear (upd : Tensor -> list R) (l : nn.Linear) : nn.Linear :=
  nn.mkLinear (update_tensor upd (nn.weight l)) (update_tensor upd (nn.bias l)).

Definition after (ev : event) (self : FullyConnected) : FullyConnected :=
  match ev with
  | call_forward obs => snd (forward self obs)
  | call_get_flattened_obs => snd (get_flattened_obs self)
  | call_set_fast_forward_mode => snd (set_fast_forward_mode self)
  | env_update store =>
      {| env := {| n_agents := n_agents (env self);
                   env_observation_space := env_observation_space (env self);
                   env_action_space := env_action_space (env self);
                   cuda_data_manager := store |};
         policy := policy self;
         policy_tag_to_agent_id_map := policy_tag_to_agent_id_map self;
         create_separate_placeholders_for_each_policy :=
           create_separate_placeholders_for_each_policy self;
         obs_dim_corresponding_to_num_agents := obs_dim_corresponding_to_num_agents self;
         fast_forward_mode := fast_forward_mode self;
         observation_space := observation_space self;
         fc := fc self;
         policy_head := policy_head self;
         vf_head := vf_head self;
         action_mask := action_mask self |}
  | optimizer_update upd =>
      {| env := env self;
         policy := policy self;
         policy_tag_to_agent_id_map := policy_tag_to_agent_id_map self;
         create_separate_placeholders_for_each_policy :=
           create_separate_placeholders_for_each_policy self;
         obs_dim_corresponding_to_num_agents := obs_dim_corresponding_to_num_agents self;
         fast_forward_mode := fast_forward_mode self;
         observation_space := observation_space self;
         fc := map (update_linear upd) (fc self);
         policy_head := map (update_linear upd) (policy_head self);
         vf_head := update_linear upd (vf_head self);
         action_mask := action_mask self |}
  end.

Definition run (evs : list event) (self : FullyConnected) : FullyConnected :=
  fold_left (fun s ev => after ev s) evs self.

End Model.

(** ** Notions that the statements below use *)

(** The sizes [(in_features, out_features)] of a layer. *)
Definition layer_dims (l : nn.Linear) : nat * nat := (nn.in_features l, nn.out_features l).

(** The attributes that are fixed at construction: every attribute other
    than the mask, the fast-forward flag, the data buffers and the values
    of the parameters. *)
Definition same_setup (a b : FullyConnected) : Prop :=
  policy b = policy a /\
  policy_tag_to_agent_id_map b = policy_tag_to_agent_id_map a /\
  create_separate_placeholders_for_each_policy b
    = create_separate_placeholders_for_each_policy a /\
  obs_dim_corresponding_to_num_agents b = obs_dim_corresponding_to_num_agents a /\
  observation_space b = observation_space a /\
  n_agents (env b) = n_agents (env a) /\
  map layer_dims (fc b) = map layer_dims (fc a) /\
  map layer_dims (policy_head b) = map layer_dims (policy_head a) /\
  layer_dims (vf_head b) = layer_dims (vf_head a).

(** Each layer takes what the layer before it gives, the first one [inp]. *)
Fixpoint layers_chain (inp : nat) (layers : list nn.Linear) : Prop :=
  match layers with
  | [] => True
  | l :: layers' => nn.in_features l = inp /\ layers_chain (nn.out_features l) layers'
  end.

(** The action space that the constructor looks at (lines 70 and 75). *)
Definition sample_action_space (a : InitArgs) : result Space :=
  ids <- dict_lookup (arg_policy_tag_to_agent_id_map a) (arg_policy a) ;;
  sample_agent_id <- list_head ids ;;
  dict_lookup (env_action_space (arg_env a)) sample_agent_id.

(** The observation space that the constructor looks at (lines 70 and 72). *)
Definition sample_observation_space (a : InitArgs) : result Space :=
  ids <- dict_lookup (arg_policy_tag_to_agent_id_map a) (arg_policy a) ;;
  sample_agent_id <- list_head ids ;;
  dict_lookup (env_observation_space (arg_env a)) sample_agent_id.

Definition is_Box_or_Dict (sp : Space) : bool :=
  match sp with
  | Box _ | Dict _ => true
  | _ => false
  end.

Definition is_Discrete_or_MultiDiscrete (sp : Space) : bool :=
  match sp with
  | Discrete _ | MultiDiscrete _ => true
  | _ => false
  end.

Definition is_ValueError (e : exception) : bool :=
  match e with
  | ValueError _ => true
  | _ => false
  end.

(** The result is not a raised [ValueError]. *)
Definition no_ValueError {A} (r : result A) : Prop :=
  match r with
  | Ok _ => True
  | Raise e => is_ValueError e = false
  end.

(** A buffer of [E] environments and [N] agents for an entry of shape
    [sh], as the agent dimension of the instance wants it. *)
Definition buffer_fits (self : FullyConnected) (E N : nat) (sh : list nat) (buf : Tensor)
    : Prop :=
  (obs_dim_corresponding_to_num_agents self = "first" /\ shape buf = E :: N :: sh) \/
  (obs_dim_corresponding_to_num_agents self = "last" /\ shape buf = E :: sh ++ [N]).

(** The exceptions of lookups and of torch. *)
Definition is_lookup_or_torch_error (e : exception) : bool :=
  match e with
  | IndexError | KeyError | RuntimeError => true
  | _ => false
  end.

(** The result is a value or one of those exceptions. *)
Definition raises_only_lookup_or_torch {A} (r : result A) : Prop :=
  match r with
  | Ok _ => True
  | Raise e => is_lookup_or_torch_error e = true
  end.

(** The numbers of actions of an action space, one per policy head. *)
Definition action_dims (sp : Space) : list nat :=
  match sp with
  | Discrete n => [n]
  | MultiDiscrete nvec => nvec
  | _ => []
  end.

(** A layer whose parameters have the shapes of [nn.Linear(i, o)]. *)
Definition linear_well_formed (l : nn.Linear) : Prop :=
  shape (nn.weight l) = [nn.out_features l; nn.in_features l] /\
  shape (nn.bias l) = [nn.out_features l] /\
  torch.well_formed (nn.weight l) /\ torch.well_formed (nn.bias l).

(** ** A small concrete setting

    One policy ["p"] for all agents, buffers named after
    ["observations"], the action-mask entry called ["action_mask"], and
    layers whose parameters are all zero. *)

Module Example.

Definition OBSERVATIONS : string := "observations".
Definition ACTION_MASK : string := "action_mask".

Definition env_of (n : nat) (osp asp : Space) (store : gmap string Tensor) : EnvWrapper :=
  {| n_agents := n;
     env_observation_space := list_to_map (map (fun i => (i, osp)) (seq 0 n));
     env_action_space := list_to_map (map (fun i => (i, asp)) (seq 0 n));
     cuda_data_manager := store |}.

Definition args_of (e : EnvWrapper) (ids : list nat) (dim : string) : InitArgs :=
  {| arg_env := e;
     arg_model_config := {| fc_dims := [1] |};
     arg_policy := "p";
     arg_policy_tag_to_agent_id_map := {[ "p" := ids ]};
     arg_create_separate_placeholders_for_each_policy := false;
     arg_obs_dim_corresponding_to_num_agents := dim;
     params := fun _ _ => 0%R |}.

(** An instance with one trunk layer of [features] inputs and one
    output, and one policy head of two actions. *)
Definition net_of (e : EnvWrapper) (ids : list nat) (dim : string) (osp : Space)
    (features : nat) (mask : option Tensor) : FullyConnected :=
  {| env := e;
     policy := "p";
     policy_tag_to_agent_id_map := {[ "p" := ids ]};
     create_separate_placeholders_for_each_policy := false;
     obs_dim_corresponding_to_num_agents := dim;
     fast_forward_mode := false;
     observation_space := osp;
     fc := [nn.new_Linear (fun _ => 0%R) features 1];
     policy_head := [nn.new_Linear (fun _ => 0%R) 1 2];
     vf_head := nn.new_Linear (fun _ => 0%R) 1 1;
     action_mask := mask |}.

(** A [Dict] space with an action-mask entry, the buffers of two
    successive batches, and an instance before and after them: the
    second is the first after a [forward()] on the first batch and the
    arrival of the second batch. *)
Definition mask_space : Space := Dict [("action_mask", [2]); ("x", [1])].

Definition first_batch : gmap string Tensor :=
  {[ "observations_action_mask" := mkTensor [1; 1; 2] [1; 0]%R;
     "observations_x" := mkTensor [1; 1; 1] [0]%R ]}.


Definition masked_net : FullyConnected :=
  net_of (env_of 1 mask_space (Discrete 2) first_batch) [0] "first" mask_space 1 None.


End Example.

(** ** Properties of the tensor operations *)

Section TensorFacts.

Import torch.

Lemma numel_cons d sh : numel (d :: sh) = d * numel sh.
Proof. reflexivity. Qed.

Lemma ravel_unravel sh : forall j, j < numel sh -> ravel sh (unravel sh j) = j.
Proof.
  induction sh as [|d sh IH]; intros j Hj; cbn [unravel ravel].
  - cbn in Hj. lia.
  - rewrite numel_cons in Hj.
    destruct (Nat.eq_dec (numel sh) 0) as [E|E]; [rewrite E in Hj; lia|].
    rewrite IH by (apply Nat.mod_upper_bound; exact E).
    pose proof (Nat.div_mod_eq j (numel sh)). lia.
Qed.

Lemma unravel_clip sh : forall j, j < numel sh ->
  zip_with (fun d i => if d =? 1 then 0 else i) sh (unravel sh j) = unravel sh j.
Proof.
  induction sh as [|d sh IH]; intros j Hj; cbn [unravel zip_with]; [reflexivity|].
  rewrite numel_cons in Hj.
  destruct (Nat.eq_dec (numel sh) 0) as [E|E]; [rewrite E in Hj; lia|].
  rewrite IH by (apply Nat.mod_upper_bound; exact E).
  f_equal. destruct (d =? 1) eqn:Hd; [|reflexivity].
  apply Nat.eqb_eq in Hd. subst d. symmetry. apply Nat.div_small. lia.
Qed.

Lemma map_nth_seq (l : list R) : map (fun j => nth j l 0%R) (seq 0 (length l)) = l.
Proof.
  apply (nth_ext _ _ 0%R 0%R).
  - now rewrite length_map, length_seq.
  - intros n Hn. rewrite length_map, length_seq in Hn.
    rewrite (nth_indep _ _ (nth 0 l 0%R)) by now rewrite length_map, length_seq.
    change (nth 0 l 0%R) with ((fun j => nth j l 0%R) 0).
    rewrite map_nth, seq_nth by exact Hn. reflexivity.
Qed.

Lemma expand_same t : well_formed t -> expand t (shape t) = data t.
Proof.
  intros Hwf. unfold expand. rewrite Nat.sub_diag. cbn [repeat app].
  etransitivity; [|apply map_nth_seq]. rewrite Hwf.
  apply map_ext_in. intros j Hj. apply in_seq in Hj.
  rewrite unravel_clip, ravel_unravel by lia. reflexivity.
Qed.

Lemma broadcast_rev_same l : broadcast_rev l l = Some l.
Proof.
  induction l as [|x l IH]; [reflexivity|].
  cbn. rewrite Nat.eqb_refl, IH. reflexivity.
Qed.

Lemma broadcast_shapes_same sh : broadcast_shapes sh sh = Ok sh.
Proof. unfold broadcast_shapes. now rewrite broadcast_rev_same, rev_involutive. Qed.

Lemma binop_same_shape f a b :
  well_formed a -> well_formed b -> shape b = shape a ->
  binop f a b = Ok (mkTensor (shape a) (zip_with f (data a) (data b))).
Proof.
  intros Ha Hb Hs. unfold binop. rewrite Hs, broadcast_shapes_same. cbn [bind].
  rewrite (expand_same a Ha). rewrite <- Hs, (expand_same b Hb). reflexivity.
Qed.

End TensorFacts.

(** ** Softmax and the logit mask *)

Section SoftmaxFacts.

Import torch.

Open Scope R_scope.

Lemma sum_R_nil : sum_R [] = 0.
Proof. reflexivity. Qed.

Lemma sum_R_cons x xs : sum_R (x :: xs) = x + sum_R xs.
Proof. reflexivity. Qed.

Lemma sum_R_exp_pos xs : xs <> [] -> 0 < sum_R (map exp xs).
Proof.
  destruct xs as [|x xs]; [congruence|]. intros _.
  assert (H : 0 <= sum_R (map exp xs)).
  { induction xs as [|y ys IH]; cbn [map]; rewrite ?sum_R_nil, ?sum_R_cons; [lra|].
    pose proof (exp_pos y). lra. }
  cbn [map]. rewrite sum_R_cons. pose proof (exp_pos x). lra.
Qed.

Lemma sum_R_map_div (s : R) xs :
  sum_R (map (fun x => exp x / s) xs) = sum_R (map exp xs) / s.
Proof.
  induction xs as [|x xs IH]; cbn [map]; rewrite ?sum_R_nil, ?sum_R_cons.
  - unfold Rdiv. now rewrite Rmult_0_l.
  - rewrite IH. unfold Rdiv. ring.
Qed.

Lemma sum_softmax_row xs : xs <> [] -> sum_R (F.softmax_row xs) = 1.
Proof.
  intros Hxs. unfold F.softmax_row. rewrite sum_R_map_div.
  pose proof (sum_R_exp_pos xs Hxs). field. lra.
Qed.

Lemma sum_R_exp_shift c xs :
  sum_R (map exp (map (fun x => x + c) xs)) = exp c * sum_R (map exp xs).
Proof.
  induction xs as [|x xs IH]; cbn [map]; rewrite ?sum_R_nil, ?sum_R_cons; [ring|].
  rewrite IH, exp_plus. ring.
Qed.

(** Softmax does not see a constant added to every entry of the row. *)
Lemma softmax_row_shift c xs :
  F.softmax_row (map (fun x => x + c) xs) = F.softmax_row xs.
Proof.
  destruct (decide (xs = [])) as [->|Hxs]; [reflexivity|].
  unfold F.softmax_row. rewrite sum_R_exp_shift, map_map.
  apply map_ext. intros x. rewrite exp_plus.
  pose proof (sum_R_exp_pos xs Hxs). pose proof (exp_pos c). field. lra.
Qed.

Lemma row_map f sh d r :
  row (mkTensor sh (map f d)) r = map f (row (mkTensor sh d) r).
Proof. unfold row. cbn [shape data]. now rewrite skipn_map, firstn_map. Qed.

Lemma softmax_shift c t :
  F.softmax (mkTensor (shape t) (map (fun x => x + c) (data t))) = F.softmax t.
Proof.
  unfold F.softmax, num_rows. cbn [shape]. f_equal.
  apply flat_map_ext. intros r. rewrite row_map.
  destruct t as [sh d]. apply softmax_row_shift.
Qed.

Close Scope R_scope.

Lemma numel_app a b : numel (a ++ b) = numel a * numel b.
Proof.
  induction a as [|x a IH]; cbn [app]; [cbn; lia|].
  rewrite !numel_cons, IH. lia.
Qed.

Lemma numel_lead_last sh : numel sh = numel (lead sh) * last_dim sh.
Proof.
  destruct (decide (sh = [])) as [->|Hne]; [reflexivity|].
  rewrite (app_removelast_last 1 Hne) at 1.
  rewrite numel_app. unfold lead, last_dim. cbn. lia.
Qed.

(** The [r]-th chunk of a concatenation of chunks of one length. *)
Lemma chunk_flat_map_from {A} (g : nat -> list A) (L : nat) :
  forall m b, (forall k, k < m -> length (g (b + k)) = L) ->
  forall r, r < m ->
  firstn L (skipn (r * L) (flat_map g (seq b m))) = g (b + r).
Proof.
  induction m as [|m IHm]; intros b Hl r Hr; [lia|].
  cbn [seq flat_map].
  assert (E : length (g b) = L) by (rewrite <- (Hl 0) by lia; now rewrite Nat.add_0_r).
  destruct r as [|r].
  - cbn [Nat.mul skipn]. rewrite Nat.add_0_r.
    apply take_app_length'. now symmetry.
  - replace (S r * L) with (L + r * L) by lia.
    rewrite drop_app_add' by (now symmetry).
    rewrite IHm; [f_equal; lia| |lia].
    intros k Hk. replace (S b + k) with (b + S k) by lia. apply Hl. lia.
Qed.

Lemma chunk_flat_map {A} (g : nat -> list A) (L n r : nat) :
  (forall k, k < n -> length (g k) = L) -> r < n ->
  firstn L (skipn (r * L) (flat_map g (seq 0 n))) = g r.
Proof. intros Hl Hr. now rewrite (chunk_flat_map_from g L n 0 Hl r Hr). Qed.

End SoftmaxFacts.

Section LogitMask.

Import torch.

Lemma row_length t r :
  well_formed t -> r < num_rows t -> length (row t r) = last_dim (shape t).
Proof.
  unfold well_formed, row, num_rows. intros Hwf Hr.
  rewrite length_take, length_drop, Hwf, (numel_lead_last (shape t)). nia.
Qed.

Lemma length_softmax_row xs : length (F.softmax_row xs) = length xs.
Proof. unfold F.softmax_row. apply length_map. Qed.

Lemma row_softmax t r :
  well_formed t -> r < num_rows t -> row (F.softmax t) r = F.softmax_row (row t r).
Proof.
  intros Hwf Hr. unfold row at 1. cbn [F.softmax shape data].
  apply (chunk_flat_map (fun k => F.softmax_row (row t k))); [|exact Hr].
  intros k Hk. now rewrite length_softmax_row, row_length.
Qed.

Lemma softmax_rows_sum_to_one t r :
  well_formed t -> r < num_rows t -> 0 < last_dim (shape t) ->
  sum_R (row (F.softmax t) r) = 1%R.
Proof.
  intros Hwf Hr Hpos. rewrite row_softmax by assumption.
  apply sum_softmax_row. intros E.
  pose proof (row_length t r Hwf Hr) as Hl. rewrite E in Hl. cbn in Hl. lia.
Qed.

Lemma zip_with_mask_terms (dl dm : list R) :
  zip_with Rplus dl
    (zip_with Rmult (map (fun x => (x * -10000000)%R) (map (fun _ => 1%R) dl))
                    (map (fun x => (1 - x)%R) dm))
  = zip_with (fun l m => (l + -10000000 * (1 - m))%R) dl dm.
Proof.
  revert dm. induction dl as [|l dl IH]; intros [|m dm]; cbn; try reflexivity.
  rewrite IH. f_equal. ring.
Qed.

(** What [apply_logit_mask] computes for a mask of the shape of the logits. *)
Lemma apply_logit_mask_same_shape logits mask :
  well_formed logits -> well_formed mask -> shape mask = shape logits ->
  apply_logit_mask logits (Some mask) =
    Ok (mkTensor (shape logits)
          (zip_with (fun l m => (l + -10000000 * (1 - m))%R) (data logits) (data mask))).
Proof.
  intros Hl Hm Hs. unfold apply_logit_mask, mul, add.
  rewrite binop_same_shape.
  - cbn [bind]. rewrite binop_same_shape.
    + cbn [shape data ones_like mul_scalar rsub_scalar]. now rewrite zip_with_mask_terms.
    + exact Hl.
    + unfold well_formed in *.
      cbn [shape data ones_like mul_scalar rsub_scalar].
      rewrite length_zip_with, !length_map. rewrite Hs in Hm. lia.
    + reflexivity.
  - unfold well_formed in *. cbn [shape data ones_like mul_scalar].
    now rewrite !length_map.
  - unfold well_formed in *. cbn [shape data rsub_scalar]. now rewrite length_map.
  - cbn [shape ones_like mul_scalar rsub_scalar]. exact Hs.
Qed.

Lemma zip_with_zero_mask (dl dm : list R) :
  length dm = length dl -> Forall (fun m => m = 0%R) dm ->
  zip_with (fun l m => (l + -10000000 * (1 - m))%R) dl dm
  = map (fun l => (l + -10000000)%R) dl.
Proof.
  revert dm. induction dl as [|l dl IH]; intros [|m dm] Hlen Hz; cbn in *;
    try reflexivity; try discriminate.
  inversion Hz; subst. rewrite IH by (auto; lia). f_equal. ring.
Qed.

End LogitMask.

(** C3: [apply_logit_mask(logits, None)] returns the logits unchanged; for
    a mask of the shape of the logits, [apply_logit_mask(logits, mask)]
    is [logits + (-1e7) * (1 - mask)], entry by entry, and every position
    where the mask is 1 keeps its logit exactly. *)
Theorem C3_apply_logit_mask :
  (forall logits, apply_logit_mask logits None = Ok logits) /\
  (forall logits mask,
     torch.well_formed logits -> torch.well_formed mask -> shape mask = shape logits ->
     exists out,
       apply_logit_mask logits (Some mask) = Ok out /\
       out = mkTensor (shape logits)
               (zip_with (fun l m => (l + -10000000 * (1 - m))%R)
                         (data logits) (data mask)) /\
       forall i x, data logits !! i = Some x -> data mask !! i = Some 1%R ->
                   data out !! i = Some x).
Proof.
  split; [reflexivity|].
  intros logits mask Hl Hm Hs. eexists. split; [now apply apply_logit_mask_same_shape|].
  split; [reflexivity|].
  intros i x Hx H1. cbn [data]. rewrite lookup_zip_with, Hx, H1. cbn.
  f_equal. ring.
Qed.

Lemma C3_apply_logit_mask_witness :
  exists out,
    apply_logit_mask (mkTensor [1; 2] [3%R; 5%R]) (Some (mkTensor [1; 2] [1%R; 0%R])) = Ok out /\
    data out !! 0 = Some 3%R.
Proof.
  destruct C3_apply_logit_mask as [_ H].
  destruct (H (mkTensor [1; 2] [3%R; 5%R]) (mkTensor [1; 2] [1%R; 0%R]))
    as (out & Hout & _ & Hkeep); [reflexivity | reflexivity | reflexivity |].
  exists out. split; [exact Hout|]. apply Hkeep; reflexivity.
Defined.

Lemma sum_R_le_bound (c : R) (l : list R) :
  Forall (fun p => (p <= c)%R) l -> (sum_R l <= INR (length l) * c)%R.
Proof.
  induction 1 as [|p l Hp _ IH].
  - rewrite sum_R_nil. cbn. lra.
  - rewrite sum_R_cons. cbn [length]. rewrite S_INR. lra.
Qed.

(** In a list of [n] numbers that sum to 1, one is above every [eps]
    with [n * eps < 1]. *)
Lemma sum_one_not_all_small (l : list R) (eps : R) :
  sum_R l = 1%R -> (INR (length l) * eps < 1)%R -> Exists (fun p => (eps < p)%R) l.
Proof.
  intros Hsum Heps.
  destruct (Forall_Exists_dec (fun p => (p <= eps)%R) (fun p => (eps < p)%R)
              (fun p => Rle_lt_dec p eps) l) as [Hall|Hex]; [|exact Hex].
  pose proof (sum_R_le_bound eps l Hall). lra.
Qed.

(** C1 (as the code has it): with a mask that is all zeros
    [apply_logit_mask] moves every logit by the same constant [-1e7];
    the entries of the soft-max of the result along a non-empty last
    axis of [n] entries sum to 1 in exact arithmetic, so in every row
    one of them is above every [eps] with [n * eps < 1]: they are not
    all close to zero. *)
Theorem C1_zero_mask_softmax :
  forall logits mask,
    torch.well_formed logits -> torch.well_formed mask -> shape mask = shape logits ->
    Forall (fun m => m = 0%R) (data mask) ->
    exists masked,
      apply_logit_mask logits (Some mask) = Ok masked /\
      masked = mkTensor (shape logits) (map (fun l => (l + -10000000)%R) (data logits)) /\
      (forall r, r < torch.num_rows logits -> 0 < torch.last_dim (shape logits) ->
                 sum_R (torch.row (F.softmax masked) r) = 1%R /\
                 forall eps, (INR (torch.last_dim (shape logits)) * eps < 1)%R ->
                             Exists (fun p => (eps < p)%R) (torch.row (F.softmax masked) r)).
Proof.
  intros logits mask Hl Hm Hs Hz. eexists. split; [now apply apply_logit_mask_same_shape|].
  rewrite zip_with_zero_mask; [|unfold torch.well_formed in *; congruence|exact Hz].
  split; [reflexivity|].
  set (masked := mkTensor _ _).
  assert (Hwf : torch.well_formed masked).
  { unfold torch.well_formed in *. subst masked. cbn [shape data]. now rewrite length_map. }
  intros r Hr Hpos.
  assert (Hsum : sum_R (torch.row (F.softmax masked) r) = 1%R).
  { now apply softmax_rows_sum_to_one. }
  split; [exact Hsum|]. intros eps Heps. apply sum_one_not_all_small; [exact Hsum|].
  rewrite row_softmax, length_softmax_row, row_length by assumption. exact Heps.
Qed.

(** ** The flattened observation size *)

Section Sizes.

Variable _ACTION_MASK : string.

(** The [Dict] loop of [get_flattened_obs_size], from any starting value. *)
Lemma dict_size_loop spaces : forall acc,
  fold_left
    (fun obs_size '(key, shape) =>
       if String.eqb key _ACTION_MASK then obs_size else obs_size + np.prod shape)
    spaces acc
  = acc + sum_list (map (fun kv => np.prod (snd kv))
                        (filter (fun kv => fst kv <> _ACTION_MASK) spaces)).
Proof.
  induction spaces as [|[key sh] spaces IH]; intros acc; cbn [fold_left].
  - cbn. lia.
  - rewrite IH. rewrite filter_cons. cbn [fst].
    destruct (String.eqb_spec key _ACTION_MASK) as [E|E].
    + rewrite decide_False by (intros H; apply H; exact E). reflexivity.
    + rewrite decide_True by exact E. cbn [map snd]. cbn. now rewrite Nat.add_assoc.
Qed.

(** C5: [get_flattened_obs_size] returns the product of the shape
    dimensions for a [Box] space; for a [Dict] space the sum, over the
    entries other than the action-mask entry, of the products of their
    shape dimensions; it reads [self.observation_space] only, so no
    batch and no buffer enters the result. *)
Theorem C5_get_flattened_obs_size :
  (forall self shape,
      observation_space self = Box shape ->
      get_flattened_obs_size _ACTION_MASK self = Ok (fold_right Nat.mul 1 shape)) /\
  (forall self spaces,
      observation_space self = Dict spaces ->
      get_flattened_obs_size _ACTION_MASK self =
        Ok (sum_list (map (fun kv => fold_right Nat.mul 1 (snd kv))
                          (filter (fun kv => fst kv <> _ACTION_MASK) spaces)))) /\
  (forall self self',
      observation_space self = observation_space self' ->
      get_flattened_obs_size _ACTION_MASK self = get_flattened_obs_size _ACTION_MASK self').
Proof.
  repeat split.
  - intros self shape H. unfold get_flattened_obs_size. now rewrite H.
  - intros self spaces H. unfold get_flattened_obs_size. rewrite H.
    now rewrite dict_size_loop.
  - intros self self' H. unfold get_flattened_obs_size. now rewrite H.
Qed.
End Sizes.

(** ** What the methods leave unchanged *)

Section Frame.

Variables (_OBSERVATIONS _ACTION_MASK : string).

Lemma set_action_mask_twice m m' self :
  set_action_mask m' (set_action_mask m self) = set_action_mask m' self.
Proof. reflexivity. Qed.

Lemma set_action_mask_same self : set_action_mask (action_mask self) self = self.
Proof. now destruct self. Qed.

(** The first loop of [get_flattened_obs] assigns [self.action_mask] and
    nothing else. *)
Lemma collect_obs_frame keys : forall acc self,
  exists m, snd (collect_obs _OBSERVATIONS _ACTION_MASK keys acc self)
            = set_action_mask m self.
Proof.
  induction keys as [|key keys IH]; intros acc self; cbn [collect_obs].
  - exists (action_mask self). cbn. now rewrite set_action_mask_same.
  - destruct (data_on_device_via_torch _ _) as [obs|e].
    + destruct (String.eqb key _ACTION_MASK).
      * destruct (reshape_and_flatten_obs self obs) as [m|e].
        -- destruct (IH acc (set_action_mask (Some m) self)) as [m' Hm'].
           exists m'. now rewrite Hm', set_action_mask_twice.
        -- exists (action_mask self). cbn. now rewrite set_action_mask_same.
      * apply IH.
    + exists (action_mask self). cbn. now rewrite set_action_mask_same.
Qed.

Lemma get_flattened_obs_frame self :
  exists m, snd (get_flattened_obs _OBSERVATIONS _ACTION_MASK self) = set_action_mask m self.
Proof.
  unfold get_flattened_obs.
  destruct (observation_space self) as [sh|n|nvec|n|spaces];
    try (exists (action_mask self); cbn; now rewrite set_action_mask_same).
  destruct (collect_obs_frame (map fst spaces) [] self) as [m Hm].
  destruct (collect_obs _ _ _ _ _) as [[obs_dict|e] self'];
    cbn [snd] in *; now exists m.
Qed.

Lemma forward_input_frame self obs :
  exists m, snd (forward_input _OBSERVATIONS _ACTION_MASK self obs) = set_action_mask m self.
Proof.
  unfold forward_input. destruct obs as [obs|].
  - exists (action_mask self). cbn. now rewrite set_action_mask_same.
  - destruct (get_flattened_obs_frame self) as [m Hm].
    destruct (get_flattened_obs _ _ _) as [[obs|e] self']; cbn [snd] in *;
      [|now exists m].
    destruct (negb _ && negb _); cbn [snd]; now exists m.
Qed.

Lemma forward_frame self obs :
  exists m, snd (forward _OBSERVATIONS _ACTION_MASK self obs) = set_action_mask m self.
Proof.
  unfold forward. destruct (forward_input_frame self obs) as [m Hm].
  destruct (forward_input _ _ _ _) as [[ip|e] self']; cbn [snd] in *; now exists m.
Qed.

Lemma same_setup_refl a : same_setup a a.
Proof. now repeat split. Qed.

Lemma same_setup_trans a b c : same_setup a b -> same_setup b c -> same_setup a c.
Proof. unfold same_setup. intros H1 H2. destruct_and!. repeat split; congruence. Qed.

Lemma same_setup_set_action_mask m a : same_setup a (set_action_mask m a).
Proof. now repeat split. Qed.

Lemma layer_dims_update upd l : layer_dims (update_linear upd l) = layer_dims l.
Proof. reflexivity. Qed.

Lemma after_same_setup ev self :
  same_setup self (after _OBSERVATIONS _ACTION_MASK ev self).
Proof.
  destruct ev as [obs| | |store|upd]; cbn [after].
  - destruct (forward_frame self obs) as [m ->]. apply same_setup_set_action_mask.
  - destruct (get_flattened_obs_frame self) as [m ->]. apply same_setup_set_action_mask.
  - now repeat split.
  - now repeat split.
  - repeat split; cbn; try reflexivity; rewrite map_map; now apply map_ext.
Qed.

Lemma run_same_setup evs : forall self,
  same_setup self (run _OBSERVATIONS _ACTION_MASK evs self).
Proof.
  induction evs as [|ev evs IH]; intros self; cbn.
  - apply same_setup_refl.
  - eapply same_setup_trans; [apply after_same_setup|apply IH].
Qed.

End Frame.

(** ** Which exceptions can be raised *)

Section Exceptions.

Lemma no_ValueError_bind {A B} (r : result A) (k : A -> result B) :
  no_ValueError r -> (forall a, r = Ok a -> no_ValueError (k a)) -> no_ValueError (bind r k).
Proof. destruct r as [a|e]; cbn; auto. Qed.

Lemma no_ValueError_mapR {A B} (f : A -> result B) l :
  (forall a, no_ValueError (f a)) -> no_ValueError (mapR f l).
Proof.
  intros Hf. induction l as [|a l IH]; cbn [mapR]; [exact I|].
  apply no_ValueError_bind; [apply Hf|]. intros b _.
  apply no_ValueError_bind; [exact IH|]. intros bs _. exact I.
Qed.

Lemma no_ValueError_dict_lookup {K} `{Countable K} {V} (m : gmap K V) k :
  no_ValueError (dict_lookup m k).
Proof. unfold dict_lookup. now destruct (m !! k). Qed.

Lemma no_ValueError_list_head {A} (l : list A) : no_ValueError (list_head l).
Proof. now destruct l. Qed.

Lemma no_ValueError_data_on_device e name : no_ValueError (data_on_device_via_torch e name).
Proof. unfold data_on_device_via_torch. now destruct (_ !! _). Qed.

Lemma no_ValueError_wrap_dim rank d : no_ValueError (torch.wrap_dim rank d).
Proof. unfold torch.wrap_dim. repeat case_decide; exact I || reflexivity. Qed.

Lemma no_ValueError_permute t dims : no_ValueError (torch.permute t dims).
Proof.
  unfold torch.permute. destruct (negb _); [reflexivity|].
  apply no_ValueError_bind; [apply no_ValueError_mapR, no_ValueError_wrap_dim|].
  intros perm _. now destruct (negb _).
Qed.

Lemma no_ValueError_infer_size dims n : no_ValueError (torch.infer_size dims n).
Proof. unfold torch.infer_size. repeat case_match; exact I || reflexivity. Qed.

Lemma no_ValueError_reshape t dims : no_ValueError (torch.reshape t dims).
Proof.
  unfold torch.reshape. apply no_ValueError_bind; [apply no_ValueError_infer_size|].
  intros; exact I.
Qed.

Lemma no_ValueError_index_axis1 t ids : no_ValueError (torch.index_axis1 t ids).
Proof. unfold torch.index_axis1. repeat case_match; exact I || reflexivity. Qed.

Lemma no_ValueError_cat ts : no_ValueError (torch.cat ts).
Proof. unfold torch.cat. repeat case_match; exact I || reflexivity. Qed.

Lemma no_ValueError_binop f a b : no_ValueError (torch.binop f a b).
Proof.
  unfold torch.binop, torch.broadcast_shapes.
  destruct (torch.broadcast_rev _ _); cbn; exact I || reflexivity.
Qed.

Lemma no_ValueError_apply_logit_mask logits mask :
  no_ValueError (apply_logit_mask logits mask).
Proof.
  unfold apply_logit_mask. destruct mask as [mask|]; [|exact I].
  apply no_ValueError_bind; [apply no_ValueError_binop|].
  intros; apply no_ValueError_binop.
Qed.

Lemma no_ValueError_linear l x : no_ValueError (F.linear l x).
Proof. unfold F.linear. repeat case_match; exact I || reflexivity. Qed.

Lemma no_ValueError_select_last0 t : no_ValueError (torch.select_last0 t).
Proof. unfold torch.select_last0. repeat case_match; exact I || reflexivity. Qed.

End Exceptions.

Section Reshape.

Variables (_OBSERVATIONS _ACTION_MASK : string).

Lemma no_ValueError_num_agents_of self : no_ValueError (num_agents_of self).
Proof.
  unfold num_agents_of. destruct (create_separate_placeholders_for_each_policy self);
    [|exact I].
  apply no_ValueError_bind; [apply no_ValueError_dict_lookup|]. intros; exact I.
Qed.

(** With the agent dimension "first" or "last" the method does not get
    to its [raise ValueError]. *)
Lemma no_ValueError_reshape_and_flatten_obs self obs :
  obs_dim_corresponding_to_num_agents self ∈ ["first"; "last"] ->
  no_ValueError (reshape_and_flatten_obs self obs).
Proof.
  intros Hdim. unfold reshape_and_flatten_obs.
  apply no_ValueError_bind; [apply no_ValueError_list_head|]. intros num_envs _.
  apply no_ValueError_bind; [apply no_ValueError_num_agents_of|]. intros num_agents _.
  apply no_ValueError_bind; [|intros; apply no_ValueError_reshape].
  destruct (String.eqb_spec (obs_dim_corresponding_to_num_agents self) "first") as [E|E];
    [exact I|].
  destruct (String.eqb_spec (obs_dim_corresponding_to_num_agents self) "last") as [E'|E'].
  - apply no_ValueError_bind; [|intros; apply no_ValueError_permute].
    destruct (_ =? 1); [apply no_ValueError_reshape|exact I].
  - exfalso. apply elem_of_cons in Hdim as [Hdim|Hdim]; [congruence|].
    apply list_elem_of_singleton in Hdim. congruence.
Qed.

Lemma no_ValueError_collect_obs keys : forall acc self,
  obs_dim_corresponding_to_num_agents self ∈ ["first"; "last"] ->
  no_ValueError (fst (collect_obs _OBSERVATIONS _ACTION_MASK keys acc self)).
Proof.
  induction keys as [|key keys IH]; intros acc self Hdim; cbn [collect_obs]; [exact I|].
  pose proof (no_ValueError_data_on_device (env self)
                (obs_name _OBSERVATIONS self key)) as Hd.
  destruct (data_on_device_via_torch _ _) as [obs|e]; [|exact Hd].
  destruct (String.eqb key _ACTION_MASK); [|now apply IH].
  pose proof (no_ValueError_reshape_and_flatten_obs self obs Hdim) as Hr.
  destruct (reshape_and_flatten_obs self obs) as [m|e]; [|exact Hr].
  apply IH. exact Hdim.
Qed.

Lemma no_ValueError_get_flattened_obs self :
  obs_dim_corresponding_to_num_agents self ∈ ["first"; "last"] ->
  no_ValueError (fst (get_flattened_obs _OBSERVATIONS _ACTION_MASK self)).
Proof.
  intros Hdim. unfold get_flattened_obs.
  destruct (observation_space self) as [sh|n|nvec|n|spaces]; try reflexivity.
  - cbn [fst]. apply no_ValueError_bind; [apply no_ValueError_data_on_device|].
    intros. now apply no_ValueError_reshape_and_flatten_obs.
  - pose proof (no_ValueError_collect_obs (map fst spaces) [] self Hdim) as Hc.
    destruct (collect_obs_frame _OBSERVATIONS _ACTION_MASK (map fst spaces) [] self)
      as [m Hm].
    destruct (collect_obs _ _ _ _ _) as [[obs_dict|e] self']; cbn [fst snd] in *;
      [|exact Hc].
    apply no_ValueError_bind; [|intros; apply no_ValueError_cat].
    apply no_ValueError_mapR. intros kv.
    apply no_ValueError_reshape_and_flatten_obs. now rewrite Hm.
Qed.

Lemma no_ValueError_feed_fc layers : forall ip op,
  no_ValueError (feed_fc layers ip op).
Proof.
  induction layers as [|l layers IH]; intros ip op; cbn [feed_fc].
  - now destruct op.
  - apply no_ValueError_bind; [apply no_ValueError_linear|]. intros; apply IH.
Qed.

Lemma no_ValueError_forward_heads self ip : no_ValueError (forward_heads self ip).
Proof.
  unfold forward_heads.
  apply no_ValueError_bind; [apply no_ValueError_feed_fc|]. intros op _.
  apply no_ValueError_bind.
  { apply no_ValueError_mapR. intros ph.
    apply no_ValueError_bind; [apply no_ValueError_linear|]. intros logits _.
    apply no_ValueError_bind; [apply no_ValueError_apply_logit_mask|]. intros; exact I. }
  intros probs _.
  apply no_ValueError_bind; [apply no_ValueError_linear|]. intros vals _.
  apply no_ValueError_bind; [apply no_ValueError_select_last0|]. intros; exact I.
Qed.

Lemma no_ValueError_forward self obs :
  obs_dim_corresponding_to_num_agents self ∈ ["first"; "last"] ->
  no_ValueError (fst (forward _OBSERVATIONS _ACTION_MASK self obs)).
Proof.
  intros Hdim. unfold forward, forward_input. destruct obs as [obs|].
  - cbn [fst]. apply no_ValueError_forward_heads.
  - pose proof (no_ValueError_get_flattened_obs self Hdim) as Hg.
    destruct (get_flattened_obs _ _ _) as [[obs|e] self']; cbn [fst] in *; [|exact Hg].
    destruct (negb _ && negb _).
    + pose proof (no_ValueError_dict_lookup (policy_tag_to_agent_id_map self')
                    (policy self')) as Hl.
      destruct (dict_lookup _ _) as [ids|e]; cbn [bind]; [|exact Hl].
      pose proof (no_ValueError_index_axis1 obs ids) as Hi.
      destruct (torch.index_axis1 obs ids) as [ip|e]; cbn [fst]; [|exact Hi].
      apply no_ValueError_forward_heads.
    + cbn [fst]. apply no_ValueError_forward_heads.
Qed.

End Reshape.

(** ** The constructor *)

Lemma Ok_inj {A} (a b : A) : Ok a = Ok b -> a = b.
Proof. now intros [= ->]. Qed.

Section Construction.

Variable _ACTION_MASK : string.

(** The layers of the trunk as the constructor creates them. *)
Lemma new_trunk_cons (p : nat -> nat -> R) inp d dims :
  map (fun k => nn.new_Linear (p k) (nth k (inp :: removelast (d :: dims)) 0)
                 (nth k (d :: dims) 0))
      (seq 0 (length (d :: dims)))
  = nn.new_Linear (p 0) inp d
    :: map (fun k => nn.new_Linear (p (S k)) (nth k (d :: removelast dims) 0) (nth k dims 0))
           (seq 0 (length dims)).
Proof.
  cbn [length seq map nth]. f_equal. rewrite <- seq_shift, map_map.
  apply map_ext_in. intros k Hk. apply in_seq in Hk.
  destruct dims as [|d' dims]; [cbn in Hk; lia|]. reflexivity.
Qed.

(** The layers of the trunk as the constructor creates them. *)
Lemma new_trunk_chain dims : forall (p : nat -> nat -> R) inp,
  layers_chain inp
    (map (fun k => nn.new_Linear (p k) (nth k (inp :: removelast dims) 0) (nth k dims 0))
         (seq 0 (length dims))) /\
  map nn.out_features
    (map (fun k => nn.new_Linear (p k) (nth k (inp :: removelast dims) 0) (nth k dims 0))
         (seq 0 (length dims))) = dims.
Proof.
  induction dims as [|d dims IH]; intros p inp; [now split|].
  rewrite new_trunk_cons.
  destruct (IH (fun k => p (S k)) d) as [IH1 IH2].
  split.
  - cbn [layers_chain]. split; [reflexivity|]. exact IH1.
  - cbn [map]. rewrite IH2. reflexivity.
Qed.

Lemma new_heads_dims (p : nat -> nat -> R) (n h : nat) (space : list nat) : forall b heads,
  mapR (fun '(idx, act_space) =>
          last_fc <- Ok h ;; Ok (nn.new_Linear (p (n + idx)) last_fc act_space))
       (imap (fun idx act_space => (b + idx, act_space)) space) = Ok heads ->
  map layer_dims heads = map (fun o => (h, o)) space.
Proof.
  induction space as [|o space IH]; intros b heads H; cbn in H.
  - now injection H as <-.
  - destruct (mapR _ _) as [hs|e] eqn:E; [|discriminate H].
    cbn in H. injection H as <-. cbn [map]. f_equal.
    apply (IH (S b)). rewrite <- E. f_equal. apply imap_ext. intros i x _. cbn. f_equal. lia.
Qed.

(** What a successful construction fixes. *)
Lemma init_ok a self :
  __init__ _ACTION_MASK a = Ok self ->
  obs_dim_corresponding_to_num_agents self ∈ ["first"; "last"] /\
  fast_forward_mode self = false /\
  action_mask self = None /\
  sample_observation_space a = Ok (observation_space self) /\
  exists action_space flattened_obs_size last_fc,
    match sample_action_space a with
    | Ok (Discrete n) => action_space = [n]
    | Ok (MultiDiscrete nvec) => action_space = nvec
    | _ => False
    end /\
    get_flattened_obs_size _ACTION_MASK self = Ok flattened_obs_size /\
    fc self <> [] /\
    layers_chain flattened_obs_size (fc self) /\
    List.last (map nn.out_features (fc self)) 0 = last_fc /\
    map layer_dims (policy_head self) = map (fun o => (last_fc, o)) action_space /\
    layer_dims (vf_head self) = (last_fc, 1).
Proof.
  unfold __init__, sample_action_space, sample_observation_space. intros H.
  destruct (bool_decide _) eqn:Hdim; cbn [negb] in H; [|discriminate H].
  apply bool_decide_eq_true in Hdim.
  inv_bind H. inv_bind H. inv_bind H. inv_bind H. inv_bind H. inv_bind H.
  inv_bind H. inv_bind H.
  set (FC := map _ (seq 0 _)) in H.
  apply Ok_inj in H. rewrite <- H. clear H.
  cbn [obs_dim_corresponding_to_num_agents fast_forward_mode
    action_mask observation_space fc policy_head vf_head bind].
  rewrite E0. cbn [bind]. rewrite E1, E3.
  repeat (split; [done|]).
  exists a5, a3, a7.
  destruct (new_trunk_chain (fc_dims (arg_model_config a)) (params a) a3) as [Hc Ho].
  fold FC in Hc, Ho.
  assert (Hne : fc_dims (arg_model_config a) <> []).
  { intros Hnil. rewrite Hnil in E6. discriminate E6. }
  repeat split.
  - destruct a4; try discriminate E4; now injection E4 as <-.
  - exact E2.
  - intros Hnil. apply Hne. rewrite <- Ho. now rewrite Hnil.
  - exact Hc.
  - rewrite Ho.
    destruct (rev (fc_dims (arg_model_config a))) as [|x r] eqn:Hr; [discriminate E6|].
    injection E6 as <-.
    apply (f_equal (@rev nat)) in Hr. rewrite rev_involutive in Hr. rewrite Hr.
    cbn [rev]. apply last_last.
  - eapply (new_heads_dims _ _ _ _ 0). exact E5.
Qed.

End Construction.

(** ** The life of an instance *)

Section Lifecycle.

Variables (_OBSERVATIONS _ACTION_MASK : string).

Lemma fast_forward_mode_set_action_mask m self :
  fast_forward_mode (set_action_mask m self) = fast_forward_mode self.
Proof. reflexivity. Qed.

Lemma after_keeps_fast_forward_mode ev self :
  fast_forward_mode self = true ->
  fast_forward_mode (after _OBSERVATIONS _ACTION_MASK ev self) = true.
Proof.
  intros Hff. destruct ev as [obs| | |store|upd]; cbn [after].
  - now destruct (forward_frame _OBSERVATIONS _ACTION_MASK self obs) as [m ->].
  - now destruct (get_flattened_obs_frame _OBSERVATIONS _ACTION_MASK self) as [m ->].
  - reflexivity.
  - exact Hff.
  - exact Hff.
Qed.

Lemma run_keeps_fast_forward_mode evs : forall self,
  fast_forward_mode self = true ->
  fast_forward_mode (run _OBSERVATIONS _ACTION_MASK evs self) = true.
Proof.
  induction evs as [|ev evs IH]; intros self Hff; cbn; [exact Hff|].
  apply IH. now apply after_keeps_fast_forward_mode.
Qed.

(** C9: after [set_fast_forward_mode] the flag is true and stays true
    whatever is called afterwards; a second call leaves the instance, and
    so every later [forward], as the first call left them. *)
Theorem C9_set_fast_forward_mode_idempotent :
  forall self,
    fast_forward_mode (snd (set_fast_forward_mode self)) = true /\
    (forall evs,
        fast_forward_mode
          (run _OBSERVATIONS _ACTION_MASK evs (snd (set_fast_forward_mode self))) = true) /\
    snd (set_fast_forward_mode (snd (set_fast_forward_mode self)))
      = snd (set_fast_forward_mode self) /\
    (forall obs,
        forward _OBSERVATIONS _ACTION_MASK
          (snd (set_fast_forward_mode (snd (set_fast_forward_mode self)))) obs
        = forward _OBSERVATIONS _ACTION_MASK (snd (set_fast_forward_mode self)) obs).
Proof.
  intros self. repeat split.
  intros evs. now apply run_keeps_fast_forward_mode.
Qed.

(** C10: an instance that the constructor returned has the agent
    dimension "first" or "last", and keeps it; no call of
    [reshape_and_flatten_obs] on it, directly or through
    [get_flattened_obs] and [forward], raises the [ValueError] of the
    configuration branch. *)
Theorem C10_ValueError_unreachable :
  forall a self0,
    __init__ _ACTION_MASK a = Ok self0 ->
    forall evs,
      let self := run _OBSERVATIONS _ACTION_MASK evs self0 in
      (obs_dim_corresponding_to_num_agents self = "first" \/
       obs_dim_corresponding_to_num_agents self = "last") /\
      (forall obs msg, reshape_and_flatten_obs self obs <> Raise (ValueError msg)) /\
      (forall msg,
          fst (get_flattened_obs _OBSERVATIONS _ACTION_MASK self) <> Raise (ValueError msg)) /\
      (forall obs msg,
          fst (forward _OBSERVATIONS _ACTION_MASK self obs) <> Raise (ValueError msg)).
Proof.
  intros a self0 Hinit evs self.
  destruct (init_ok _ACTION_MASK a self0 Hinit) as (Hdim & _).
  assert (Hdim' : obs_dim_corresponding_to_num_agents self ∈ ["first"; "last"]).
  { destruct (run_same_setup _OBSERVATIONS _ACTION_MASK evs self0) as (_ & _ & _ & E & _).
    subst self. now rewrite E. }
  repeat split.
  - apply elem_of_cons in Hdim' as [E|Hdim']; [now left|].
    apply list_elem_of_singleton in Hdim'. now right.
  - intros obs msg E.
    pose proof (no_ValueError_reshape_and_flatten_obs self obs Hdim') as H.
    rewrite E in H. discriminate H.
  - intros msg E.
    pose proof (no_ValueError_get_flattened_obs _OBSERVATIONS _ACTION_MASK self Hdim') as H.
    rewrite E in H. discriminate H.
  - intros obs msg E.
    pose proof (no_ValueError_forward _OBSERVATIONS _ACTION_MASK self obs Hdim') as H.
    rewrite E in H. discriminate H.
Qed.

(** C8: an observation space that is neither [Box] nor [Dict] makes
    [get_flattened_obs_size] and [get_flattened_obs] raise
    [NotImplementedError]; an action space that is neither [Discrete]
    nor [MultiDiscrete] makes the constructor raise it, once its
    assertion and its lookups have passed; and the callers in this
    module, the constructor and [forward], let the error through. *)
Theorem C8_unsupported_spaces_raise :
  (forall self,
      is_Box_or_Dict (observation_space self) = false ->
      get_flattened_obs_size _ACTION_MASK self
        = Raise (NotImplementedError "Observation space must be of Box or Dict type") /\
      get_flattened_obs _OBSERVATIONS _ACTION_MASK self
        = (Raise (NotImplementedError "Observation space must be of Box or Dict type"), self) /\
      forward _OBSERVATIONS _ACTION_MASK self None
        = (Raise (NotImplementedError "Observation space must be of Box or Dict type"), self)) /\
  (forall a osp asp,
      arg_obs_dim_corresponding_to_num_agents a ∈ ["first"; "last"] ->
      sample_observation_space a = Ok osp ->
      sample_action_space a = Ok asp ->
      (is_Box_or_Dict osp = false ->
       __init__ _ACTION_MASK a
         = Raise (NotImplementedError "Observation space must be of Box or Dict type")) /\
      (is_Discrete_or_MultiDiscrete asp = false ->
       exists msg, __init__ _ACTION_MASK a = Raise (NotImplementedError msg)) /\
      (is_Discrete_or_MultiDiscrete asp = false -> is_Box_or_Dict osp = true ->
       __init__ _ACTION_MASK a = Raise (NotImplementedError ""))).
Proof.
  split.
  - intros self Hsp. unfold forward, forward_input, get_flattened_obs, get_flattened_obs_size.
    destruct (observation_space self); try discriminate Hsp; now repeat split.
  - intros a osp asp Hdim Hosp Hasp.
    unfold sample_observation_space, sample_action_space in *.
    unfold __init__. rewrite bool_decide_eq_true_2 by exact Hdim. cbn [negb].
    destruct (dict_lookup (arg_policy_tag_to_agent_id_map a) (arg_policy a)) as [ids|e];
      [cbn [bind] in *|discriminate Hosp].
    destruct (list_head ids) as [sample|e]; [cbn [bind] in *|discriminate Hosp].
    rewrite Hosp. cbn [bind]. unfold get_flattened_obs_size. cbn [observation_space].
    repeat split.
    + intros Hsp. destruct osp; try discriminate Hsp; reflexivity.
    + intros Hact. rewrite Hasp.
      destruct osp; cbn [bind]; destruct asp; try discriminate Hact; eexists; reflexivity.
    + intros Hact Hsp. rewrite Hasp.
      destruct osp; try discriminate Hsp; cbn [bind];
        destruct asp; try discriminate Hact; reflexivity.
Qed.

End Lifecycle.

(** ** Reshaping and flattening observations *)

Section ReshapeFacts.

Import torch.

Lemma ravel_lt sh : forall idx, Forall2 lt idx sh -> ravel sh idx < numel sh.
Proof.
  induction sh as [|d sh IH]; intros idx H; inversion H; subst; cbn [ravel].
  - cbn. lia.
  - rewrite numel_cons. specialize (IH _ H4). nia.
Qed.

Lemma unravel_ravel sh : forall idx, Forall2 lt idx sh -> unravel sh (ravel sh idx) = idx.
Proof.
  induction sh as [|d sh IH]; intros idx H; inversion H; subst; cbn [ravel unravel].
  - reflexivity.
  - pose proof (ravel_lt sh _ H4) as Hlt.
    assert (Hn : numel sh <> 0) by lia.
    rewrite Nat.div_add_l by exact Hn.
    rewrite Nat.div_small by exact Hlt.
    rewrite (Nat.add_comm (_ * _) _), Nat.Div0.mod_add, Nat.mod_small by exact Hlt.
    rewrite IH by exact H4. f_equal. lia.
Qed.

(** The sizes asked for by [reshape(num_envs, num_agents, -1)]. *)
Lemma infer_size_envs_agents E N n :
  0 < E -> 0 < N -> n mod (E * N) = 0 ->
  infer_size [Z.of_nat E; Z.of_nat N; (-1)%Z] n = Ok [E; N; n / (E * N)].
Proof.
  intros HE HN Hmod. unfold infer_size.
  rewrite bool_decide_eq_false_2.
  2:{ intros H. repeat (apply Exists_cons in H as [H|H]; [lia|]). inversion H. }
  rewrite !filter_cons, !filter_nil.
  rewrite !(decide_False (P := (Z.of_nat _ = (-1)%Z))) by lia.
  rewrite !(decide_True (P := (Z.of_nat _ <> (-1)%Z))) by lia.
  rewrite (decide_True (P := ((-1)%Z = (-1)%Z))) by reflexivity.
  rewrite (decide_False (P := ((-1)%Z <> (-1)%Z))) by (intros H; now apply H).
  cbn [length map numel fold_right]. rewrite !Nat2Z.id, Nat.mul_1_r.
  change (1 <? 1) with false. cbv iota.
  assert (Hpos : 0 < E * N) by nia.
  rewrite Hmod. change (1 =? 1) with true.
  replace (0 <? E * N) with true by (symmetry; now apply Nat.ltb_lt).
  rewrite Nat.eqb_refl. rewrite orb_true_r. cbv iota.
  replace (E * N =? 0) with false by (symmetry; apply Nat.eqb_neq; lia).
  cbn [andb].
  rewrite !(decide_False (P := (Z.of_nat _ = (-1)%Z))) by lia.
  rewrite (decide_True (P := ((-1)%Z = (-1)%Z))) by reflexivity.
  reflexivity.
Qed.

Lemma nth_map_seq {A} (g : nat -> A) (n j : nat) (d : A) :
  j < n -> nth j (map g (seq 0 n)) d = g j.
Proof.
  intros Hj. rewrite (nth_indep _ d (g 0)) by now rewrite length_map, length_seq.
  rewrite map_nth. now rewrite seq_nth.
Qed.

Lemma numel_3 a b c : numel [a; b; c] = a * (b * c).
Proof. cbn. lia. Qed.

(** [t.permute(0, -1, 1)] of a tensor with three axes. *)
Lemma permute_0_2_1 t E F N :
  shape t = [E; F; N] ->
  exists out,
    permute t [0%Z; (-1)%Z; 1%Z] = Ok out /\
    shape out = [E; N; F] /\
    well_formed out /\
    forall e n f, e < E -> n < N -> f < F -> item out [e; n; f] = item t [e; f; n].
Proof.
  intros Hs. unfold permute. rewrite Hs.
  eexists. split; [reflexivity|]. split; [reflexivity|]. split.
  - unfold well_formed. cbn [shape data]. now rewrite length_map, length_seq.
  - intros e n f He Hn Hf. unfold item. cbn [shape data]. rewrite Hs.
    assert (Hv : Forall2 lt [e; n; f] [E; N; F]) by (repeat constructor; assumption).
    change (map (fun p => nth p [E; F; N] 0) [0; 2; 1]) with [E; N; F].
    rewrite nth_map_seq by (now apply ravel_lt).
    rewrite unravel_ravel by exact Hv. reflexivity.
Qed.

End ReshapeFacts.

Section ReshapeAndFlatten.

Import torch.

Lemma reshape_envs_agents t E N F :
  numel (shape t) = E * (N * F) -> 0 < E -> 0 < N ->
  reshape t [Z.of_nat E; Z.of_nat N; (-1)%Z] = Ok (mkTensor [E; N; F] (data t)).
Proof.
  intros Hn HE HN. unfold reshape. rewrite infer_size_envs_agents; try assumption.
  - cbn [bind]. rewrite Hn. repeat f_equal.
    rewrite Nat.mul_assoc, Nat.mul_comm. apply Nat.div_mul. nia.
  - rewrite Hn, Nat.mul_assoc, Nat.mul_comm. apply Nat.Div0.mod_mul.
Qed.

Lemma reshape_and_flatten_obs_first self t E N F :
  obs_dim_corresponding_to_num_agents self = "first" ->
  num_agents_of self = Ok N ->
  shape t = [E; N; F] -> 0 < E -> 0 < N ->
  reshape_and_flatten_obs self t = Ok t.
Proof.
  intros Hdim Hnum Hs HE HN. unfold reshape_and_flatten_obs.
  rewrite Hs, Hnum, Hdim. cbn [list_head bind].
  change (String.eqb "first" "first") with true. cbv iota. cbn [bind].
  rewrite (reshape_envs_agents t E N F); try assumption.
  - destruct t as [sh d]. cbn in Hs. now subst sh.
  - rewrite Hs. apply numel_3.
Qed.

Lemma reshape_and_flatten_obs_last self t E F N :
  obs_dim_corresponding_to_num_agents self = "last" ->
  num_agents_of self = Ok N ->
  shape t = [E; F; N] -> 0 < E -> 0 < N ->
  exists out,
    reshape_and_flatten_obs self t = Ok out /\
    shape out = [E; N; F] /\
    forall e n f, e < E -> n < N -> f < F -> item out [e; n; f] = item t [e; f; n].
Proof.
  intros Hdim Hnum Hs HE HN. unfold reshape_and_flatten_obs.
  rewrite Hs, Hnum, Hdim. cbn [list_head bind].
  change (String.eqb "last" "first") with false.
  change (String.eqb "last" "last") with true. cbv iota.
  cbn [length Nat.eqb Nat.sub seq map bind].
  destruct (permute_0_2_1 t E F N Hs) as (p & Hp & Hps & Hpwf & Hpi).
  change (Z.of_nat 1) with 1%Z. rewrite Hp. cbn [bind].
  rewrite (reshape_envs_agents p E N F); try assumption.
  - eexists. split; [reflexivity|]. split; [reflexivity|].
    intros e n f He Hn Hf. rewrite <- Hpi by assumption.
    unfold item. cbn [shape data]. now rewrite Hps.
  - rewrite Hps. apply numel_3.
Qed.

End ReshapeAndFlatten.

(** C4 (as the code has it): with the agent dimension "last", a tensor of
    shape [E, F, N] whose last size [N] is the number of agents of the
    instance, with [E >= 1] and [N >= 1], comes back with shape
    [E, N, F] and the entry [e, n, f] of the result is the entry
    [e, f, n] of the input; with the agent dimension "first", a tensor of
    shape [E, N, F], under the same conditions, comes back as it is. *)
Theorem C4_reshape_and_flatten_obs :
  (forall self t E F N,
      obs_dim_corresponding_to_num_agents self = "last" ->
      num_agents_of self = Ok N ->
      shape t = [E; F; N] -> 0 < E -> 0 < N ->
      exists out,
        reshape_and_flatten_obs self t = Ok out /\
        shape out = [E; N; F] /\
        forall e n f, e < E -> n < N -> f < F ->
                      torch.item out [e; n; f] = torch.item t [e; f; n]) /\
  (forall self t E N F,
      obs_dim_corresponding_to_num_agents self = "first" ->
      num_agents_of self = Ok N ->
      shape t = [E; N; F] -> 0 < E -> 0 < N ->
      reshape_and_flatten_obs self t = Ok t).
Proof.
  split.
  - intros. now apply reshape_and_flatten_obs_last.
  - intros. now apply (reshape_and_flatten_obs_first self t E N F).
Qed.

Lemma C4_reshape_and_flatten_obs_witness :
  (exists out,
      reshape_and_flatten_obs
        (Example.net_of (Example.env_of 2 (Box [3]) (Discrete 2) ∅) [0; 1] "last" (Box [3]) 3 None)
        (mkTensor [1; 3; 2] [1; 2; 3; 4; 5; 6]%R) = Ok out /\
      shape out = [1; 2; 3] /\
      torch.item out [0; 1; 2] = 6%R) /\
  reshape_and_flatten_obs
    (Example.net_of (Example.env_of 2 (Box [3]) (Discrete 2) ∅) [0; 1] "first" (Box [3]) 3 None)
    (mkTensor [1; 2; 3] [1; 2; 3; 4; 5; 6]%R)
  = Ok (mkTensor [1; 2; 3] [1; 2; 3; 4; 5; 6]%R).
Proof.
  destruct C4_reshape_and_flatten_obs as [Hlast Hfirst]. split.
  - destruct (Hlast
        (Example.net_of (Example.env_of 2 (Box [3]) (Discrete 2) ∅) [0; 1] "last" (Box [3]) 3 None)
        (mkTensor [1; 3; 2] [1; 2; 3; 4; 5; 6]%R) 1 3 2)
      as (out & Hout & Hshape & Hitem); [reflexivity | reflexivity | reflexivity | lia | lia |].
    exists out. split; [exact Hout|]. split; [exact Hshape|].
    rewrite Hitem by lia. reflexivity.
  - apply (Hfirst _ _ 1 2 3); [reflexivity | reflexivity | reflexivity | lia | lia].
Defined.

(** The number of agents of the instance, not the last size of the
    tensor, is what the result is shaped by; and a batch of no
    environment, or for no agent, is refused. *)
Lemma C4_counterexample :
  (exists out,
      reshape_and_flatten_obs
        (Example.net_of (Example.env_of 1 (Box [3]) (Discrete 2) ∅) [0] "last" (Box [3]) 3 None)
        (mkTensor [2; 3; 4] (repeat 0%R 24)) = Ok out /\
      shape out = [2; 1; 12]) /\
  reshape_and_flatten_obs
    (Example.net_of (Example.env_of 2 (Box [3]) (Discrete 2) ∅) [0; 1] "last" (Box [3]) 3 None)
    (mkTensor [0; 3; 2] []) = Raise RuntimeError /\
  reshape_and_flatten_obs
    (Example.net_of (Example.env_of 2 (Box [3]) (Discrete 2) ∅) [0; 1] "first" (Box [3]) 3 None)
    (mkTensor [0; 2; 3] []) = Raise RuntimeError /\
  reshape_and_flatten_obs
    (Example.net_of (Example.env_of 0 (Box [3]) (Discrete 2) ∅) [] "last" (Box [3]) 3 None)
    (mkTensor [1; 3; 0] []) = Raise RuntimeError.
Proof.
  split; [|repeat split; reflexivity].
  eexists. split; reflexivity.
Qed.

(** ** The theorems above at concrete instances *)

Lemma C5_get_flattened_obs_size_witness :
  get_flattened_obs_size Example.ACTION_MASK
    (Example.net_of (Example.env_of 2 (Box [2; 3]) (Discrete 2) ∅) [0; 1] "first"
       (Box [2; 3]) 6 None) = Ok 6 /\
  get_flattened_obs_size Example.ACTION_MASK
    (Example.net_of (Example.env_of 2 (Box [2; 3]) (Discrete 2) ∅) [0; 1] "first"
       (Dict [("A", [3]); ("action_mask", [2]); ("B", [4])]) 7 None) = Ok 7.
Proof.
  destruct (C5_get_flattened_obs_size Example.ACTION_MASK) as (HBox & HDict & _). split.
  - apply (HBox _ [2; 3]). reflexivity.
  - apply (HDict _ [("A", [3]); ("action_mask", [2]); ("B", [4])]). reflexivity.
Defined.

Lemma C8_unsupported_spaces_raise_witness :
  get_flattened_obs Example.OBSERVATIONS Example.ACTION_MASK
    (Example.net_of (Example.env_of 2 (Discrete 3) (Discrete 2) ∅) [0; 1] "first"
       (Discrete 3) 1 None)
  = (Raise (NotImplementedError "Observation space must be of Box or Dict type"),
     Example.net_of (Example.env_of 2 (Discrete 3) (Discrete 2) ∅) [0; 1] "first"
       (Discrete 3) 1 None) /\
  __init__ Example.ACTION_MASK
    (Example.args_of (Example.env_of 2 (Box [1]) (MultiBinary 2) ∅) [0; 1] "first")
  = Raise (NotImplementedError "").
Proof.
  destruct (C8_unsupported_spaces_raise Example.OBSERVATIONS Example.ACTION_MASK)
    as [Hobs Hinit].
  split.
  - destruct (Hobs (Example.net_of (Example.env_of 2 (Discrete 3) (Discrete 2) ∅) [0; 1]
                      "first" (Discrete 3) 1 None) eq_refl) as (_ & H & _).
    exact H.
  - destruct (Hinit
                (Example.args_of (Example.env_of 2 (Box [1]) (MultiBinary 2) ∅) [0; 1] "first")
                (Box [1]) (MultiBinary 2)) as (_ & _ & H);
      [constructor | reflexivity | reflexivity |].
    exact (H eq_refl eq_refl).
Defined.

Lemma C10_ValueError_unreachable_witness :
  exists self0,
    __init__ Example.ACTION_MASK
      (Example.args_of (Example.env_of 2 (Box [1]) (Discrete 2) ∅) [0; 1] "last") = Ok self0 /\
    forall obs msg,
      reshape_and_flatten_obs
        (run Example.OBSERVATIONS Example.ACTION_MASK
           [call_forward None; call_set_fast_forward_mode] self0) obs
      <> Raise (ValueError msg).
Proof.
  eexists. split; [reflexivity|].
  apply (C10_ValueError_unreachable Example.OBSERVATIONS Example.ACTION_MASK
           (Example.args_of (Example.env_of 2 (Box [1]) (Discrete 2) ∅) [0; 1] "last")).
  reflexivity.
Defined.

Lemma C1_zero_mask_softmax_witness :
  exists masked,
    apply_logit_mask (mkTensor [1; 2] [3; 5]%R) (Some (mkTensor [1; 2] [0; 0]%R)) = Ok masked /\
    masked = mkTensor [1; 2] [3 + -10000000; 5 + -10000000]%R /\
    sum_R (torch.row (F.softmax masked) 0) = 1%R /\
    Exists (fun p => (/ 4 < p)%R) (torch.row (F.softmax masked) 0).
Proof.
  destruct (C1_zero_mask_softmax (mkTensor [1; 2] [3; 5]%R) (mkTensor [1; 2] [0; 0]%R))
    as (masked & Hm & Hs & Hrows);
    [reflexivity | reflexivity | reflexivity | repeat constructor |].
  destruct (Hrows 0) as [Hsum Hbig]; [cbn; lia | cbn; lia |].
  exists masked. repeat split; [exact Hm | exact Hs | exact Hsum |].
  apply Hbig. cbn. lra.
Defined.

(** An all-zero mask over two equal logits leaves each of them the
    probability 1/2, and a single logit the probability 1. *)
Lemma C1_counterexample :
  (exists masked,
      apply_logit_mask (mkTensor [1; 2] [0; 0]%R) (Some (mkTensor [1; 2] [0; 0]%R)) = Ok masked /\
      F.softmax masked = mkTensor [1; 2] [1 / 2; 1 / 2]%R) /\
  (exists masked,
      apply_logit_mask (mkTensor [1; 1] [0]%R) (Some (mkTensor [1; 1] [0]%R)) = Ok masked /\
      F.softmax masked = mkTensor [1; 1] [1]%R).
Proof.
  split.
  - eexists. split; [apply apply_logit_mask_same_shape; reflexivity|].
    unfold F.softmax, torch.num_rows, torch.row.
    cbn -[exp Rdiv Rplus Rmult Rminus IZR].
    pose proof (exp_pos (0 + -10000000 * (1 - 0))) as Hpos.
    set (e := exp (0 + -10000000 * (1 - 0))) in *.
    replace (e / (e + (e + 0)))%R with (1 / 2)%R by (field; lra). reflexivity.
  - eexists. split; [apply apply_logit_mask_same_shape; reflexivity|].
    unfold F.softmax, torch.num_rows, torch.row.
    cbn -[exp Rdiv Rplus Rmult Rminus IZR].
    pose proof (exp_pos (0 + -10000000 * (1 - 0))) as Hpos.
    set (e := exp (0 + -10000000 * (1 - 0))) in *.
    replace (e / (e + 0))%R with 1%R by (field; lra). reflexivity.
Qed.

(** ** The input of the trunk *)

Section Selection.

Import torch.

(** The chunk of the [k]-th element in a concatenation of chunks of one
    length. *)
Lemma chunk_flat_map_list {A B} (g : B -> list A) (L : nat) (l : list B) :
  (forall y, y ∈ l -> length (g y) = L) ->
  forall k x, l !! k = Some x ->
  firstn L (skipn (k * L) (flat_map g l)) = g x.
Proof.
  induction l as [|y l IH]; intros Hl k x Hk; [discriminate Hk|].
  cbn [flat_map].
  assert (E : length (g y) = L) by (apply Hl; left).
  destruct k as [|k].
  - cbn in Hk. injection Hk as <-. cbn [Nat.mul skipn].
    apply take_app_length'. now symmetry.
  - cbn in Hk. replace (S k * L) with (L + k * L) by lia.
    rewrite drop_app_add' by (now symmetry).
    apply IH; [|exact Hk]. intros z Hz. apply Hl. now right.
Qed.

Lemma length_flat_map_const {A B} (g : B -> list A) (L : nat) (l : list B) :
  (forall y, y ∈ l -> length (g y) = L) -> length (flat_map g l) = length l * L.
Proof.
  induction l as [|y l IH]; intros Hl; [reflexivity|].
  cbn [flat_map length]. rewrite length_app.
  rewrite (Hl y) by (now left).
  rewrite IH by (intros z Hz; apply Hl; now right). lia.
Qed.

(** [t[:, ids]] of a tensor with three axes: the rows of the listed
    agents, in the order of the list, for every environment. *)
Lemma index_axis1_rows t E N F ids :
  shape t = [E; N; F] -> well_formed t -> Forall (fun i => i < N) ids ->
  exists out,
    index_axis1 t ids = Ok out /\
    shape out = [E; length ids; F] /\
    well_formed out /\
    forall e k i, e < E -> ids !! k = Some i ->
                  row out (e * length ids + k) = row t (e * N + i).
Proof.
  intros Hs Hwf Hids. unfold index_axis1. rewrite Hs.
  replace (forallb (fun i => i <? N) ids) with true.
  2:{ symmetry. apply forallb_forall. intros i Hi.
      apply Nat.ltb_lt. rewrite Forall_forall in Hids. apply Hids.
      now apply list_elem_of_In. }
  assert (HF : numel [F] = F) by (cbn; lia). rewrite HF.
  unfold well_formed in Hwf. rewrite Hs, numel_3 in Hwf.
  assert (Hchunk : forall b i, b < E -> i ∈ ids ->
            length (firstn F (skipn ((b * N + i) * F) (data t))) = F).
  { intros b i Hb Hi. rewrite Forall_forall in Hids.
    specialize (Hids i Hi). rewrite length_take, length_drop, Hwf.
    assert (H1 : b * N + i + 1 <= E * N) by nia.
    assert (H2 : (b * N + i + 1) * F <= E * N * F) by (apply Nat.mul_le_mono_r; exact H1).
    lia. }
  assert (Hblock : forall b, b < E ->
            length (flat_map (fun i => firstn F (skipn ((b * N + i) * F) (data t))) ids)
            = length ids * F).
  { intros b Hb. apply length_flat_map_const. intros i Hi. now apply Hchunk. }
  eexists. split; [reflexivity|]. split; [reflexivity|]. split.
  - unfold well_formed. cbn [shape data]. rewrite numel_3.
    rewrite (length_flat_map_const _ (length ids * F)).
    + now rewrite length_seq.
    + intros b Hb. apply Hblock. apply list_elem_of_In, in_seq in Hb. lia.
  - intros e k i He Hk. unfold row. cbn [shape data]. rewrite Hs.
    change (last_dim [E; length ids; F]) with F. change (last_dim [E; N; F]) with F.
    assert (Hklt : k < length ids) by (apply lookup_lt_is_Some; eauto).
    replace ((e * length ids + k) * F) with (e * (length ids * F) + k * F) by lia.
    rewrite <- drop_drop.
    rewrite take_drop_commute.
    replace (k * F + F) with (Nat.min (k * F + F) (length ids * F)) by nia.
    rewrite <- take_take.
    rewrite (chunk_flat_map
               (fun b => flat_map (fun i => firstn F (skipn ((b * N + i) * F) (data t))) ids)
               (length ids * F) E e) by (assumption || exact He).
    rewrite <- take_drop_commute.
    apply (chunk_flat_map_list (fun i => firstn F (skipn ((e * N + i) * F) (data t))) F ids);
      [|exact Hk].
    intros y Hy. now apply Hchunk.
Qed.

End Selection.

Section TrunkInput.

Variables (_OBSERVATIONS _ACTION_MASK : string).

(** C6 (as the code has it): [forward] called with an [obs] tensor feeds
    the trunk that tensor, in every mode.  Called without one, it
    assembles the batch [t] with [get_flattened_obs]; with fast-forward
    on or separate placeholders it feeds [t]; with shared placeholders
    and fast-forward off it feeds [t[:, ids]] for the agent list [ids]
    of its policy, that is, of every environment the rows of the
    agents in [ids], in the order of [ids]. *)
Theorem C6_forward_input :
  forall self,
    (forall obs,
        forward_input _OBSERVATIONS _ACTION_MASK self (Some obs) = (Ok obs, self)) /\
    (forall t self',
        get_flattened_obs _OBSERVATIONS _ACTION_MASK self = (Ok t, self') ->
        (fast_forward_mode self = true \/
         create_separate_placeholders_for_each_policy self = true ->
         forward_input _OBSERVATIONS _ACTION_MASK self None = (Ok t, self')) /\
        (fast_forward_mode self = false ->
         create_separate_placeholders_for_each_policy self = false ->
         forward_input _OBSERVATIONS _ACTION_MASK self None
           = (ids <- dict_lookup (policy_tag_to_agent_id_map self) (policy self) ;;
              torch.index_axis1 t ids, self') /\
         forall ids E N F,
           policy_tag_to_agent_id_map self !! policy self = Some ids ->
           shape t = [E; N; F] -> torch.well_formed t -> Forall (fun i => i < N) ids ->
           exists ip,
             forward_input _OBSERVATIONS _ACTION_MASK self None = (Ok ip, self') /\
             shape ip = [E; length ids; F] /\
             forall e k i, e < E -> ids !! k = Some i ->
                           torch.row ip (e * length ids + k) = torch.row t (e * N + i))).
Proof.
  intros self. split; [reflexivity|].
  intros t self' Hg.
  destruct (get_flattened_obs_frame _OBSERVATIONS _ACTION_MASK self) as [m Hm].
  rewrite Hg in Hm. cbn [snd] in Hm. subst self'.
  unfold forward_input. rewrite Hg.
  cbn [fast_forward_mode create_separate_placeholders_for_each_policy set_action_mask
       policy_tag_to_agent_id_map policy].
  split.
  - intros [-> | ->]; [reflexivity|]. now rewrite andb_false_r.
  - intros -> ->. cbn [negb andb]. split; [reflexivity|].
    intros ids E N F Hids Hs Hwf Hlt.
    destruct (index_axis1_rows t E N F ids Hs Hwf Hlt) as (ip & Hip & Hshape & _ & Hrows).
    exists ip. unfold dict_lookup. rewrite Hids. cbn [bind]. rewrite Hip.
    repeat split; assumption.
Qed.

End TrunkInput.

Lemma C6_forward_input_witness :
  exists ip self',
    forward_input Example.OBSERVATIONS Example.ACTION_MASK
      (Example.net_of
         (Example.env_of 2 (Box [1]) (Discrete 2)
            {[ "observations" := mkTensor [1; 2; 1] [7; 9]%R ]})
         [1] "first" (Box [1]) 1 None) None = (Ok ip, self') /\
    shape ip = [1; 1; 1] /\
    torch.row ip 0 = [9%R].
Proof.
  destruct (C6_forward_input Example.OBSERVATIONS Example.ACTION_MASK
              (Example.net_of
                 (Example.env_of 2 (Box [1]) (Discrete 2)
                    {[ "observations" := mkTensor [1; 2; 1] [7; 9]%R ]})
                 [1] "first" (Box [1]) 1 None)) as [_ H].
  destruct (H (mkTensor [1; 2; 1] [7; 9]%R) _ eq_refl) as [_ H'].
  destruct (H' eq_refl eq_refl) as [_ H''].
  destruct (H'' [1] 1 2 1) as (ip & Hip & Hshape & Hrows);
    [reflexivity | reflexivity | reflexivity | repeat constructor |].
  exists ip. eexists. split; [exact Hip|]. split; [exact Hshape|].
  apply (Hrows 0 0 1); [lia | reflexivity].
Defined.

(** With shared placeholders and fast-forward off, an [obs] tensor passed
    to [forward] enters the trunk whole: both agents' rows, although the
    policy governs agent 1 only. *)
Lemma C6_counterexample :
  fast_forward_mode
    (Example.net_of (Example.env_of 2 (Box [1]) (Discrete 2) ∅) [1] "first" (Box [1]) 1 None)
  = false /\
  create_separate_placeholders_for_each_policy
    (Example.net_of (Example.env_of 2 (Box [1]) (Discrete 2) ∅) [1] "first" (Box [1]) 1 None)
  = false /\
  fst (forward_input Example.OBSERVATIONS Example.ACTION_MASK
         (Example.net_of (Example.env_of 2 (Box [1]) (Discrete 2) ∅) [1] "first" (Box [1]) 1 None)
         (Some (mkTensor [1; 2; 1] [7; 9]%R)))
  = Ok (mkTensor [1; 2; 1] [7; 9]%R) /\
  torch.index_axis1 (mkTensor [1; 2; 1] [7; 9]%R) [1] = Ok (mkTensor [1; 1; 1] [9]%R).
Proof. repeat split. Qed.

(** ** The action mask *)

Section ActionMask.

Variables (_OBSERVATIONS _ACTION_MASK : string).



Lemma collect_obs_no_mask keys : forall acc self,
  _ACTION_MASK ∉ keys ->
  snd (collect_obs _OBSERVATIONS _ACTION_MASK keys acc self) = self.
Proof.
  induction keys as [|key keys IH]; intros acc self Hnot; cbn [collect_obs]; [reflexivity|].
  destruct (data_on_device_via_torch _ _) as [obs|e]; [|reflexivity].
  destruct (String.eqb_spec key _ACTION_MASK) as [E|E].
  - exfalso. apply Hnot. subst key. left.
  - apply IH. intros Hin. apply Hnot. now right.
Qed.



End ActionMask.





(** ** The shapes along the forward pass *)

Section Shapes.

Import torch.

Lemma lead_snoc sh d : lead (sh ++ [d]) = sh.
Proof. unfold lead. apply removelast_last. Qed.

Lemma last_dim_snoc sh d : last_dim (sh ++ [d]) = d.
Proof. unfold last_dim. apply last_last. Qed.

Lemma snoc_not_nil (sh : list nat) d : sh ++ [d] <> [].
Proof. now destruct sh. Qed.

Lemma linear_shape l x y :
  F.linear l x = Ok y ->
  shape x <> [] /\ last_dim (shape x) = nn.in_features l /\
  shape y = lead (shape x) ++ [nn.out_features l] /\ well_formed y.
Proof.
  unfold F.linear. intros H.
  destruct (shape x) as [|d sh] eqn:Hs; [discriminate H|].
  destruct (last_dim (d :: sh) =? nn.in_features l) eqn:Hl; cbn [negb] in H;
    [|discriminate H].
  apply Nat.eqb_eq in Hl. apply Ok_inj in H. subst y. cbn [shape data].
  repeat split; try done.
  unfold well_formed. cbn [shape data].
  rewrite numel_app.
  rewrite (length_flat_map_const _ (nn.out_features l)).
  - rewrite length_seq. unfold num_rows. rewrite Hs. cbn. lia.
  - intros r _. now rewrite length_map, length_seq.
Qed.

Lemma linear_ok l x :
  shape x <> [] -> last_dim (shape x) = nn.in_features l ->
  exists y, F.linear l x = Ok y.
Proof.
  intros Hne Hl. unfold F.linear.
  destruct (shape x) as [|d sh] eqn:Hs; [congruence|].
  rewrite Hl, Nat.eqb_refl. cbn [negb]. eauto.
Qed.

(** The trunk keeps the leading axes and ends with the width of its last
    layer. *)
Lemma feed_fc_shape layers : forall ip o op,
  feed_fc layers ip o = Ok op -> layers <> [] ->
  lead (shape op) = lead (shape ip) /\ shape op <> [] /\
  last_dim (shape op) = List.last (map nn.out_features layers) 0.
Proof.
  induction layers as [|l layers IH]; intros ip o op H Hne; [congruence|].
  cbn [feed_fc] in H.
  destruct (F.linear l ip) as [y|e] eqn:Hy; [cbn [bind] in H|discriminate H].
  destruct (linear_shape l ip y Hy) as (Hx & _ & Hys & _).
  destruct layers as [|l' layers].
  - cbn in H. apply Ok_inj in H. subst op. cbn [F.relu shape map List.last].
    rewrite Hys, lead_snoc, last_dim_snoc. repeat split. apply snoc_not_nil.
  - destruct (IH _ _ _ H) as (H1 & H2 & H3); [congruence|].
    cbn [F.relu shape] in H1. rewrite Hys, lead_snoc in H1.
    repeat split; try assumption.
Qed.

Lemma feed_fc_ok layers : forall inp ip o,
  layers_chain inp layers -> layers <> [] ->
  shape ip <> [] -> last_dim (shape ip) = inp ->
  exists op, feed_fc layers ip o = Ok op.
Proof.
  induction layers as [|l layers IH]; intros inp ip o Hc Hne Hs Hl; [congruence|].
  cbn [layers_chain] in Hc. destruct Hc as [Hin Hc].
  cbn [feed_fc].
  destruct (linear_ok l ip Hs) as [y Hy]; [congruence|].
  rewrite Hy. cbn [bind].
  destruct (linear_shape l ip y Hy) as (_ & _ & Hys & _).
  destruct layers as [|l' layers]; [cbn; eauto|].
  apply (IH (nn.out_features l)); try assumption; try congruence.
  - cbn [F.relu shape]. rewrite Hys. apply snoc_not_nil.
  - cbn [F.relu shape]. rewrite Hys. apply last_dim_snoc.
Qed.

Lemma layers_chain_dims l1 : forall l2 inp,
  map layer_dims l1 = map layer_dims l2 -> layers_chain inp l1 -> layers_chain inp l2.
Proof.
  induction l1 as [|a l1 IH]; intros [|b l2] inp Hm Hc; try discriminate Hm; [exact I|].
  cbn [map] in Hm. unfold layer_dims in Hm at 1 3. injection Hm as Hi Ho Hm.
  cbn [layers_chain] in *. destruct Hc as [Hin Hc]. split; [congruence|].
  rewrite <- Ho. now apply IH.
Qed.

Lemma map_out_features_dims (l1 l2 : list nn.Linear) :
  map layer_dims l1 = map layer_dims l2 -> map nn.out_features l1 = map nn.out_features l2.
Proof.
  intros H. apply (f_equal (map snd)) in H. now rewrite !map_map in H.
Qed.

(** Broadcasting keeps the last size of its first argument when that is
    not 1. *)
Lemma broadcast_rev_head x a b s :
  x <> 1 -> broadcast_rev (x :: a) b = Some s -> exists s', s = x :: s'.
Proof.
  intros Hx H. destruct b as [|y b]; cbn in H.
  - injection H as <-. eauto.
  - destruct (x =? y) eqn:Hxy.
    + destruct (broadcast_rev a b); [|discriminate H]. injection H as <-. eauto.
    + destruct (x =? 1) eqn:Hx1; [apply Nat.eqb_eq in Hx1; congruence|].
      destruct (y =? 1); [|discriminate H].
      destruct (broadcast_rev a b); [|discriminate H]. injection H as <-. eauto.
Qed.

Lemma last_dim_rev_cons x l : last_dim (rev (x :: l)) = x.
Proof. cbn [rev]. apply last_dim_snoc. Qed.

Lemma broadcast_shapes_last a b s :
  broadcast_shapes a b = Ok s -> a <> [] -> last_dim a <> 1 ->
  s <> [] /\ last_dim s = last_dim a.
Proof.
  unfold broadcast_shapes. intros H Hne Hl.
  destruct (broadcast_rev (rev a) (rev b)) as [r|] eqn:Hr; [|discriminate H].
  apply Ok_inj in H. subst s.
  destruct (rev a) as [|x ra] eqn:Hra.
  { apply (f_equal (@rev nat)) in Hra. rewrite rev_involutive in Hra. now subst a. }
  assert (Ha : a = rev (x :: ra)) by (rewrite <- Hra; now rewrite rev_involutive).
  rewrite Ha, last_dim_rev_cons in Hl |- *.
  destruct (broadcast_rev_head x ra (rev b) r Hl Hr) as [s' ->].
  split; [cbn [rev]; apply snoc_not_nil | apply last_dim_rev_cons].
Qed.

Lemma length_expand t sh : length (expand t sh) = numel sh.
Proof. unfold expand. now rewrite length_map, length_seq. Qed.

Lemma binop_shape f a b c :
  binop f a b = Ok c -> broadcast_shapes (shape a) (shape b) = Ok (shape c) /\ well_formed c.
Proof.
  unfold binop. intros H.
  destruct (broadcast_shapes (shape a) (shape b)) as [sh|e]; [|discriminate H].
  cbn [bind] in H. apply Ok_inj in H. subst c. split; [reflexivity|].
  unfold well_formed. cbn [shape data].
  rewrite length_zip_with, !length_expand. lia.
Qed.

(** The masked logits keep the last size of the logits when it is not 1,
    and they are a well-formed tensor. *)
Lemma apply_logit_mask_shape logits mask masked :
  apply_logit_mask logits mask = Ok masked ->
  well_formed logits -> shape logits <> [] -> last_dim (shape logits) <> 1 ->
  well_formed masked /\ last_dim (shape masked) = last_dim (shape logits).
Proof.
  unfold apply_logit_mask. intros H Hwf Hne Hl.
  destruct mask as [mask|]; [|apply Ok_inj in H; now subst masked].
  destruct (mul _ _) as [lm|e] eqn:Hmul; [cbn [bind] in H|discriminate H].
  destruct (binop_shape _ _ _ _ Hmul) as [Hb1 _].
  destruct (binop_shape _ _ _ _ H) as [Hb2 Hwf2].
  cbn [shape mul_scalar ones_like] in Hb1.
  destruct (broadcast_shapes_last _ _ _ Hb1 Hne Hl) as [Hne1 Hl1].
  destruct (broadcast_shapes_last _ _ _ Hb2 Hne Hl) as [_ Hl2].
  split; assumption.
Qed.

Lemma select_last0_shape t :
  shape t <> [] -> last_dim (shape t) <> 0 ->
  exists v, select_last0 t = Ok v /\ shape v = lead (shape t).
Proof.
  intros Hne Hl. unfold select_last0.
  destruct (shape t) as [|d sh] eqn:Hs; [congruence|].
  destruct (last_dim (d :: sh) =? 0) eqn:E; [apply Nat.eqb_eq in E; congruence|].
  eexists. split; reflexivity.
Qed.

End Shapes.

Section ForwardOutput.

Import torch.

Variables (_OBSERVATIONS _ACTION_MASK : string).

(** One policy head: logits, mask, softmax. *)
Lemma head_output ph op mask probs_k h o :
  layer_dims ph = (h, o) -> o <> 1 -> 0 < o ->
  (logits <- F.linear ph op ;;
   masked <- apply_logit_mask logits mask ;;
   Ok (F.softmax masked)) = Ok probs_k ->
  last_dim (shape probs_k) = o /\
  (mask = None -> shape probs_k = lead (shape op) ++ [o]) /\
  forall r, r < num_rows probs_k -> sum_R (row probs_k r) = 1%R.
Proof.
  intros Hd Ho1 Ho H. unfold layer_dims in Hd. injection Hd as Hi Hout.
  destruct (F.linear ph op) as [logits|e] eqn:Hlin; [cbn [bind] in H|discriminate H].
  destruct (apply_logit_mask logits mask) as [masked|e] eqn:Hm;
    [cbn [bind] in H|discriminate H].
  apply Ok_inj in H. subst probs_k.
  destruct (linear_shape _ _ _ Hlin) as (_ & _ & Hs & Hwf).
  rewrite Hout in Hs.
  assert (Hl : last_dim (shape logits) = o) by (rewrite Hs; apply last_dim_snoc).
  destruct (apply_logit_mask_shape _ _ _ Hm Hwf) as [Hwfm Hlm].
  { rewrite Hs. apply snoc_not_nil. }
  { now rewrite Hl. }
  cbn [F.softmax shape]. repeat split.
  - congruence.
  - intros ->. cbn in Hm. apply Ok_inj in Hm. now subst masked.
  - intros r Hr. apply softmax_rows_sum_to_one; [exact Hwfm|exact Hr|].
    rewrite Hlm, Hl. exact Ho.
Qed.

Lemma head_output_ok ph op h o :
  layer_dims ph = (h, o) -> shape op <> [] -> last_dim (shape op) = h ->
  exists probs_k,
    (logits <- F.linear ph op ;;
     masked <- apply_logit_mask logits None ;;
     Ok (F.softmax masked)) = Ok probs_k.
Proof.
  intros Hd Hne Hl. unfold layer_dims in Hd. injection Hd as Hi Hout.
  destruct (linear_ok ph op Hne) as [logits Hlin]; [congruence|].
  rewrite Hlin. cbn. eauto.
Qed.

(** What [forward] returns for two heads of 4 and 3 actions, when it
    returns. *)
Lemma forward_heads_shapes self ip h probs vals :
  map layer_dims (policy_head self) = [(h, 4); (h, 3)] ->
  layer_dims (vf_head self) = (h, 1) ->
  forward_heads self ip = Ok (probs, vals) ->
  exists p4 p3,
    probs = [p4; p3] /\
    last_dim (shape p4) = 4 /\ last_dim (shape p3) = 3 /\
    (action_mask self = None ->
     shape p4 = lead (shape ip) ++ [4] /\ shape p3 = lead (shape ip) ++ [3]) /\
    (forall r, r < num_rows p4 -> sum_R (row p4 r) = 1%R) /\
    (forall r, r < num_rows p3 -> sum_R (row p3 r) = 1%R) /\
    shape vals = lead (shape ip).
Proof.
  intros Hheads Hvf H. unfold forward_heads in H.
  destruct (feed_fc (fc self) ip None) as [op|e] eqn:Hop; [cbn [bind] in H|discriminate H].
  assert (Hfc : fc self <> []).
  { intros Hnil. rewrite Hnil in Hop. discriminate Hop. }
  destruct (feed_fc_shape _ _ _ _ Hop Hfc) as (Hlead & Hne & _).
  destruct (policy_head self) as [|ph4 [|ph3 [|ph heads]]]; try discriminate Hheads.
  pose proof (f_equal (fun l => nth 0 l (0, 0)) Hheads) as Hd4.
  pose proof (f_equal (fun l => nth 1 l (0, 0)) Hheads) as Hd3.
  cbn [map nth] in Hd4, Hd3. clear Hheads.
  cbn [mapR] in H.
  destruct (bind (F.linear ph4 op) _) as [p4|e] eqn:H4; [cbn [bind] in H|discriminate H].
  destruct (bind (F.linear ph3 op) _) as [p3|e] eqn:H3; [cbn [bind] in H|discriminate H].
  destruct (F.linear (vf_head self) op) as [v|e] eqn:Hv; [cbn [bind] in H|discriminate H].
  destruct (linear_shape _ _ _ Hv) as (_ & _ & Hvs & _).
  unfold layer_dims in Hvf. injection Hvf as _ Hvo. rewrite Hvo in Hvs.
  destruct (select_last0_shape v) as (v0 & Hv0 & Hv0s).
  { rewrite Hvs. apply snoc_not_nil. }
  { rewrite Hvs, last_dim_snoc. lia. }
  rewrite Hv0 in H. cbn [bind] in H. apply Ok_inj in H. injection H as <- <-.
  destruct (head_output _ _ _ _ _ _ Hd4 ltac:(lia) ltac:(lia) H4) as (H4l & H4s & H4r).
  destruct (head_output _ _ _ _ _ _ Hd3 ltac:(lia) ltac:(lia) H3) as (H3l & H3s & H3r).
  exists p4, p3. repeat split; try assumption.
  - rewrite <- Hlead. now apply H4s.
  - rewrite <- Hlead. now apply H3s.
  - rewrite Hv0s, Hvs, lead_snoc. exact Hlead.
Qed.

Lemma forward_heads_ok self ip inp h :
  layers_chain inp (fc self) -> fc self <> [] ->
  List.last (map nn.out_features (fc self)) 0 = h ->
  map layer_dims (policy_head self) = [(h, 4); (h, 3)] ->
  layer_dims (vf_head self) = (h, 1) ->
  action_mask self = None ->
  shape ip <> [] -> last_dim (shape ip) = inp ->
  exists probs vals, forward_heads self ip = Ok (probs, vals).
Proof.
  intros Hc Hfc Hlast Hheads Hvf Hmask Hne Hl. unfold forward_heads.
  destruct (feed_fc_ok _ _ _ None Hc Hfc Hne Hl) as [op Hop]. rewrite Hop. cbn [bind].
  destruct (feed_fc_shape _ _ _ _ Hop Hfc) as (_ & Hone & Hol). rewrite Hlast in Hol.
  destruct (policy_head self) as [|ph4 [|ph3 [|ph heads]]]; try discriminate Hheads.
  pose proof (f_equal (fun l => nth 0 l (0, 0)) Hheads) as Hd4.
  pose proof (f_equal (fun l => nth 1 l (0, 0)) Hheads) as Hd3.
  cbn [map nth] in Hd4, Hd3. clear Hheads.
  rewrite Hmask. cbn [mapR].
  destruct (head_output_ok _ _ _ _ Hd4 Hone Hol) as [p4 ->].
  destruct (head_output_ok _ _ _ _ Hd3 Hone Hol) as [p3 ->]. cbn [bind].
  destruct (linear_ok (vf_head self) op Hone) as [v Hv].
  { unfold layer_dims in Hvf. injection Hvf as Hvi _. congruence. }
  rewrite Hv. cbn [bind].
  destruct (linear_shape _ _ _ Hv) as (_ & _ & Hvs & _).
  unfold layer_dims in Hvf. injection Hvf as _ Hvo. rewrite Hvo in Hvs.
  destruct (select_last0_shape v) as (v0 & Hv0 & _).
  { rewrite Hvs. apply snoc_not_nil. }
  { rewrite Hvs, last_dim_snoc. lia. }
  rewrite Hv0. cbn [bind]. eauto.
Qed.

(** The one stored mask is added to the logits of every head, so its
    last size has to fit each of them. *)
Lemma broadcast_shapes_last_mismatch a b :
  a <> [] -> last_dim a <> 1 -> last_dim b <> 1 -> last_dim a <> last_dim b ->
  broadcast_shapes a b = Raise RuntimeError.
Proof.
  intros Ha Ha1 Hb1 Hab. unfold broadcast_shapes.
  destruct (rev a) as [|x ra] eqn:Hra.
  { apply (f_equal (@rev nat)) in Hra. rewrite rev_involutive in Hra. now subst a. }
  destruct (rev b) as [|y rb] eqn:Hrb.
  { apply (f_equal (@rev nat)) in Hrb. rewrite rev_involutive in Hrb. now subst b. }
  assert (Hx : last_dim a = x).
  { rewrite <- (rev_involutive a), Hra. apply last_dim_rev_cons. }
  assert (Hy : last_dim b = y).
  { rewrite <- (rev_involutive b), Hrb. apply last_dim_rev_cons. }
  rewrite Hx in *. rewrite Hy in *. cbn [broadcast_rev].
  apply Nat.eqb_neq in Ha1, Hb1, Hab. now rewrite Hab, Ha1, Hb1.
Qed.

Lemma apply_logit_mask_last_mismatch logits mask :
  shape logits <> [] -> last_dim (shape logits) <> 1 -> last_dim (shape mask) <> 1 ->
  last_dim (shape logits) <> last_dim (shape mask) ->
  apply_logit_mask logits (Some mask) = Raise RuntimeError.
Proof.
  intros Hne Hl Hm Hlm. unfold apply_logit_mask, mul, binop.
  cbn [shape mul_scalar ones_like rsub_scalar].
  now rewrite broadcast_shapes_last_mismatch.
Qed.

Lemma binop_raises f a b e : binop f a b = Raise e -> e = RuntimeError.
Proof.
  unfold binop, broadcast_shapes. destruct (broadcast_rev _ _); cbn; congruence.
Qed.

Lemma apply_logit_mask_raises logits mask e :
  apply_logit_mask logits mask = Raise e -> e = RuntimeError.
Proof.
  unfold apply_logit_mask. destruct mask as [mask|]; [|discriminate].
  destruct (mul _ _) as [t|e'] eqn:Hmul; cbn [bind].
  - apply binop_raises.
  - intros [= <-]. now apply binop_raises in Hmul.
Qed.

(** One head under a mask: it returns or raises [RuntimeError], and it
    raises when the last size of the mask is neither 1 nor its own. *)
Lemma head_masked ph op mask h o :
  layer_dims ph = (h, o) -> shape op <> [] -> last_dim (shape op) = h ->
  ((exists p, (logits <- F.linear ph op ;;
               masked <- apply_logit_mask logits (Some mask) ;;
               Ok (F.softmax masked)) = Ok p) \/
   (logits <- F.linear ph op ;;
    masked <- apply_logit_mask logits (Some mask) ;;
    Ok (F.softmax masked)) = Raise RuntimeError) /\
  (o <> 1 -> last_dim (shape mask) <> 1 -> o <> last_dim (shape mask) ->
   (logits <- F.linear ph op ;;
    masked <- apply_logit_mask logits (Some mask) ;;
    Ok (F.softmax masked)) = Raise RuntimeError).
Proof.
  intros Hd Hne Hl. unfold layer_dims in Hd. injection Hd as Hi Hout.
  destruct (linear_ok ph op Hne) as [logits Hlin]; [congruence|].
  destruct (linear_shape _ _ _ Hlin) as (_ & _ & Hs & _).
  rewrite Hout in Hs. rewrite Hlin. cbn [bind]. split.
  - destruct (apply_logit_mask logits (Some mask)) as [masked|e] eqn:Hm; cbn [bind].
    + left. eauto.
    + right. now rewrite (apply_logit_mask_raises _ _ _ Hm).
  - intros Ho Hm Hom. rewrite apply_logit_mask_last_mismatch; [reflexivity|..].
    + rewrite Hs. apply snoc_not_nil.
    + now rewrite Hs, last_dim_snoc.
    + exact Hm.
    + now rewrite Hs, last_dim_snoc.
Qed.

(** Heads of 4 and 3 actions under one mask whose last size is not 1:
    the mask cannot fit both. *)
Lemma forward_heads_mask_4_3 self ip inp h mask :
  layers_chain inp (fc self) -> fc self <> [] ->
  List.last (map nn.out_features (fc self)) 0 = h ->
  map layer_dims (policy_head self) = [(h, 4); (h, 3)] ->
  action_mask self = Some mask -> last_dim (shape mask) <> 1 ->
  shape ip <> [] -> last_dim (shape ip) = inp ->
  forward_heads self ip = Raise RuntimeError.
Proof.
  intros Hchain Hfc Hlast Hheads Hmask Hm1 Hne Hl. unfold forward_heads.
  destruct (feed_fc_ok _ _ _ None Hchain Hfc Hne Hl) as [op Hop].
  destruct (feed_fc_shape _ _ _ _ Hop Hfc) as (_ & Hone & Hol).
  rewrite Hlast in Hol. rewrite Hop. cbn [bind]. rewrite Hmask.
  destruct (policy_head self) as [|ph4 [|ph3 [|ph heads]]]; try discriminate Hheads.
  pose proof (f_equal (fun l => nth 0 l (0, 0)) Hheads) as Hd4.
  pose proof (f_equal (fun l => nth 1 l (0, 0)) Hheads) as Hd3.
  cbn [map nth] in Hd4, Hd3. clear Hheads.
  destruct (head_masked ph4 op mask h 4 Hd4 Hone Hol) as [H4 H4m].
  destruct (head_masked ph3 op mask h 3 Hd3 Hone Hol) as [_ H3m].
  cbn [mapR].
  destruct (Nat.eq_dec (last_dim (shape mask)) 4) as [E4|E4].
  - destruct H4 as [[p4 H4]|H4]; rewrite H4; cbn [bind]; [|reflexivity].
    rewrite H3m by lia. reflexivity.
  - rewrite H4m by lia. reflexivity.
Qed.

(** C7: an instance constructed for the action space [4, 3], after any
    calls and updates.  Whenever [forward] returns, it returns two
    probability tensors whose last sizes are 4 and 3 and whose rows
    along the last axis sum to 1, and values of shape [E, A] for a trunk
    input of shape [E, A, F].  It does return them, with shapes
    [E, A, 4] and [E, A, 3], when the trunk input has shape [E, A, F]
    with [F] the flattened observation size and no mask is stored.  With
    a stored mask whose last size is not 1 it raises [RuntimeError]
    instead: the one mask is added to the logits of both heads. *)
Theorem C7_forward_output :
  forall a self0,
    __init__ _ACTION_MASK a = Ok self0 ->
    sample_action_space a = Ok (MultiDiscrete [4; 3]) ->
    forall evs,
      let self := run _OBSERVATIONS _ACTION_MASK evs self0 in
      (forall obs ip self1 probs vals self2 E A F,
          forward_input _OBSERVATIONS _ACTION_MASK self obs = (Ok ip, self1) ->
          shape ip = [E; A; F] ->
          forward _OBSERVATIONS _ACTION_MASK self obs = (Ok (probs, vals), self2) ->
          exists p4 p3,
            probs = [p4; p3] /\
            last_dim (shape p4) = 4 /\ last_dim (shape p3) = 3 /\
            (forall r, r < num_rows p4 -> sum_R (row p4 r) = 1%R) /\
            (forall r, r < num_rows p3 -> sum_R (row p3 r) = 1%R) /\
            shape vals = [E; A]) /\
      (forall obs ip self1 E A F,
          forward_input _OBSERVATIONS _ACTION_MASK self obs = (Ok ip, self1) ->
          get_flattened_obs_size _ACTION_MASK self = Ok F ->
          shape ip = [E; A; F] ->
          action_mask self1 = None ->
          exists p4 p3 vals,
            forward _OBSERVATIONS _ACTION_MASK self obs = (Ok ([p4; p3], vals), self1) /\
            shape p4 = [E; A; 4] /\ shape p3 = [E; A; 3] /\
            (forall r, r < E * A -> sum_R (row p4 r) = 1%R) /\
            (forall r, r < E * A -> sum_R (row p3 r) = 1%R) /\
            shape vals = [E; A]) /\
      (forall obs ip self1 mask E A F,
          forward_input _OBSERVATIONS _ACTION_MASK self obs = (Ok ip, self1) ->
          get_flattened_obs_size _ACTION_MASK self = Ok F ->
          shape ip = [E; A; F] ->
          action_mask self1 = Some mask -> last_dim (shape mask) <> 1 ->
          forward _OBSERVATIONS _ACTION_MASK self obs = (Raise RuntimeError, self1)).
Proof.
  intros a self0 Hinit Hact evs self.
  destruct (init_ok _ACTION_MASK a self0 Hinit)
    as (_ & _ & _ & _ & asp & fsz & h & Hasp & Hfsz & Hfc & Hchain & Hlast & Hheads & Hvf).
  rewrite Hact in Hasp. subst asp. cbn [map] in Hheads.
  destruct (run_same_setup _OBSERVATIONS _ACTION_MASK evs self0)
    as (_ & _ & _ & _ & Hosp & _ & Hfc' & Hheads' & Hvf').
  fold self in Hosp, Hfc', Hheads', Hvf'.
  rewrite Hheads in Hheads'. rewrite Hvf in Hvf'.
  assert (Hfcne : fc self <> []).
  { intros Hnil. rewrite Hnil in Hfc'. destruct (fc self0); [congruence|discriminate Hfc']. }
  assert (Hchain' : layers_chain fsz (fc self)).
  { apply (layers_chain_dims (fc self0)); [now symmetry|exact Hchain]. }
  assert (Hlast' : List.last (map nn.out_features (fc self)) 0 = h).
  { now rewrite (map_out_features_dims _ _ Hfc'). }
  assert (HF : forall F, get_flattened_obs_size _ACTION_MASK self = Ok F -> F = fsz).
  { intros F HF. unfold get_flattened_obs_size in HF, Hfsz. rewrite Hosp in HF. congruence. }
  split; [|split].
  - intros obs ip self1 probs vals self2 E A F Hfi Hs Hfw.
    unfold forward in Hfw. rewrite Hfi in Hfw. injection Hfw as Hfw _.
    destruct (forward_input_frame _OBSERVATIONS _ACTION_MASK self obs) as [m Hm].
    rewrite Hfi in Hm. cbn [snd] in Hm. subst self1.
    destruct (forward_heads_shapes (set_action_mask m self) ip h probs vals Hheads' Hvf' Hfw)
      as (p4 & p3 & -> & H4 & H3 & _ & H4r & H3r & Hv).
    exists p4, p3. repeat split; try assumption.
    rewrite Hv, Hs. reflexivity.
  - intros obs ip self1 E A F Hfi HFs Hs Hmask.
    apply HF in HFs. subst F.
    destruct (forward_input_frame _OBSERVATIONS _ACTION_MASK self obs) as [m Hm].
    rewrite Hfi in Hm. cbn [snd] in Hm. subst self1.
    destruct (forward_heads_ok (set_action_mask m self) ip fsz h
                Hchain' Hfcne Hlast' Hheads' Hvf' Hmask)
      as (probs & vals & Hfw).
    { now rewrite Hs. }
    { now rewrite Hs. }
    destruct (forward_heads_shapes (set_action_mask m self) ip h probs vals Hheads' Hvf' Hfw)
      as (p4 & p3 & -> & _ & _ & Hshapes & H4r & H3r & Hv).
    destruct (Hshapes Hmask) as [H4s H3s].
    rewrite Hs in H4s, H3s, Hv. cbn in H4s, H3s, Hv.
    exists p4, p3, vals. unfold forward. rewrite Hfi, Hfw.
    repeat split; try assumption.
    + intros r Hr. apply H4r. unfold num_rows. rewrite H4s. cbn. lia.
    + intros r Hr. apply H3r. unfold num_rows. rewrite H3s. cbn. lia.
  - intros obs ip self1 mask E A F Hfi HFs Hs Hmask Hm1.
    apply HF in HFs. subst F.
    destruct (forward_input_frame _OBSERVATIONS _ACTION_MASK self obs) as [m Hm].
    rewrite Hfi in Hm. cbn [snd] in Hm. subst self1.
    unfold forward. rewrite Hfi.
    rewrite (forward_heads_mask_4_3 (set_action_mask m self) ip fsz h mask
               Hchain' Hfcne Hlast' Hheads' Hmask Hm1); [reflexivity|..].
    + now rewrite Hs.
    + now rewrite Hs.
Qed.

End ForwardOutput.

Lemma C7_forward_output_witness :
  exists self0 p4 p3 vals,
    __init__ Example.ACTION_MASK
      (Example.args_of (Example.env_of 2 (Box [2]) (MultiDiscrete [4; 3]) ∅) [0; 1] "first")
    = Ok self0 /\
    forward Example.OBSERVATIONS Example.ACTION_MASK self0
      (Some (mkTensor [1; 2; 2] [0; 0; 0; 0]%R)) = (Ok ([p4; p3], vals), self0) /\
    shape p4 = [1; 2; 4] /\ shape p3 = [1; 2; 3] /\ shape vals = [1; 2].
Proof.
  eexists.
  assert (Hinit : __init__ Example.ACTION_MASK
      (Example.args_of (Example.env_of 2 (Box [2]) (MultiDiscrete [4; 3]) ∅) [0; 1] "first")
    = Ok ?[self0]) by reflexivity.
  destruct (C7_forward_output Example.OBSERVATIONS Example.ACTION_MASK _ _ Hinit eq_refl [])
    as (_ & H & _).
  destruct (H (Some (mkTensor [1; 2; 2] [0; 0; 0; 0]%R)) _ _ 1 2 2
              eq_refl eq_refl eq_refl eq_refl)
    as (p4 & p3 & vals & Hfw & H4 & H3 & _ & _ & Hv).
  exists p4, p3, vals. repeat split; assumption.
Defined.

(** An instance constructed for the action space [4, 3] over a [Dict]
    observation space with an action mask of four entries per agent:
    [forward()] stores the mask and raises, since the mask does not fit
    the head of three actions. *)
Lemma C7_counterexample :
  exists self0,
    __init__ Example.ACTION_MASK
      (Example.args_of
         (Example.env_of 1 (Dict [("action_mask", [4]); ("x", [1])]) (MultiDiscrete [4; 3])
            {[ "observations_action_mask" := mkTensor [1; 1; 4] [1; 0; 1; 1]%R;
               "observations_x" := mkTensor [1; 1; 1] [0]%R ]})
         [0] "first") = Ok self0 /\
    sample_action_space
      (Example.args_of
         (Example.env_of 1 (Dict [("action_mask", [4]); ("x", [1])]) (MultiDiscrete [4; 3])
            {[ "observations_action_mask" := mkTensor [1; 1; 4] [1; 0; 1; 1]%R;
               "observations_x" := mkTensor [1; 1; 1] [0]%R ]})
         [0] "first") = Ok (MultiDiscrete [4; 3]) /\
    fst (forward Example.OBSERVATIONS Example.ACTION_MASK self0 None) = Raise RuntimeError.
Proof.
  eexists. split; [reflexivity|]. split; reflexivity.
Qed.

(** * Further properties *)

(** ** More on reshaping *)

Section InferSize.

Import torch.

(** [reshape(num_envs, num_agents, -1)] written out. *)
Lemma infer_size_envs_agents_eq E N n :
  infer_size [Z.of_nat E; Z.of_nat N; (-1)%Z] n =
    if (n =? E * N) || ((0 <? E * N) && (n mod (E * N) =? 0)) then
      if E * N =? 0 then Raise RuntimeError else Ok [E; N; n / (E * N)]
    else Raise RuntimeError.
Proof.
  unfold infer_size.
  rewrite bool_decide_eq_false_2.
  2:{ intros H. repeat (apply Exists_cons in H as [H|H]; [lia|]). inversion H. }
  rewrite !filter_cons, !filter_nil.
  rewrite !(decide_False (P := (Z.of_nat _ = (-1)%Z))) by lia.
  rewrite !(decide_True (P := (Z.of_nat _ <> (-1)%Z))) by lia.
  rewrite (decide_True (P := ((-1)%Z = (-1)%Z))) by reflexivity.
  rewrite (decide_False (P := ((-1)%Z <> (-1)%Z))) by (intros H; now apply H).
  cbn [length map numel fold_right]. rewrite !Nat2Z.id, Nat.mul_1_r.
  change (1 <? 1) with false. change (1 =? 1) with true. cbv iota. cbn [andb].
  destruct ((n =? E * N) || ((0 <? E * N) && (n mod (E * N) =? 0))); [|reflexivity].
  destruct (E * N =? 0); [reflexivity|].
  rewrite !(decide_False (P := (Z.of_nat _ = (-1)%Z))) by lia.
  rewrite (decide_True (P := ((-1)%Z = (-1)%Z))) by reflexivity.
  reflexivity.
Qed.

(** [reshape(-1, num_agents)] written out. *)
Lemma infer_size_rows_eq N n :
  infer_size [(-1)%Z; Z.of_nat N] n =
    if (n =? N) || ((0 <? N) && (n mod N =? 0)) then
      if N =? 0 then Raise RuntimeError else Ok [n / N; N]
    else Raise RuntimeError.
Proof.
  unfold infer_size.
  rewrite bool_decide_eq_false_2.
  2:{ intros H. repeat (apply Exists_cons in H as [H|H]; [lia|]). inversion H. }
  rewrite !filter_cons, !filter_nil.
  rewrite !(decide_False (P := (Z.of_nat _ = (-1)%Z))) by lia.
  rewrite !(decide_True (P := (Z.of_nat _ <> (-1)%Z))) by lia.
  rewrite (decide_True (P := ((-1)%Z = (-1)%Z))) by reflexivity.
  rewrite (decide_False (P := ((-1)%Z <> (-1)%Z))) by (intros H; now apply H).
  cbn [length map numel fold_right]. rewrite !Nat2Z.id, Nat.mul_1_r.
  change (1 <? 1) with false. change (1 =? 1) with true. cbv iota. cbn [andb].
  destruct ((n =? N) || ((0 <? N) && (n mod N =? 0))); [|reflexivity].
  destruct (N =? 0); [reflexivity|].
  rewrite !(decide_False (P := (Z.of_nat _ = (-1)%Z))) by lia.
  rewrite (decide_True (P := ((-1)%Z = (-1)%Z))) by reflexivity.
  reflexivity.
Qed.

(** When [reshape(num_envs, num_agents, -1)] returns, both sizes are
    positive and the three sizes multiply to the number of entries. *)
Lemma reshape_envs_agents_inv t E N out :
  reshape t [Z.of_nat E; Z.of_nat N; (-1)%Z] = Ok out ->
  exists F, out = mkTensor [E; N; F] (data t) /\ 0 < E /\ 0 < N /\
            E * (N * F) = numel (shape t).
Proof.
  unfold reshape. rewrite infer_size_envs_agents_eq. intros H.
  destruct ((numel (shape t) =? E * N) || _) eqn:Hc; [|discriminate H].
  destruct (E * N =? 0) eqn:H0; [discriminate H|].
  apply Nat.eqb_neq in H0. cbn [bind] in H. apply Ok_inj in H. subst out.
  exists (numel (shape t) / (E * N)). split; [reflexivity|].
  split; [lia|]. split; [lia|].
  apply orb_true_iff in Hc as [Hc|Hc].
  - apply Nat.eqb_eq in Hc. rewrite Hc, Nat.div_same by exact H0. lia.
  - apply andb_true_iff in Hc as [_ Hc]. apply Nat.eqb_eq in Hc.
    pose proof (Nat.div_mod_eq (numel (shape t)) (E * N)). lia.
Qed.

End InferSize.

Section MoreReshape.

Import torch.

Lemma permute_well_formed t dims p : permute t dims = Ok p -> well_formed p.
Proof.
  unfold permute. intros H.
  destruct (negb _); [discriminate H|].
  destruct (mapR _ dims) as [perm|e]; [cbn [bind] in H|discriminate H].
  destruct (negb _); [discriminate H|].
  apply Ok_inj in H. subst p. unfold well_formed. cbn [shape data].
  now rewrite length_map, length_seq.
Qed.

(** [t.permute(0, -1)] of a tensor with two axes is the tensor. *)
Lemma permute_0_1 t a b :
  shape t = [a; b] -> well_formed t -> permute t [0%Z; (-1)%Z] = Ok t.
Proof.
  intros Hs Hwf. unfold permute. rewrite Hs.
  cbn [length Nat.eqb negb]. change (mapR (wrap_dim 2) [0%Z; (-1)%Z]) with (Ok [0; 1]).
  cbn [bind]. change (bool_decide (NoDup [0; 1])) with true.
  cbn [negb map nth seq index_of Nat.eqb].
  destruct t as [sh d]. cbn [shape data] in *. subst sh. f_equal. f_equal.
  unfold well_formed in Hwf. cbn [shape data] in Hwf.
  etransitivity; [|apply map_nth_seq]. rewrite Hwf.
  apply map_ext_in. intros j Hj. apply in_seq in Hj.
  f_equal. change [nth 0 (unravel [a; b] j) 0; nth 1 (unravel [a; b] j) 0]
    with (unravel [a; b] j).
  apply ravel_unravel. lia.
Qed.

Lemma mapR_wrap_dim_seq rank len : forall a,
  a + len <= rank ->
  mapR (wrap_dim rank) (map Z.of_nat (seq a len)) = Ok (seq a len).
Proof.
  induction len as [|len IH]; intros a Ha; [reflexivity|].
  cbn [seq map mapR]. unfold wrap_dim at 1.
  rewrite decide_True by lia. cbn [bind]. rewrite IH by lia. cbn [bind].
  now rewrite Nat2Z.id.
Qed.

Lemma map_nth_prefix (l l' : list nat) :
  map (fun p => nth p (l ++ l') 0) (seq 0 (length l)) = l.
Proof.
  induction l as [|y l IH]; [reflexivity|].
  cbn [length seq map app nth]. f_equal.
  rewrite <- seq_shift, map_map. exact IH.
Qed.

Lemma map_nth_middle (x : nat) (l l' : list nat) :
  map (fun p => nth p (x :: l ++ l') 0) (seq 1 (length l)) = l.
Proof. rewrite <- seq_shift, map_map. apply map_nth_prefix. Qed.

(** [t.permute(0, -1, 1, ..., r-2)] moves the last axis behind the first. *)
Lemma permute_last_to_second t E mid N :
  shape t = E :: mid ++ [N] ->
  exists p,
    permute t (0%Z :: (-1)%Z :: map Z.of_nat (seq 1 (length mid))) = Ok p /\
    shape p = E :: N :: mid /\ well_formed p.
Proof.
  intros Hs. unfold permute. rewrite Hs.
  cbn [length]. rewrite length_app, !length_map, length_seq. cbn [length].
  replace (S (S (length mid)) =? S (length mid + 1)) with true
    by (symmetry; apply Nat.eqb_eq; lia).
  cbn [negb mapR]. unfold wrap_dim at 1 2.
  rewrite decide_True by lia. cbn [bind].
  rewrite decide_False by lia. rewrite decide_True by lia. cbn [bind].
  rewrite mapR_wrap_dim_seq by lia. cbn [bind].
  replace (Z.to_nat (-1 + Z.of_nat (S (length mid + 1)))) with (S (length mid)) by lia.
  change (Z.to_nat 0) with 0.
  rewrite bool_decide_eq_true_2.
  2:{ apply NoDup_cons. split.
      - intros H. apply elem_of_cons in H as [H|H]; [lia|].
        apply list_elem_of_In, in_seq in H. lia.
      - apply NoDup_cons. split.
        + intros H. apply list_elem_of_In, in_seq in H. lia.
        + apply NoDup_seq. }
  cbn [negb]. eexists. split; [reflexivity|]. split.
  - cbn [shape map nth]. f_equal. f_equal.
    + rewrite app_nth2 by lia. now rewrite Nat.sub_diag.
    + apply map_nth_middle.
  - unfold well_formed. cbn [shape data]. now rewrite length_map, length_seq.
Qed.

End MoreReshape.

Section ReshapeAndFlattenMore.

Import torch.

Lemma reshape_and_flatten_obs_inv self obs out :
  well_formed obs ->
  reshape_and_flatten_obs self obs = Ok out ->
  exists E N F,
    list_head (shape obs) = Ok E /\ num_agents_of self = Ok N /\
    shape out = [E; N; F] /\ 0 < E /\ 0 < N /\ well_formed out /\
    (obs_dim_corresponding_to_num_agents self = "first" ->
     data out = data obs /\ E * (N * F) = numel (shape obs)).
Proof.
  intros Hwf H. unfold reshape_and_flatten_obs in H.
  inv_bind H. inv_bind H. inv_bind H.
  rename a into nE, a0 into nA, a1 into t.
  destruct (reshape_envs_agents_inv _ _ _ _ H) as (F & -> & HE & HN & Hnum).
  exists nE, nA, F. repeat (split; [done|]).
  assert (Ht : well_formed t /\
               (obs_dim_corresponding_to_num_agents self = "first" -> t = obs)).
  { destruct (String.eqb_spec (obs_dim_corresponding_to_num_agents self) "first") as [Hf|Hf].
    - apply Ok_inj in E1. now subst t.
    - destruct (String.eqb (obs_dim_corresponding_to_num_agents self) "last");
        [|discriminate E1].
      inv_bind E1. split; [now apply permute_well_formed in E1|congruence]. }
  destruct Ht as [Htwf Htfirst]. split.
  - unfold well_formed in *. cbn [shape data]. rewrite Htwf, <- Hnum. cbn. lia.
  - intros Hf. rewrite (Htfirst Hf) in *. now split.
Qed.

(** X1: whenever [reshape_and_flatten_obs] returns for a well-formed
    tensor, the result has three axes, [obs.shape[0]], the number of
    agents of the instance and one feature axis, the first two are
    positive and the result is well formed; with the agent dimension
    "first" it holds the entries of [obs] in their order. *)
Theorem reshape_and_flatten_obs_result_form :
  forall self obs out,
    well_formed obs ->
    reshape_and_flatten_obs self obs = Ok out ->
    exists E N F,
      list_head (shape obs) = Ok E /\ num_agents_of self = Ok N /\
      shape out = [E; N; F] /\ 0 < E /\ 0 < N /\ well_formed out /\
      (obs_dim_corresponding_to_num_agents self = "first" ->
       data out = data obs /\ E * (N * F) = numel (shape obs)).
Proof. intros self obs out. apply reshape_and_flatten_obs_inv. Qed.

Lemma reshape_and_flatten_obs_result_form_witness :
  exists E N F,
    shape (mkTensor [2; 3; 1; 2] (repeat 0%R 12)) = E :: [3; 1; 2] /\
    reshape_and_flatten_obs
      (Example.net_of (Example.env_of 3 (Box [1; 2]) (Discrete 2) ∅) [0] "first" (Box [1; 2]) 2 None)
      (mkTensor [2; 3; 1; 2] (repeat 0%R 12)) = Ok (mkTensor [E; N; F] (repeat 0%R 12)).
Proof.
  destruct (reshape_and_flatten_obs_result_form
              (Example.net_of (Example.env_of 3 (Box [1; 2]) (Discrete 2) ∅) [0] "first"
                 (Box [1; 2]) 2 None)
              (mkTensor [2; 3; 1; 2] (repeat 0%R 12))
              (mkTensor [2; 3; 2] (repeat 0%R 12)) eq_refl eq_refl)
    as (E & N & F & HE & HN & Hs & _).
  exists E, N, F. injection HE as <-. injection HN as <-. injection Hs as <-.
  split; reflexivity.
Defined.

(** X2: with the agent dimension "last", a tensor with one axis of [K]
    entries is accepted when the instance has one agent, and comes back
    with shape [K, 1, 1] and the same entries; with any other number of
    agents the call raises. *)
Theorem reshape_and_flatten_obs_one_axis :
  forall self obs K n,
    obs_dim_corresponding_to_num_agents self = "last" ->
    num_agents_of self = Ok n ->
    shape obs = [K] -> 0 < K -> well_formed obs ->
    (n = 1 -> reshape_and_flatten_obs self obs = Ok (mkTensor [K; 1; 1] (data obs))) /\
    (n <> 1 -> reshape_and_flatten_obs self obs = Raise RuntimeError).
Proof.
  intros self obs K n Hdim Hnum Hs HK Hwf.
  unfold well_formed in Hwf. rewrite Hs in Hwf. cbn in Hwf. rewrite Nat.mul_1_r in Hwf.
  assert (Hrows : reshape obs [(-1)%Z; Z.of_nat n] =
            if (K =? n) || ((0 <? n) && (K mod n =? 0)) then
              if n =? 0 then Raise RuntimeError else Ok (mkTensor [K / n; n] (data obs))
            else Raise RuntimeError).
  { unfold reshape. rewrite infer_size_rows_eq, Hs. cbn [numel fold_right].
    rewrite Nat.mul_1_r. now repeat case_match. }
  unfold reshape_and_flatten_obs. rewrite Hs, Hnum, Hdim. cbn [list_head bind].
  change (String.eqb "last" "first") with false.
  change (String.eqb "last" "last") with true. cbv iota.
  cbn [length Nat.eqb Nat.sub seq map]. rewrite Hrows. clear Hrows.
  split.
  - intros ->. rewrite Nat.mod_1_r. cbn [Nat.ltb Nat.leb Nat.eqb andb].
    rewrite orb_true_r. cbn [bind]. rewrite Nat.div_1_r.
    rewrite (permute_0_1 _ K 1) by (reflexivity || (unfold well_formed; cbn; lia)).
    cbn [bind].
    apply (reshape_envs_agents (mkTensor [K; 1] (data obs)) K 1 1); cbn; lia.
  - intros Hn.
    destruct ((K =? n) || ((0 <? n) && (K mod n =? 0))) eqn:Hc; [|reflexivity].
    destruct (n =? 0) eqn:Hn0; [reflexivity|]. apply Nat.eqb_neq in Hn0.
    assert (Hmod : K mod n = 0).
    { apply orb_true_iff in Hc as [Hc|Hc].
      - apply Nat.eqb_eq in Hc. subst n. now apply Nat.Div0.mod_same.
      - apply andb_true_iff in Hc as [_ Hc]. now apply Nat.eqb_eq in Hc. }
    assert (Hdiv : K / n * n = K).
    { pose proof (Nat.div_mod_eq K n). lia. }
    cbn [bind].
    rewrite (permute_0_1 _ (K / n) n) by (reflexivity || (unfold well_formed; cbn; lia)).
    cbn [bind]. unfold reshape. rewrite infer_size_envs_agents_eq.
    cbn [shape numel fold_right]. rewrite Nat.mul_1_r, Hdiv.
    replace (K =? K * n) with false by (symmetry; apply Nat.eqb_neq; nia).
    replace (K mod (K * n) =? 0) with false.
    2:{ symmetry. apply Nat.eqb_neq. rewrite Nat.mod_small by nia. lia. }
    now rewrite andb_false_r.
Qed.

Lemma reshape_and_flatten_obs_one_axis_witness :
  reshape_and_flatten_obs
    (Example.net_of (Example.env_of 1 (Box []) (Discrete 2) ∅) [0] "last" (Box []) 1 None)
    (mkTensor [3] [7; 8; 9]%R) = Ok (mkTensor [3; 1; 1] [7; 8; 9]%R) /\
  reshape_and_flatten_obs
    (Example.net_of (Example.env_of 3 (Box []) (Discrete 2) ∅) [0] "last" (Box []) 1 None)
    (mkTensor [3] [7; 8; 9]%R) = Raise RuntimeError.
Proof.
  split.
  - apply (reshape_and_flatten_obs_one_axis _ (mkTensor [3] [7; 8; 9]%R) 3 1);
      try reflexivity; lia.
  - apply (reshape_and_flatten_obs_one_axis _ (mkTensor [3] [7; 8; 9]%R) 3 3);
      try reflexivity; lia.
Defined.

Lemma flatten_first_any_rank self obs E N fd :
  num_agents_of self = Ok N -> 0 < E -> 0 < N ->
  obs_dim_corresponding_to_num_agents self = "first" ->
  shape obs = E :: N :: fd ->
  reshape_and_flatten_obs self obs = Ok (mkTensor [E; N; np.prod fd] (data obs)).
Proof.
  intros Hnum HE HN Hdim Hs. unfold reshape_and_flatten_obs.
  rewrite Hs, Hnum, Hdim. cbn [list_head bind].
  change (String.eqb "first" "first") with true. cbv iota. cbn [bind].
  apply reshape_envs_agents; try assumption. rewrite Hs. reflexivity.
Qed.

Lemma flatten_last_any_rank self obs E N fd :
  num_agents_of self = Ok N -> 0 < E -> 0 < N ->
  obs_dim_corresponding_to_num_agents self = "last" ->
  shape obs = E :: fd ++ [N] ->
  exists out,
    reshape_and_flatten_obs self obs = Ok out /\
    shape out = [E; N; np.prod fd] /\ well_formed out.
Proof.
  intros Hnum HE HN Hdim Hs. unfold reshape_and_flatten_obs.
  rewrite Hs, Hnum, Hdim. cbn [list_head bind].
  change (String.eqb "last" "first") with false.
  change (String.eqb "last" "last") with true. cbv iota.
  destruct (permute_last_to_second obs E fd N Hs) as (p & Hp & Hps & Hpwf).
  replace (length (E :: fd ++ [N]) =? 1) with false.
  2:{ symmetry. apply Nat.eqb_neq. cbn [length]. rewrite length_app. cbn. lia. }
  cbn [bind].
  replace (length (E :: fd ++ [N]) - 1 - 1) with (length fd).
  2:{ cbn [length]. rewrite length_app. cbn. lia. }
  rewrite Hp. cbn [bind].
  rewrite (reshape_envs_agents p E N (np.prod fd)); try assumption.
  - eexists. split; [reflexivity|]. split; [reflexivity|].
    unfold well_formed in *. cbn [shape data]. rewrite Hpwf, Hps.
    cbn. unfold np.prod. lia.
  - rewrite Hps. reflexivity.
Qed.

(** X3: a tensor with any number of feature axes is flattened to
    [E, N, product of the feature sizes] when [N] is the number of agents
    of the instance and [E, N >= 1]: from shape [E, N, f1, ..., fk] with
    the agent dimension "first", keeping the entries in their order, and
    from shape [E, f1, ..., fk, N] with the agent dimension "last". *)
Theorem reshape_and_flatten_obs_any_rank :
  forall self obs E N feature_dims,
    num_agents_of self = Ok N -> 0 < E -> 0 < N ->
    (obs_dim_corresponding_to_num_agents self = "first" ->
     shape obs = E :: N :: feature_dims ->
     reshape_and_flatten_obs self obs
       = Ok (mkTensor [E; N; np.prod feature_dims] (data obs))) /\
    (obs_dim_corresponding_to_num_agents self = "last" ->
     shape obs = E :: feature_dims ++ [N] ->
     exists out,
       reshape_and_flatten_obs self obs = Ok out /\
       shape out = [E; N; np.prod feature_dims] /\ well_formed out).
Proof.
  intros self obs E N fd Hnum HE HN. split.
  - now apply flatten_first_any_rank.
  - now apply flatten_last_any_rank.
Qed.

Lemma reshape_and_flatten_obs_any_rank_witness :
  reshape_and_flatten_obs
    (Example.net_of (Example.env_of 2 (Box [2; 2]) (Discrete 2) ∅) [0] "first" (Box [2; 2]) 4 None)
    (mkTensor [1; 2; 2; 2] [1; 2; 3; 4; 5; 6; 7; 8]%R)
  = Ok (mkTensor [1; 2; 4] [1; 2; 3; 4; 5; 6; 7; 8]%R) /\
  exists out,
    reshape_and_flatten_obs
      (Example.net_of (Example.env_of 2 (Box [2; 2]) (Discrete 2) ∅) [0] "last" (Box [2; 2]) 4 None)
      (mkTensor [1; 2; 2; 2] [1; 2; 3; 4; 5; 6; 7; 8]%R) = Ok out /\
    shape out = [1; 2; 4].
Proof.
  destruct (reshape_and_flatten_obs_any_rank
              (Example.net_of (Example.env_of 2 (Box [2; 2]) (Discrete 2) ∅) [0] "first"
                 (Box [2; 2]) 4 None)
              (mkTensor [1; 2; 2; 2] [1; 2; 3; 4; 5; 6; 7; 8]%R) 1 2 [2; 2])
    as [Hfirst _]; [reflexivity | lia | lia |].
  destruct (reshape_and_flatten_obs_any_rank
              (Example.net_of (Example.env_of 2 (Box [2; 2]) (Discrete 2) ∅) [0] "last"
                 (Box [2; 2]) 4 None)
              (mkTensor [1; 2; 2; 2] [1; 2; 3; 4; 5; 6; 7; 8]%R) 1 2 [2; 2])
    as [_ Hlast]; [reflexivity | lia | lia |].
  split.
  - apply Hfirst; reflexivity.
  - destruct (Hlast eq_refl eq_refl) as (out & Hout & Hs & _). eauto.
Defined.

End ReshapeAndFlattenMore.

(** ** Assembling the observations *)

Section Assembly.

Import torch.

Variables (_OBSERVATIONS _ACTION_MASK : string).

Lemma buffer_fits_flatten self E N sh buf :
  num_agents_of self = Ok N -> 0 < E -> 0 < N ->
  buffer_fits self E N sh buf ->
  exists f, reshape_and_flatten_obs self buf = Ok f /\ shape f = [E; N; np.prod sh].
Proof.
  intros Hnum HE HN [[Hdim Hs]|[Hdim Hs]].
  - rewrite (flatten_first_any_rank self buf E N sh) by assumption. eauto.
  - destruct (flatten_last_any_rank self buf E N sh) as (out & Ho & Hos & _); eauto.
Qed.

(** The first loop of the [Dict] branch when every buffer is there. *)
Lemma collect_obs_ok E N spaces : forall acc self,
  Forall (fun kv => exists buf f,
            data_on_device_via_torch (env self) (obs_name _OBSERVATIONS self (fst kv)) = Ok buf /\
            reshape_and_flatten_obs self buf = Ok f /\
            shape f = [E; N; np.prod (snd kv)]) spaces ->
  exists bufs m,
    collect_obs _OBSERVATIONS _ACTION_MASK (map fst spaces) acc self
      = (Ok (acc ++ bufs), set_action_mask m self) /\
    Forall2 (fun kb kv => exists f,
               reshape_and_flatten_obs self (snd kb) = Ok f /\
               shape f = [E; N; np.prod (snd kv)])
            bufs (filter (fun kv => fst kv <> _ACTION_MASK) spaces).
Proof.
  induction spaces as [|[key sh] spaces IH]; intros acc self H.
  - exists [], (action_mask self). cbn. rewrite app_nil_r, set_action_mask_same.
    split; [reflexivity|constructor].
  - apply Forall_cons in H as [(buf & f & Hb & Hf & Hfs) H]. cbn [fst snd] in *.
    cbn [map fst collect_obs]. rewrite Hb. rewrite filter_cons. cbn [fst].
    destruct (String.eqb_spec key _ACTION_MASK) as [Heq|Hne].
    + rewrite decide_False by (intros Hc; now apply Hc).
      rewrite Hf.
      destruct (IH acc (set_action_mask (Some f) self) H) as (bufs & m & Hc & HF).
      exists bufs, m. rewrite Hc. split; [reflexivity|exact HF].
    + rewrite decide_True by exact Hne.
      destruct (IH (acc ++ [(key, buf)]) self H) as (bufs & m & Hc & HF).
      exists ((key, buf) :: bufs), m. rewrite Hc, <- app_assoc. split; [reflexivity|].
      constructor; [|exact HF]. cbn [snd]. eauto.
Qed.

Lemma flatten_all_ok E N self : forall bufs (entries : list (string * list nat)),
  Forall2 (fun (kb : string * Tensor) kv => exists f,
             reshape_and_flatten_obs self (snd kb) = Ok f /\
             shape f = [E; N; np.prod (snd kv)]) bufs entries ->
  exists flats,
    mapR (fun kv : string * Tensor => reshape_and_flatten_obs self (snd kv)) bufs = Ok flats /\
    Forall2 (fun f kv => shape f = [E; N; np.prod (snd kv)]) flats entries.
Proof.
  induction 1 as [|kb kv bufs entries (f & Hf & Hs) _ (flats & Hm & HF)].
  - exists []. split; [reflexivity|constructor].
  - exists (f :: flats). cbn [mapR]. rewrite Hf. cbn [bind]. rewrite Hm. cbn [bind].
    split; [reflexivity|now constructor].
Qed.

(** [torch.cat] of flattened entries along the feature axis. *)
Lemma cat_flattened E N : forall flats (entries : list (string * list nat)),
  flats <> [] ->
  Forall2 (fun f kv => shape f = [E; N; np.prod (snd kv)]) flats entries ->
  exists out,
    cat flats = Ok out /\
    shape out = [E; N; sum_list (map (fun kv => np.prod (snd kv)) entries)].
Proof.
  intros flats entries Hne HF. unfold cat.
  destruct flats as [|t0 flats']; [congruence|].
  set (ts := t0 :: flats') in *.
  assert (Hlead : forall t, t ∈ ts -> shape t <> [] /\ lead (shape t) = [E; N]).
  { intros t Ht. apply (Forall2_Forall_l _ (fun t => exists F, shape t = [E; N; F])) in HF.
    - rewrite Forall_forall in HF. destruct (HF t Ht) as [F ->]. split; [discriminate|reflexivity].
    - apply Forall_true. intros kv f Hf. eauto. }
  replace (forallb _ ts) with true.
  2:{ symmetry. apply forallb_forall. intros t Ht. apply list_elem_of_In in Ht.
      destruct (Hlead t Ht) as [H1 H2]. destruct (Hlead t0) as [_ H3]; [left|].
      rewrite H2, H3, bool_decide_eq_true_2 by reflexivity.
      destruct (shape t); [congruence|reflexivity]. }
  eexists. split; [reflexivity|]. cbn [shape].
  destruct (Hlead t0) as [_ ->]; [left|]. cbn [app]. do 3 f_equal.
  clear Hlead Hne. induction HF as [|f kv fl en Hf _ IH]; [reflexivity|].
  cbn [map foldr sum_list sum_list_with]. rewrite IH, Hf. reflexivity.
Qed.

(** X4: the feature width of the assembled observations is the
    flattened observation size.  For a [Box] space whose buffer, and for
    a [Dict] space with an entry other than the action mask whose
    buffers, have [E >= 1] environments, the [N >= 1] agents of the
    instance and the declared shapes, [get_flattened_obs] returns a
    tensor of shape [E, N, F] with [F] the value of
    [get_flattened_obs_size]. *)
Theorem get_flattened_obs_width :
  forall self E N,
    num_agents_of self = Ok N -> 0 < E -> 0 < N ->
    (forall sh buf,
        observation_space self = Box sh ->
        data_on_device_via_torch (env self)
          (if create_separate_placeholders_for_each_policy self
           then _OBSERVATIONS +:+ "_" +:+ policy self else _OBSERVATIONS) = Ok buf ->
        buffer_fits self E N sh buf ->
        exists t F,
          get_flattened_obs _OBSERVATIONS _ACTION_MASK self = (Ok t, self) /\
          shape t = [E; N; F] /\
          get_flattened_obs_size _ACTION_MASK self = Ok F) /\
    (forall spaces,
        observation_space self = Dict spaces ->
        Exists (fun kv => fst kv <> _ACTION_MASK) spaces ->
        Forall (fun kv => exists buf,
                  data_on_device_via_torch (env self)
                    (obs_name _OBSERVATIONS self (fst kv)) = Ok buf /\
                  buffer_fits self E N (snd kv) buf) spaces ->
        exists t self' F,
          get_flattened_obs _OBSERVATIONS _ACTION_MASK self = (Ok t, self') /\
          shape t = [E; N; F] /\
          get_flattened_obs_size _ACTION_MASK self = Ok F).
Proof.
  intros self E N Hnum HE HN. split.
  - intros sh buf Hsp Hb Hfit.
    destruct (buffer_fits_flatten self E N sh buf Hnum HE HN Hfit) as (f & Hf & Hfs).
    exists f, (np.prod sh). unfold get_flattened_obs, get_flattened_obs_size.
    rewrite Hsp, Hb. cbn [bind]. rewrite Hf. now repeat split.
  - intros spaces Hsp Hex Hall.
    assert (Hall' : Forall (fun kv => exists buf f,
              data_on_device_via_torch (env self) (obs_name _OBSERVATIONS self (fst kv)) = Ok buf /\
              reshape_and_flatten_obs self buf = Ok f /\
              shape f = [E; N; np.prod (snd kv)]) spaces).
    { eapply Forall_impl; [exact Hall|]. intros kv (buf & Hb & Hfit).
      destruct (buffer_fits_flatten self E N _ buf Hnum HE HN Hfit) as (f & Hf & Hfs). eauto. }
    destruct (collect_obs_ok E N spaces [] self Hall') as (bufs & m & Hc & HF).
    destruct (flatten_all_ok E N (set_action_mask m self) bufs _ HF) as (flats & Hm & HF').
    assert (Hne : flats <> []).
    { intros ->. apply Forall2_nil_inv_l in HF'.
      apply Exists_exists in Hex as (kv & Hin & Hkv).
      assert (kv ∈ filter (fun kv => fst kv <> _ACTION_MASK) spaces)
        by (apply list_elem_of_filter; split; [exact Hkv|exact Hin]).
      rewrite HF' in H. now apply elem_of_nil in H. }
    destruct (cat_flattened E N flats _ Hne HF') as (out & Hcat & Hout).
    exists out, (set_action_mask m self),
      (sum_list (map (fun kv => np.prod (snd kv))
                     (filter (fun kv => fst kv <> _ACTION_MASK) spaces))).
    unfold get_flattened_obs, get_flattened_obs_size. rewrite Hsp, Hc.
    cbn [app]. rewrite Hm. cbn [bind]. rewrite Hcat.
    repeat split; [exact Hout|]. now rewrite dict_size_loop.
Qed.

Lemma collect_obs_all_mask keys : forall acc self obs_dict self',
  Forall (fun key => key = _ACTION_MASK) keys ->
  collect_obs _OBSERVATIONS _ACTION_MASK keys acc self = (Ok obs_dict, self') ->
  obs_dict = acc.
Proof.
  induction keys as [|key keys IH]; intros acc self d s' Hall Hc; cbn [collect_obs] in Hc.
  - now injection Hc as <- _.
  - apply Forall_cons in Hall as [-> Hall].
    destruct (data_on_device_via_torch _ _) as [obs|e]; [|discriminate Hc].
    rewrite String.eqb_refl in Hc.
    destruct (reshape_and_flatten_obs self obs) as [m|e]; [|discriminate Hc].
    now apply (IH _ _ _ _ Hall Hc).
Qed.

(** X5: a [Dict] space without an entry other than the action mask has
    the flattened size 0, and [get_flattened_obs], so also [forward]
    without [obs], raises on it whatever the buffers hold: no
    observation is left to concatenate. *)
Theorem get_flattened_obs_mask_only :
  forall self spaces,
    observation_space self = Dict spaces ->
    Forall (fun kv => fst kv = _ACTION_MASK) spaces ->
    get_flattened_obs_size _ACTION_MASK self = Ok 0 /\
    exists e,
      fst (get_flattened_obs _OBSERVATIONS _ACTION_MASK self) = Raise e /\
      fst (forward _OBSERVATIONS _ACTION_MASK self None) = Raise e.
Proof.
  intros self spaces Hsp Hall. split.
  - unfold get_flattened_obs_size. rewrite Hsp, dict_size_loop.
    replace (filter (fun kv => fst kv <> _ACTION_MASK) spaces) with (@nil (string * list nat));
      [reflexivity|].
    symmetry. clear Hsp. induction Hall as [|kv l Hkv _ IH]; [reflexivity|].
    rewrite filter_cons, decide_False by (intros Hc; now apply Hc). exact IH.
  - unfold forward, forward_input, get_flattened_obs. rewrite Hsp.
    assert (Hkeys : Forall (fun key => key = _ACTION_MASK) (map fst spaces))
      by (now apply Forall_fmap).
    destruct (collect_obs _OBSERVATIONS _ACTION_MASK (map fst spaces) [] self)
      as [[obs_dict|e] self'] eqn:Hc.
    + rewrite (collect_obs_all_mask _ _ _ _ _ Hkeys Hc). cbn. eauto.
    + cbn. eauto.
Qed.

(** X6: [get_flattened_obs] is not all-or-nothing.  When the action-mask
    entry comes first, its buffer is read and flattened, and reading the
    buffer of the next entry raises, the call raises and
    [self.action_mask] has already been replaced; and so for [forward]
    without [obs]. *)
Theorem get_flattened_obs_keeps_mask_on_error :
  forall self mask_shape key sh rest buf mask e,
    observation_space self = Dict ((_ACTION_MASK, mask_shape) :: (key, sh) :: rest) ->
    key <> _ACTION_MASK ->
    data_on_device_via_torch (env self) (obs_name _OBSERVATIONS self _ACTION_MASK) = Ok buf ->
    reshape_and_flatten_obs self buf = Ok mask ->
    data_on_device_via_torch (env self) (obs_name _OBSERVATIONS self key) = Raise e ->
    get_flattened_obs _OBSERVATIONS _ACTION_MASK self
      = (Raise e, set_action_mask (Some mask) self) /\
    forward _OBSERVATIONS _ACTION_MASK self None
      = (Raise e, set_action_mask (Some mask) self).
Proof.
  intros self msh key sh rest buf mask e Hsp Hne Hb Hm He.
  assert (Hg : get_flattened_obs _OBSERVATIONS _ACTION_MASK self
               = (Raise e, set_action_mask (Some mask) self)).
  { unfold get_flattened_obs. rewrite Hsp. cbn [map fst collect_obs].
    rewrite Hb, String.eqb_refl, Hm.
    change (env (set_action_mask (Some mask) self)) with (env self).
    change (obs_name _OBSERVATIONS (set_action_mask (Some mask) self) key)
      with (obs_name _OBSERVATIONS self key).
    now rewrite He. }
  split; [exact Hg|]. unfold forward, forward_input. now rewrite Hg.
Qed.

(** X7: [forward] and [get_flattened_obs] assign no attribute of [self]
    other than [action_mask], also when they raise; and they leave
    [self] as it is unless the observation space is a [Dict] with the
    action-mask entry. *)
Theorem forward_assigns_action_mask_only :
  (forall self obs,
      exists m, snd (forward _OBSERVATIONS _ACTION_MASK self obs) = set_action_mask m self) /\
  (forall self,
      exists m, snd (get_flattened_obs _OBSERVATIONS _ACTION_MASK self) = set_action_mask m self) /\
  (forall self,
      (forall spaces, observation_space self = Dict spaces -> _ACTION_MASK ∉ map fst spaces) ->
      snd (get_flattened_obs _OBSERVATIONS _ACTION_MASK self) = self /\
      forall obs, snd (forward _OBSERVATIONS _ACTION_MASK self obs) = self).
Proof.
  split; [intros; apply forward_frame|]. split; [intros; apply get_flattened_obs_frame|].
  intros self Hno.
  assert (Hg : snd (get_flattened_obs _OBSERVATIONS _ACTION_MASK self) = self).
  { unfold get_flattened_obs.
    destruct (observation_space self) as [sh|n|nvec|n|spaces] eqn:Hsp; try reflexivity.
    pose proof (collect_obs_no_mask _OBSERVATIONS _ACTION_MASK (map fst spaces) [] self
                  (Hno spaces eq_refl)) as Hc.
    destruct (collect_obs _ _ _ _ _) as [[obs_dict|e] self']; cbn [snd] in *; exact Hc. }
  split; [exact Hg|].
  intros [obs|]; [reflexivity|]. unfold forward, forward_input.
  destruct (get_flattened_obs _ _ _) as [[t|e] self']; cbn [snd] in Hg; subst self';
    [|reflexivity].
  destruct (negb _ && negb _); [|reflexivity].
  destruct (bind _ _); reflexivity.
Qed.

End Assembly.

Lemma get_flattened_obs_width_witness :
  exists t self',
    get_flattened_obs Example.OBSERVATIONS Example.ACTION_MASK Example.masked_net
      = (Ok t, self') /\
    shape t = [1; 1; 1] /\
    get_flattened_obs_size Example.ACTION_MASK Example.masked_net = Ok 1.
Proof.
  destruct (get_flattened_obs_width Example.OBSERVATIONS Example.ACTION_MASK
              Example.masked_net 1 1) as [_ H]; [reflexivity | lia | lia |].
  destruct (H [("action_mask", [2]); ("x", [1])]) as (t & self' & F & Hg & Hs & HF).
  - reflexivity.
  - right. left. discriminate.
  - repeat constructor.
    + exists (mkTensor [1; 1; 2] [1; 0]%R). split; [reflexivity|]. left. split; reflexivity.
    + exists (mkTensor [1; 1; 1] [0]%R). split; [reflexivity|]. left. split; reflexivity.
  - exists t, self'. injection HF as <-. repeat split; assumption.
Defined.

Lemma get_flattened_obs_mask_only_witness :
  exists e,
    fst (get_flattened_obs Example.OBSERVATIONS Example.ACTION_MASK
           (Example.net_of
              (Example.env_of 1 (Dict [("action_mask", [2])]) (Discrete 2) Example.first_batch)
              [0] "first" (Dict [("action_mask", [2])]) 0 None)) = Raise e.
Proof.
  destruct (get_flattened_obs_mask_only Example.OBSERVATIONS Example.ACTION_MASK
              (Example.net_of
                 (Example.env_of 1 (Dict [("action_mask", [2])]) (Discrete 2) Example.first_batch)
                 [0] "first" (Dict [("action_mask", [2])]) 0 None)
              [("action_mask", [2])] eq_refl) as (_ & e & He & _).
  - repeat constructor.
  - exists e. exact He.
Defined.

Lemma get_flattened_obs_keeps_mask_on_error_witness :
  action_mask
    (snd (get_flattened_obs Example.OBSERVATIONS Example.ACTION_MASK
            (Example.net_of
               (Example.env_of 1 Example.mask_space (Discrete 2)
                  {[ "observations_action_mask" := mkTensor [1; 1; 2] [1; 0]%R ]})
               [0] "first" Example.mask_space 1 None)))
  = Some (mkTensor [1; 1; 2] [1; 0]%R).
Proof.
  destruct (get_flattened_obs_keeps_mask_on_error Example.OBSERVATIONS Example.ACTION_MASK
              (Example.net_of
                 (Example.env_of 1 Example.mask_space (Discrete 2)
                    {[ "observations_action_mask" := mkTensor [1; 1; 2] [1; 0]%R ]})
                 [0] "first" Example.mask_space 1 None)
              [2] "x" [1] [] (mkTensor [1; 1; 2] [1; 0]%R) (mkTensor [1; 1; 2] [1; 0]%R) KeyError)
    as [Hg _]; [reflexivity | discriminate | reflexivity | reflexivity | reflexivity |].
  rewrite Hg. reflexivity.
Defined.

Lemma forward_assigns_action_mask_only_witness :
  snd (forward Example.OBSERVATIONS Example.ACTION_MASK
         (Example.net_of
            (Example.env_of 2 (Box [1]) (Discrete 2)
               {[ "observations" := mkTensor [1; 2; 1] [7; 9]%R ]})
            [1] "first" (Box [1]) 1 None) None)
  = Example.net_of
      (Example.env_of 2 (Box [1]) (Discrete 2)
         {[ "observations" := mkTensor [1; 2; 1] [7; 9]%R ]})
      [1] "first" (Box [1]) 1 None.
Proof.
  destruct (forward_assigns_action_mask_only Example.OBSERVATIONS Example.ACTION_MASK)
    as (_ & _ & H).
  destruct (H (Example.net_of
                 (Example.env_of 2 (Box [1]) (Discrete 2)
                    {[ "observations" := mkTensor [1; 2; 1] [7; 9]%R ]})
                 [1] "first" (Box [1]) 1 None)) as [_ Hf].
  - intros spaces Hsp. discriminate Hsp.
  - apply Hf.
Defined.

(** ** More on the constructor *)

Section ConstructionMore.

Variable _ACTION_MASK : string.

Lemma new_heads_ok (p : nat -> nat -> R) (n h : nat) (space : list nat) : forall b,
  exists heads,
    mapR (fun '(idx, act_space) =>
            last_fc <- Ok h ;; Ok (nn.new_Linear (p (n + idx)) last_fc act_space))
         (imap (fun idx act_space => (b + idx, act_space)) space) = Ok heads.
Proof.
  induction space as [|o space IH]; intros b; [cbn; eauto|].
  destruct (IH (S b)) as [heads Hh].
  rewrite imap_cons.
  rewrite (imap_ext (_ ∘ S) (fun idx act_space => (S b + idx, act_space))).
  2:{ intros i x _. cbn. f_equal. lia. }
  cbn [mapR]. rewrite Hh. cbn. eauto.
Qed.

(** From line 60 on the constructor gets through exactly when the agent
    dimension is "first" or "last", the policy has a first agent whose
    observation space is a [Box] or a [Dict] and whose action space is a
    [Discrete] or a [MultiDiscrete], and the list [fc_dims] is not
    empty. *)
Lemma init_ok_iff :
  forall a,
    (exists self, __init__ _ACTION_MASK a = Ok self) <->
    (arg_obs_dim_corresponding_to_num_agents a ∈ ["first"; "last"] /\
     (exists osp, sample_observation_space a = Ok osp /\ is_Box_or_Dict osp = true) /\
     (exists asp, sample_action_space a = Ok asp /\ is_Discrete_or_MultiDiscrete asp = true) /\
     fc_dims (arg_model_config a) <> []).
Proof.
  intros a. unfold __init__, sample_observation_space, sample_action_space. split.
  - intros [self H].
    destruct (bool_decide _) eqn:Hdim; cbn [negb] in H; [|discriminate H].
    apply bool_decide_eq_true in Hdim.
    inv_bind H. inv_bind H. inv_bind H. inv_bind H. inv_bind H. inv_bind H.
    inv_bind H. inv_bind H. cbn [bind]. rewrite E0. cbn [bind]. rewrite E1, E3.
    split; [exact Hdim|]. split; [|split].
    + exists a2. split; [reflexivity|].
      unfold get_flattened_obs_size in E2. cbn [observation_space] in E2.
      now destruct a2.
    + exists a4. split; [reflexivity|]. now destruct a4.
    + intros Hnil. rewrite Hnil in E6. discriminate E6.
  - intros (Hdim & (osp & Hosp & Hob) & (asp & Hasp & Hab) & Hne).
    rewrite bool_decide_eq_true_2 by exact Hdim. cbn [negb].
    destruct (dict_lookup (arg_policy_tag_to_agent_id_map a) (arg_policy a)) as [ids|e];
      [cbn [bind] in *|discriminate Hosp].
    destruct (list_head ids) as [sample|e]; [cbn [bind] in *|discriminate Hosp].
    rewrite Hosp, Hasp. cbn [bind].
    assert (Hsz : exists fsz, forall s,
               observation_space s = osp -> get_flattened_obs_size _ACTION_MASK s = Ok fsz).
    { unfold get_flattened_obs_size.
      destruct osp; try discriminate Hob; eexists; intros s ->; reflexivity. }
    destruct Hsz as [fsz Hsz]. erewrite Hsz by reflexivity. cbn [bind].
    assert (Hsp : exists space,
               match asp with
               | Discrete n => Ok [n]
               | MultiDiscrete nvec => Ok nvec
               | _ => Raise (NotImplementedError "")
               end = Ok space).
    { destruct asp; try discriminate Hab; eauto. }
    destruct Hsp as [space ->]. cbn [bind].
    destruct (rev (fc_dims (arg_model_config a))) as [|h r] eqn:Hr.
    { exfalso. apply Hne. apply (f_equal (@rev nat)) in Hr.
      now rewrite rev_involutive in Hr. }
    cbn [list_head].
    destruct (new_heads_ok (params a) (length (fc_dims (arg_model_config a))) h space 0)
      as [heads Hh].
    cbn [Nat.add] in Hh. rewrite Hh. cbn [bind]. eauto.
Qed.

(** X8: when the constructor returns an instance.  [FullyConnected(...)]
    returns one exactly when [model_config] has the key "fc_dims" with a
    list of layer sizes that is not empty, the agent dimension is
    "first" or "last", and the policy has a first agent whose
    observation space is a [Box] or a [Dict] and whose action space is a
    [Discrete] or a [MultiDiscrete].  Without the key it raises
    [KeyError], and for a value that is not a list, a tuple say, it
    raises [AssertionError], whatever the other arguments are. *)
Theorem new_FullyConnected_succeeds_iff :
  forall env model_config policy policy_map separate dim params,
    ((exists self,
         new_FullyConnected _ACTION_MASK env model_config policy policy_map separate dim params
         = Ok self) <->
     (exists fc_dims,
         model_config !! "fc_dims" = Some (PyList fc_dims) /\ fc_dims <> [] /\
         dim ∈ ["first"; "last"] /\
         let a := mkInitArgs env (mkModelConfig fc_dims) policy policy_map separate dim params in
         (exists osp, sample_observation_space a = Ok osp /\ is_Box_or_Dict osp = true) /\
         (exists asp, sample_action_space a = Ok asp /\
                      is_Discrete_or_MultiDiscrete asp = true))) /\
    (model_config !! "fc_dims" = None ->
     new_FullyConnected _ACTION_MASK env model_config policy policy_map separate dim params
     = Raise KeyError) /\
    (forall v, model_config !! "fc_dims" = Some v -> (forall l, v <> PyList l) ->
     new_FullyConnected _ACTION_MASK env model_config policy policy_map separate dim params
     = Raise AssertionError).
Proof.
  intros env model_config policy policy_map separate dim params.
  unfold new_FullyConnected, dict_lookup.
  destruct (model_config !! "fc_dims") as [[l|l|]|] eqn:Hmc; cbn [bind].
  - split; [|split]; [|discriminate|intros v [= <-] Hv; now destruct (Hv l)].
    rewrite init_ok_iff. cbn [arg_obs_dim_corresponding_to_num_agents arg_model_config fc_dims].
    split.
    + intros (Hdim & Hosp & Hasp & Hne). exists l. repeat split; assumption.
    + intros (l' & [= <-] & Hne & Hdim & Hosp & Hasp). repeat split; assumption.
  - split; [|split]; [|discriminate|reflexivity].
    split; [intros [self H]; discriminate H|].
    intros (l' & H & _). discriminate H.
  - split; [|split]; [|discriminate|reflexivity].
    split; [intros [self H]; discriminate H|].
    intros (l' & H & _). discriminate H.
  - split; [|split]; [|reflexivity|discriminate].
    split; [intros [self H]; discriminate H|].
    intros (l' & H & _). discriminate H.
Qed.

(** X9: what the constructor raises when it was not given what it needs,
    in the order of its checks: [AssertionError] for an agent dimension
    other than "first" and "last"; then [KeyError] for a policy without
    an entry in the agent map and [IndexError] for one with no agent;
    and, when the spaces are supported, [IndexError] for an empty
    [fc_dims]. *)
Theorem init_errors :
  forall a,
    (arg_obs_dim_corresponding_to_num_agents a ∉ ["first"; "last"] ->
     __init__ _ACTION_MASK a = Raise AssertionError) /\
    (arg_obs_dim_corresponding_to_num_agents a ∈ ["first"; "last"] ->
     (arg_policy_tag_to_agent_id_map a !! arg_policy a = None ->
      __init__ _ACTION_MASK a = Raise KeyError) /\
     (arg_policy_tag_to_agent_id_map a !! arg_policy a = Some [] ->
      __init__ _ACTION_MASK a = Raise IndexError) /\
     (forall osp asp,
         sample_observation_space a = Ok osp -> is_Box_or_Dict osp = true ->
         sample_action_space a = Ok asp -> is_Discrete_or_MultiDiscrete asp = true ->
         fc_dims (arg_model_config a) = [] ->
         __init__ _ACTION_MASK a = Raise IndexError)).
Proof.
  intros a. unfold __init__. split.
  - intros Hdim. now rewrite bool_decide_eq_false_2 by exact Hdim.
  - intros Hdim. rewrite bool_decide_eq_true_2 by exact Hdim. cbn [negb].
    split; [|split].
    + intros Hnone. unfold dict_lookup. now rewrite Hnone.
    + intros Hnil. unfold dict_lookup. now rewrite Hnil.
    + intros osp asp Hosp Hob Hasp Hab Hnil.
      unfold sample_observation_space, sample_action_space in Hosp, Hasp.
      unfold dict_lookup in *.
      destruct (arg_policy_tag_to_agent_id_map a !! arg_policy a) as [ids|];
        [cbn [bind] in *|discriminate Hosp].
      destruct (list_head ids) as [sample|e]; [cbn [bind] in *|discriminate Hosp].
      destruct (env_observation_space (arg_env a) !! sample) as [osp'|];
        [|discriminate Hosp].
      apply Ok_inj in Hosp. subst osp'.
      destruct (env_action_space (arg_env a) !! sample) as [asp'|]; [|discriminate Hasp].
      apply Ok_inj in Hasp. subst asp'. cbn [bind].
      rewrite Hnil. unfold get_flattened_obs_size. cbn [observation_space].
      destruct asp as [sh' | n | nvec | n | spaces']; try discriminate Hab;
        destruct osp; try discriminate Hob; cbn [bind imap mapR rev list_head];
        try reflexivity; destruct nvec; reflexivity.
Qed.

Lemma layer_dims_new_Linear theta i o : layer_dims (nn.new_Linear theta i o) = (i, o).
Proof. reflexivity. Qed.

Lemma new_Linear_well_formed theta i o : linear_well_formed (nn.new_Linear theta i o).
Proof.
  unfold linear_well_formed, torch.well_formed. cbn.
  rewrite !length_map, !length_seq. repeat split; lia.
Qed.

Lemma new_trunk_dims dims : forall (p : nat -> nat -> R) inp,
  map layer_dims
    (map (fun k => nn.new_Linear (p k) (nth k (inp :: removelast dims) 0) (nth k dims 0))
         (seq 0 (length dims)))
  = zip (inp :: removelast dims) dims.
Proof.
  induction dims as [|d dims IH]; intros p inp; [reflexivity|].
  rewrite new_trunk_cons. cbn [map]. rewrite layer_dims_new_Linear.
  rewrite (IH (fun k => p (S k)) d).
  destruct dims as [|d' dims]; reflexivity.
Qed.

Lemma new_heads_eq (p : nat -> nat -> R) (n h : nat) (space : list nat) : forall b heads,
  mapR (fun '(idx, act_space) =>
          last_fc <- Ok h ;; Ok (nn.new_Linear (p (n + idx)) last_fc act_space))
       (imap (fun idx act_space => (b + idx, act_space)) space) = Ok heads ->
  heads = imap (fun idx o => nn.new_Linear (p (n + (b + idx))) h o) space.
Proof.
  induction space as [|o space IH]; intros b heads H.
  - cbn in H. now apply Ok_inj in H.
  - rewrite imap_cons in H.
    rewrite (imap_ext (_ ∘ S) (fun idx act_space => (S b + idx, act_space))) in H.
    2:{ intros i x _. cbn. f_equal. lia. }
    cbn [mapR] in H.
    destruct (mapR _ (imap _ space)) as [hs|e] eqn:E; [|discriminate H].
    cbn in H. apply Ok_inj in H. subst heads.
    rewrite imap_cons. f_equal. rewrite (IH (S b) hs E).
    apply imap_ext. intros i x _. cbn. do 2 f_equal. lia.
Qed.

(** X10: what the constructor builds.  The instance keeps the arguments,
    has fast-forward off and no mask; its trunk has one layer per entry
    of [fc_dims], the first taking the flattened observation size and
    each next one the width before it; it has one policy head per action
    dimension, with as many outputs as the dimension has actions, and a
    value head with one output, all on the last trunk width; and the
    parameters of every layer have the shapes of their sizes. *)
Theorem init_builds :
  forall a self,
    __init__ _ACTION_MASK a = Ok self ->
    env self = arg_env a /\ policy self = arg_policy a /\
    policy_tag_to_agent_id_map self = arg_policy_tag_to_agent_id_map a /\
    create_separate_placeholders_for_each_policy self
      = arg_create_separate_placeholders_for_each_policy a /\
    obs_dim_corresponding_to_num_agents self = arg_obs_dim_corresponding_to_num_agents a /\
    fast_forward_mode self = false /\ action_mask self = None /\
    sample_observation_space a = Ok (observation_space self) /\
    exists flattened_obs_size action_space,
      get_flattened_obs_size _ACTION_MASK self = Ok flattened_obs_size /\
      match sample_action_space a with
      | Ok (Discrete n) => action_space = [n]
      | Ok (MultiDiscrete nvec) => action_space = nvec
      | _ => False
      end /\
      map layer_dims (fc self)
        = zip (flattened_obs_size :: removelast (fc_dims (arg_model_config a)))
              (fc_dims (arg_model_config a)) /\
      map layer_dims (policy_head self)
        = map (fun n => (List.last (fc_dims (arg_model_config a)) 0, n)) action_space /\
      layer_dims (vf_head self) = (List.last (fc_dims (arg_model_config a)) 0, 1) /\
      Forall linear_well_formed (fc self ++ policy_head self ++ [vf_head self]).
Proof.
  unfold __init__, sample_action_space, sample_observation_space. intros a self H.
  destruct (bool_decide _) eqn:Hdim; cbn [negb] in H; [|discriminate H].
  inv_bind H. inv_bind H. inv_bind H. inv_bind H. inv_bind H. inv_bind H.
  inv_bind H. inv_bind H.
  set (FC := map _ (seq 0 _)) in H.
  apply Ok_inj in H. rewrite <- H. clear H.
  cbn [env policy policy_tag_to_agent_id_map create_separate_placeholders_for_each_policy
       obs_dim_corresponding_to_num_agents fast_forward_mode
       action_mask observation_space fc policy_head vf_head bind].
  rewrite E0. cbn [bind]. rewrite E1, E3.
  repeat (split; [done|]).
  exists a3, a5.
  assert (Hlast : List.last (fc_dims (arg_model_config a)) 0 = a7).
  { destruct (rev (fc_dims (arg_model_config a))) as [|x r] eqn:Hr; [discriminate E6|].
    apply Ok_inj in E6. subst x.
    apply (f_equal (@rev nat)) in Hr. rewrite rev_involutive in Hr. rewrite Hr.
    cbn [rev]. apply last_last. }
  pose proof (new_heads_eq _ _ _ _ 0 _ E5) as Hheads. cbn [Nat.add] in Hheads.
  repeat split.
  - exact E2.
  - destruct a4; try discriminate E4; now apply Ok_inj in E4.
  - apply new_trunk_dims.
  - rewrite Hheads, Hlast. clear. generalize (length (fc_dims (arg_model_config a))) as n.
    induction a5 as [|o space IH]; intros n; [reflexivity|].
    rewrite imap_cons. cbn [map]. f_equal.
    rewrite (imap_ext (_ ∘ S) (fun idx o => nn.new_Linear (params a (S n + idx)) a7 o)).
    + apply IH.
    + intros i x _. cbn. do 2 f_equal. lia.
  - now rewrite Hlast.
  - rewrite !Forall_app. repeat split.
    + subst FC. apply Forall_forall. intros l Hl.
      apply list_elem_of_fmap in Hl as (k & -> & _). apply new_Linear_well_formed.
    + rewrite Hheads. apply Forall_forall. intros l Hl.
      apply list_elem_of_lookup in Hl as [i Hi].
      rewrite list_lookup_imap in Hi.
      destruct (a5 !! i); [|discriminate Hi]. cbn in Hi. injection Hi as <-.
      apply new_Linear_well_formed.
    + repeat constructor; apply new_Linear_well_formed.
Qed.

End ConstructionMore.

Lemma new_FullyConnected_succeeds_iff_witness :
  (exists self,
      new_FullyConnected Example.ACTION_MASK
        (Example.env_of 2 (Box [2]) (MultiDiscrete [4; 3]) ∅)
        {[ "fc_dims" := PyList [8; 4] ]} "p" {[ "p" := [0; 1] ]} false "first"
        (fun _ _ => 0%R) = Ok self) /\
  new_FullyConnected Example.ACTION_MASK
    (Example.env_of 2 (Box [2]) (MultiDiscrete [4; 3]) ∅)
    {[ "fc_dims" := PyTuple [8; 4] ]} "p" {[ "p" := [0; 1] ]} false "first"
    (fun _ _ => 0%R) = Raise AssertionError /\
  new_FullyConnected Example.ACTION_MASK
    (Example.env_of 2 (Box [2]) (MultiDiscrete [4; 3]) ∅)
    ∅ "p" {[ "p" := [0; 1] ]} false "first" (fun _ _ => 0%R) = Raise KeyError.
Proof.
  split; [|split].
  - apply (new_FullyConnected_succeeds_iff Example.ACTION_MASK).
    exists [8; 4]. split; [reflexivity|]. split; [discriminate|]. split; [left|].
    split.
    + exists (Box [2]). split; reflexivity.
    + exists (MultiDiscrete [4; 3]). split; reflexivity.
  - apply (new_FullyConnected_succeeds_iff Example.ACTION_MASK) with (v := PyTuple [8; 4]);
      [reflexivity|discriminate].
  - apply (new_FullyConnected_succeeds_iff Example.ACTION_MASK). reflexivity.
Defined.

Lemma init_errors_witness :
  __init__ Example.ACTION_MASK
    (Example.args_of (Example.env_of 2 (Box [2]) (Discrete 2) ∅) [0; 1] "middle")
  = Raise AssertionError /\
  __init__ Example.ACTION_MASK
    (Example.args_of (Example.env_of 2 (Box [2]) (Discrete 2) ∅) [] "first")
  = Raise IndexError.
Proof.
  split.
  - apply (init_errors Example.ACTION_MASK).
    intros H. apply elem_of_cons in H as [H|H]; [discriminate H|].
    apply list_elem_of_singleton in H. discriminate H.
  - destruct (init_errors Example.ACTION_MASK
                (Example.args_of (Example.env_of 2 (Box [2]) (Discrete 2) ∅) [] "first"))
      as [_ H].
    destruct H as (_ & H & _); [left|]. apply H. reflexivity.
Defined.

Lemma init_builds_witness :
  exists self,
    __init__ Example.ACTION_MASK
      (Example.args_of (Example.env_of 2 (Box [2]) (MultiDiscrete [4; 3]) ∅) [0; 1] "first")
    = Ok self /\
    map layer_dims (fc self) = [(2, 1)] /\
    map layer_dims (policy_head self) = [(1, 4); (1, 3)] /\
    layer_dims (vf_head self) = (1, 1).
Proof.
  eexists.
  assert (Hinit : __init__ Example.ACTION_MASK
      (Example.args_of (Example.env_of 2 (Box [2]) (MultiDiscrete [4; 3]) ∅) [0; 1] "first")
    = Ok ?[self]) by reflexivity.
  destruct (init_builds Example.ACTION_MASK _ _ Hinit)
    as (_ & _ & _ & _ & _ & _ & _ & _ & fsz & space & Hsz & Hsp & Hfc & Hph & Hvf & _).
  vm_compute in Hsp. subst space. apply Ok_inj in Hsz. subst fsz.
  repeat split; assumption.
Defined.

(** ** The mask and the probabilities *)

Section MaskedProbabilities.

Import torch.
Local Open Scope R_scope.

Lemma nth_zip_with {A B C} (f : A -> B -> C) (a : A) (b : B) (c : C) :
  forall l k i, (i < length l)%nat -> (i < length k)%nat ->
  nth i (zip_with f l k) c = f (nth i l a) (nth i k b).
Proof.
  induction l as [|x l IH]; intros [|y k] [|i] Hl Hk; cbn in *; try lia; try reflexivity.
  apply IH; lia.
Qed.

Lemma nth_softmax_row xs i :
  (i < length xs)%nat ->
  nth i (F.softmax_row xs) 0 = exp (nth i xs 0) / sum_R (map exp xs).
Proof.
  intros Hi. unfold F.softmax_row.
  rewrite (nth_indep _ 0 (exp 0 / sum_R (map exp xs))) by now rewrite length_map.
  apply (map_nth (fun x => exp x / sum_R (map exp xs))).
Qed.

Lemma exp_le_sum_R xs : forall i,
  (i < length xs)%nat -> exp (nth i xs 0) <= sum_R (map exp xs).
Proof.
  induction xs as [|x xs IH]; intros [|i] Hi; cbn [length] in Hi; try lia;
    cbn [map nth]; rewrite sum_R_cons.
  - destruct xs as [|y xs]; [cbn [map]; rewrite sum_R_nil; lra|].
    pose proof (sum_R_exp_pos (y :: xs) ltac:(discriminate)). lra.
  - pose proof (IH i ltac:(lia)). pose proof (exp_pos x). lra.
Qed.

Lemma row_zip_with (f : R -> R -> R) sh d1 d2 r :
  row (mkTensor sh (zip_with f d1 d2)) r
  = zip_with f (row (mkTensor sh d1) r) (row (mkTensor sh d2) r).
Proof. unfold row. cbn [shape data]. now rewrite zip_with_drop, zip_with_take. Qed.

(** X11: how far the mask suppresses an action.  For logits and a mask of
    the same shape, in a row where action [i] is masked out (mask 0) and
    action [j] is allowed (mask 1), the masked soft-max gives [i] a
    probability of at most [exp (l_i - l_j - 1e7)], where [l] are the
    logits of the row. *)
Theorem masked_action_probability_bound :
  forall logits mask r i j,
    well_formed logits -> well_formed mask -> shape mask = shape logits ->
    (r < num_rows logits)%nat ->
    (i < last_dim (shape logits))%nat -> (j < last_dim (shape logits))%nat ->
    nth i (row mask r) 0 = 0 -> nth j (row mask r) 0 = 1 ->
    exists masked,
      apply_logit_mask logits (Some mask) = Ok masked /\
      let p := row (F.softmax masked) r in
      let bound := exp (nth i (row logits r) 0 - nth j (row logits r) 0 - 10000000) in
      0 <= nth i p 0 <= bound.
Proof.
  intros logits mask r i j Hl Hm Hs Hr Hi Hj Hmi Hmj.
  eexists. split; [now apply apply_logit_mask_same_shape|].
  set (g := fun l m : R => l + -10000000 * (1 - m)).
  set (masked := mkTensor _ _).
  assert (Hwf : well_formed masked).
  { unfold well_formed in *. subst masked. cbn [shape data].
    rewrite length_zip_with. rewrite Hs in Hm. lia. }
  assert (Hrow : row masked r = zip_with g (row logits r) (row mask r)).
  { subst masked. rewrite row_zip_with. f_equal.
    unfold row. cbn [shape data]. now rewrite Hs. }
  assert (Hrm : (r < num_rows masked)%nat) by exact Hr.
  assert (Hll : length (row logits r) = last_dim (shape logits)) by now apply row_length.
  assert (Hlm : length (row mask r) = last_dim (shape logits)).
  { rewrite <- Hs. apply row_length; [exact Hm|]. unfold num_rows. now rewrite Hs. }
  assert (Hlen : length (row masked r) = last_dim (shape logits)).
  { rewrite Hrow, length_zip_with. lia. }
  cbv zeta. rewrite row_softmax by assumption.
  rewrite !nth_softmax_row by lia.
  assert (Hxi : nth i (row masked r) 0 = nth i (row logits r) 0 - 10000000).
  { rewrite Hrow, (nth_zip_with g 0 0) by lia. subst g. cbv beta. rewrite Hmi. ring. }
  assert (Hxj : nth j (row masked r) 0 = nth j (row logits r) 0).
  { rewrite Hrow, (nth_zip_with g 0 0) by lia. subst g. cbv beta. rewrite Hmj. ring. }
  assert (Hpos : 0 < sum_R (map exp (row masked r))).
  { apply sum_R_exp_pos. intros E. rewrite E in Hlen. cbn in Hlen. lia. }
  pose proof (exp_le_sum_R (row masked r) j ltac:(lia)) as Hle.
  set (S := sum_R _) in *.
  replace (nth i (row logits r) 0 - nth j (row logits r) 0 - 10000000)
    with (nth i (row masked r) 0 - nth j (row masked r) 0) by (rewrite Hxi, Hxj; ring).
  set (xi := nth i (row masked r) 0) in *. set (xj := nth j (row masked r) 0) in *.
  assert (Hexp : exp xi = exp xj * exp (xi - xj)).
  { rewrite <- exp_plus. f_equal. ring. }
  pose proof (exp_pos xi). pose proof (exp_pos xj). pose proof (exp_pos (xi - xj)).
  split.
  - apply Rlt_le, Rdiv_lt_0_compat; lra.
  - rewrite Hexp. unfold Rdiv. rewrite Rmult_assoc, (Rmult_comm (exp (xi - xj))), <- Rmult_assoc.
    rewrite <- (Rmult_1_l (exp (xi - xj))) at 2.
    apply Rmult_le_compat_r; [lra|].
    apply (Rmult_le_reg_r S); [lra|]. rewrite Rmult_assoc, Rinv_l by lra. lra.
Qed.

End MaskedProbabilities.

Lemma masked_action_probability_bound_witness :
  exists masked,
    apply_logit_mask (mkTensor [1; 2] [3; 5]%R) (Some (mkTensor [1; 2] [0; 1]%R)) = Ok masked /\
    let logits := mkTensor [1; 2] [3; 5]%R in
    let p := torch.row (F.softmax masked) 0 in
    let bound :=
      exp (nth 0 (torch.row logits 0) 0 - nth 1 (torch.row logits 0) 0 - 10000000)%R in
    (0 <= nth 0 p 0 <= bound)%R.
Proof.
  apply (masked_action_probability_bound (mkTensor [1; 2] [3; 5]%R) (mkTensor [1; 2] [0; 1]%R)
           0 0 1);
    try reflexivity; cbn; lia.
Defined.

(** ** The fast-forward mode *)

Section Chunks.

Import torch.

Lemma flat_map_shift {A} (f : nat -> list A) b n :
  flat_map f (seq (S b) n) = flat_map (fun k => f (S k)) (seq b n).
Proof. rewrite <- seq_shift. rewrite !flat_map_concat_map, map_map. reflexivity. Qed.

Lemma flat_map_ext_seq {A} (f g : nat -> list A) n :
  (forall k, k < n -> f k = g k) -> flat_map f (seq 0 n) = flat_map g (seq 0 n).
Proof.
  intros H. rewrite !flat_map_concat_map. f_equal. apply map_ext_in.
  intros k Hk%in_seq. apply H. lia.
Qed.

(** Cutting a list into [n] chunks of length [L] and joining them. *)
Lemma flat_map_chunks {A} (L : nat) : forall n (d : list A),
  length d = n * L ->
  flat_map (fun k => firstn L (skipn (k * L) d)) (seq 0 n) = d.
Proof.
  induction n as [|n IH]; intros d Hd.
  - destruct d; [reflexivity|cbn in Hd; lia].
  - cbn [seq flat_map]. rewrite flat_map_shift.
    rewrite (flat_map_ext_seq _ (fun k => firstn L (skipn (k * L) (skipn L d)))).
    + rewrite IH by (rewrite length_drop; lia). cbn [Nat.mul]. apply take_drop.
    + intros k _. rewrite drop_drop. do 2 f_equal; lia.
Qed.

(** Selecting every index of axis 1, in order, gives the tensor back. *)
Lemma index_axis1_all t e n rest :
  shape t = e :: n :: rest -> well_formed t -> index_axis1 t (seq 0 n) = Ok t.
Proof.
  intros Hs Hwf. unfold index_axis1. rewrite Hs.
  assert (Hall : forallb (fun i => i <? n) (seq 0 n) = true).
  { apply forallb_forall. intros x Hx%in_seq. apply Nat.ltb_lt. lia. }
  rewrite Hall. f_equal. destruct t as [sh d]. cbn [shape data] in *. subst sh.
  rewrite length_seq. f_equal.
  unfold well_formed in Hwf. cbn [shape data] in Hwf. rewrite !numel_cons in Hwf.
  set (blk := numel rest) in *.
  transitivity (flat_map (fun b => firstn (n * blk) (skipn (b * (n * blk)) d)) (seq 0 e));
    [|apply flat_map_chunks; lia].
  apply flat_map_ext_seq. intros b Hb.
  set (d' := firstn (n * blk) (skipn (b * (n * blk)) d)).
  assert (Hd' : length d' = n * blk).
  { subst d'. rewrite length_take, length_drop. nia. }
  etransitivity; [|apply (flat_map_chunks blk n d' Hd')].
  apply flat_map_ext_seq. intros i Hi. subst d'.
  rewrite skipn_firstn_comm, take_take, drop_drop.
  replace (b * (n * blk) + i * blk) with ((b * n + i) * blk) by ring.
  f_equal. nia.
Qed.

Lemma length_cat_row ts r :
  Forall (fun t => well_formed t /\ r < num_rows t) ts ->
  length (flat_map (fun t => row t r) ts)
  = foldr Nat.add 0 (map (fun t => last_dim (shape t)) ts).
Proof.
  induction 1 as [|t ts [Hwf Hr] _ IH]; [reflexivity|].
  cbn [flat_map map foldr]. rewrite length_app, IH, row_length by assumption. reflexivity.
Qed.

(** [torch.cat] of well-formed tensors is well-formed. *)
Lemma cat_well_formed ts out :
  Forall well_formed ts -> cat ts = Ok out -> well_formed out.
Proof.
  intros Hwf. unfold cat. destruct ts as [|t0 ts']; [discriminate|].
  set (ts := t0 :: ts') in *.
  destruct (forallb _ ts) eqn:Hall; [|discriminate].
  intros H. apply Ok_inj in H. subst out.
  unfold well_formed. cbn [shape data].
  rewrite numel_app.
  rewrite (length_flat_map_const _ (foldr Nat.add 0 (map (fun t => last_dim (shape t)) ts))).
  - rewrite length_seq. unfold num_rows. cbn [numel foldr]. lia.
  - intros r Hr%elem_of_seq. apply length_cat_row.
    rewrite forallb_forall in Hall. apply Forall_forall. intros t Ht.
    split; [now apply (proj1 (Forall_forall _ _) Hwf)|].
    apply list_elem_of_In in Ht. specialize (Hall t Ht).
    apply andb_true_iff in Hall as [_ Hlead]. apply bool_decide_eq_true in Hlead.
    unfold num_rows in *. rewrite Hlead. lia.
Qed.

End Chunks.

Section FastForward.

Variables (_OBSERVATIONS _ACTION_MASK : string).

Import torch.

Lemma mapR_Forall {A B} (f : A -> result B) (P : A -> Prop) (Q : B -> Prop) :
  (forall a b, P a -> f a = Ok b -> Q b) ->
  forall l l', Forall P l -> mapR f l = Ok l' -> Forall Q l'.
Proof.
  intros Hf. induction l as [|a l IH]; intros l' HP H; cbn [mapR] in H.
  - apply Ok_inj in H. subst l'. constructor.
  - inversion HP as [|? ? Ha Hl]; subst.
    destruct (f a) as [b|e] eqn:Eb; [|discriminate H]. cbn [bind] in H.
    destruct (mapR f l) as [bs|e] eqn:Ebs; [|discriminate H]. cbn [bind] in H.
    apply Ok_inj in H. subst l'. constructor; [now apply (Hf a)|now apply IH].
Qed.

Lemma data_on_device_well_formed e name t :
  (forall name t, cuda_data_manager e !! name = Some t -> well_formed t) ->
  data_on_device_via_torch e name = Ok t -> well_formed t.
Proof.
  intros Hst. unfold data_on_device_via_torch.
  destruct (cuda_data_manager e !! name) as [t'|] eqn:E; [|discriminate].
  intros H. apply Ok_inj in H. subst t'. now apply (Hst name).
Qed.

Lemma collect_obs_well_formed keys : forall acc self d self',
  (forall name t, cuda_data_manager (env self) !! name = Some t -> well_formed t) ->
  Forall (fun kv => well_formed (snd kv)) acc ->
  collect_obs _OBSERVATIONS _ACTION_MASK keys acc self = (Ok d, self') ->
  Forall (fun kv => well_formed (snd kv)) d.
Proof.
  induction keys as [|key keys IH]; intros acc self d self' Hst Hacc H; cbn [collect_obs] in H.
  - injection H as <- _. exact Hacc.
  - destruct (data_on_device_via_torch _ _) as [obs|e] eqn:Eo; [|discriminate H].
    destruct (String.eqb key _ACTION_MASK).
    + destruct (reshape_and_flatten_obs self obs) as [m|e]; [|discriminate H].
      apply (IH acc (set_action_mask (Some m) self) d self' Hst Hacc H).
    + apply (IH _ _ _ _ Hst) in H; [exact H|].
      apply Forall_app. split; [exact Hacc|]. repeat constructor.
      apply (data_on_device_well_formed _ _ _ Hst Eo).
Qed.

(** What [get_flattened_obs] returns from well-formed buffers. *)
Lemma get_flattened_obs_result self t self' :
  (forall name t, cuda_data_manager (env self) !! name = Some t -> well_formed t) ->
  get_flattened_obs _OBSERVATIONS _ACTION_MASK self = (Ok t, self') ->
  exists E N F, num_agents_of self = Ok N /\ shape t = [E; N; F] /\ well_formed t.
Proof.
  intros Hst. unfold get_flattened_obs.
  destruct (observation_space self) as [sh| | | |spaces]; try discriminate.
  - intros H. injection H as H _. inv_bind H.
    apply (data_on_device_well_formed _ _ _ Hst) in E.
    destruct (reshape_and_flatten_obs_inv _ _ _ E H) as (nE & N & F & _ & HN & Hs & _ & _ & Hwf & _).
    now exists nE, N, F.
  - destruct (collect_obs _ _ _ _ _) as [[d|e] s1] eqn:Ec; [|discriminate].
    intros H. injection H as H _. inv_bind H.
    destruct (collect_obs_frame _OBSERVATIONS _ACTION_MASK (map fst spaces) [] self) as [m Hm].
    rewrite Ec in Hm. cbn [snd] in Hm. subst s1.
    pose proof (collect_obs_well_formed _ _ _ _ _ Hst (List.Forall_nil _) Ec) as Hd.
    destruct (num_agents_of self) as [N|e] eqn:HN.
    2:{ destruct d as [|kv d]; [cbn in E; apply Ok_inj in E; subst a; discriminate H|].
        cbn [mapR] in E. unfold reshape_and_flatten_obs at 1 in E.
        destruct (list_head _); [|discriminate E]. cbn [bind] in E.
        change (num_agents_of (set_action_mask m self)) with (num_agents_of self) in E.
        rewrite HN in E. discriminate E. }
    assert (Hflat : Forall (fun f => well_formed f /\ exists nE F, shape f = [nE; N; F]) a).
    { apply (mapR_Forall _ (fun kv : string * Tensor => well_formed (snd kv)) _) with (3 := E);
        [|exact Hd].
      intros kv f Hkv Hf.
      destruct (reshape_and_flatten_obs_inv _ _ _ Hkv Hf)
        as (nE & N' & F & _ & HN' & Hs & _ & _ & Hwf & _).
      change (num_agents_of (set_action_mask m self)) with (num_agents_of self) in HN'.
      rewrite HN in HN'. apply Ok_inj in HN'. subst N'.
      split; [exact Hwf|]. now exists nE, F. }
    pose proof (cat_well_formed a t (Forall_impl _ _ _ Hflat (fun _ H => proj1 H)) H) as Hwf.
    unfold cat in H. destruct a as [|t0 ts]; [discriminate H|].
    destruct (forallb _ _); [|discriminate H]. apply Ok_inj in H. subst t.
    inversion Hflat as [|? ? [_ (nE & F & Hs)] _]; subst.
    exists nE, N, (foldr Nat.add 0 (map (fun t => last_dim (shape t)) (t0 :: ts))).
    split; [reflexivity|]. split; [|exact Hwf].
    cbn [shape]. rewrite Hs. reflexivity.
Qed.

Lemma collect_obs_fast_forward keys : forall acc self,
  collect_obs _OBSERVATIONS _ACTION_MASK keys acc (snd (set_fast_forward_mode self))
  = (fst (collect_obs _OBSERVATIONS _ACTION_MASK keys acc self),
     snd (set_fast_forward_mode (snd (collect_obs _OBSERVATIONS _ACTION_MASK keys acc self)))).
Proof.
  induction keys as [|key keys IH]; intros acc self; cbn [collect_obs]; [reflexivity|].
  change (env (snd (set_fast_forward_mode self))) with (env self).
  change (obs_name _OBSERVATIONS (snd (set_fast_forward_mode self)) key)
    with (obs_name _OBSERVATIONS self key).
  destruct (data_on_device_via_torch _ _) as [obs|e]; [|reflexivity].
  destruct (String.eqb key _ACTION_MASK).
  - change (reshape_and_flatten_obs (snd (set_fast_forward_mode self)) obs)
      with (reshape_and_flatten_obs self obs).
    destruct (reshape_and_flatten_obs self obs) as [m|e]; [|reflexivity].
    apply (IH acc (set_action_mask (Some m) self)).
  - apply IH.
Qed.

Lemma get_flattened_obs_fast_forward self :
  get_flattened_obs _OBSERVATIONS _ACTION_MASK (snd (set_fast_forward_mode self))
  = (fst (get_flattened_obs _OBSERVATIONS _ACTION_MASK self),
     snd (set_fast_forward_mode (snd (get_flattened_obs _OBSERVATIONS _ACTION_MASK self)))).
Proof.
  unfold get_flattened_obs.
  change (observation_space (snd (set_fast_forward_mode self))) with (observation_space self).
  destruct (observation_space self) as [sh| | | |spaces]; try reflexivity.
  rewrite collect_obs_fast_forward.
  destruct (collect_obs _ _ _ _ self) as [[d|e] s1]; reflexivity.
Qed.

(** X12: the fast-forward mode does not change what [forward()] returns
    when the policy's agents are all agents in order.  With well-formed
    buffers, and (unless each policy has its own placeholders) the agent
    list of the policy being [0, ..., n_agents - 1], a [forward()] after
    [set_fast_forward_mode()] gives the same result, or raises the same
    exception, as without it, and leaves the same instance but for the
    flag. *)
Theorem fast_forward_mode_same_result :
  forall self,
    (forall name t, cuda_data_manager (env self) !! name = Some t -> well_formed t) ->
    (create_separate_placeholders_for_each_policy self = false ->
     policy_tag_to_agent_id_map self !! policy self = Some (seq 0 (n_agents (env self)))) ->
    forward _OBSERVATIONS _ACTION_MASK (snd (set_fast_forward_mode self)) None
    = (fst (forward _OBSERVATIONS _ACTION_MASK self None),
       snd (set_fast_forward_mode (snd (forward _OBSERVATIONS _ACTION_MASK self None)))).
Proof.
  intros self Hst Hmap. unfold forward, forward_input.
  rewrite get_flattened_obs_fast_forward.
  destruct (get_flattened_obs_frame _OBSERVATIONS _ACTION_MASK self) as [m Hm].
  destruct (get_flattened_obs _ _ self) as [[t|e] s1] eqn:Hg; cbn [fst snd]; [|reflexivity].
  cbn [snd] in Hm. subst s1.
  change (fast_forward_mode (snd (set_fast_forward_mode (set_action_mask m self)))) with true.
  cbn [negb andb].
  change (fast_forward_mode (set_action_mask m self)) with (fast_forward_mode self).
  change (create_separate_placeholders_for_each_policy (set_action_mask m self))
    with (create_separate_placeholders_for_each_policy self).
  destruct (negb (fast_forward_mode self) && negb _) eqn:Hsel; [|reflexivity].
  apply andb_true_iff in Hsel as [_ Hsep]. apply negb_true_iff in Hsep.
  change (policy_tag_to_agent_id_map (set_action_mask m self))
    with (policy_tag_to_agent_id_map self).
  change (policy (set_action_mask m self)) with (policy self).
  unfold dict_lookup. rewrite (Hmap Hsep). cbn [bind].
  destruct (get_flattened_obs_result _ _ _ Hst Hg) as (nE & N & F & HN & Hs & Hwf).
  unfold num_agents_of in HN. rewrite Hsep in HN. apply Ok_inj in HN. subst N.
  rewrite (index_axis1_all t _ _ _ Hs Hwf). reflexivity.
Qed.

End FastForward.

Lemma fast_forward_mode_same_result_witness :
  forward Example.OBSERVATIONS Example.ACTION_MASK
    (snd (set_fast_forward_mode Example.masked_net)) None
  = (fst (forward Example.OBSERVATIONS Example.ACTION_MASK Example.masked_net None),
     snd (set_fast_forward_mode
            (snd (forward Example.OBSERVATIONS Example.ACTION_MASK Example.masked_net None)))).
Proof.
  apply (fast_forward_mode_same_result Example.OBSERVATIONS Example.ACTION_MASK
           Example.masked_net).
  - intros name t H. cbn in H. unfold Example.first_batch in H.
    apply lookup_insert_Some in H as [[_ <-]|[_ H]]; [reflexivity|].
    apply lookup_singleton_Some in H as [_ <-]. reflexivity.
  - intros _. reflexivity.
Defined.

(** ** A forward pass from the buffers *)

Section EndToEnd.

Variables (_OBSERVATIONS _ACTION_MASK : string).

Import torch.

Lemma head_unmasked ph op h o :
  layer_dims ph = (h, o) -> shape op <> [] -> last_dim (shape op) = h ->
  exists p,
    (logits <- F.linear ph op ;;
     masked <- apply_logit_mask logits None ;;
     Ok (F.softmax masked)) = Ok p /\
    shape p = lead (shape op) ++ [o] /\
    (0 < o -> forall r, r < num_rows p -> sum_R (row p r) = 1%R).
Proof.
  intros Hd Hne Hl. unfold layer_dims in Hd. injection Hd as Hi Hout.
  destruct (linear_ok ph op Hne) as [logits Hlin]; [congruence|].
  destruct (linear_shape _ _ _ Hlin) as (_ & _ & Hs & Hwf).
  rewrite Hlin. cbn [bind apply_logit_mask]. eexists. split; [reflexivity|].
  cbn [F.softmax shape]. rewrite Hout in Hs. split; [exact Hs|].
  intros Ho r Hr. apply softmax_rows_sum_to_one; [exact Hwf|exact Hr|].
  rewrite Hs, last_dim_snoc. exact Ho.
Qed.

Lemma heads_unmasked op h : forall heads space,
  map layer_dims heads = map (fun o => (h, o)) space ->
  shape op <> [] -> last_dim (shape op) = h ->
  exists probs,
    mapR (fun ph =>
            logits <- F.linear ph op ;;
            masked <- apply_logit_mask logits None ;;
            Ok (F.softmax masked)) heads = Ok probs /\
    Forall2 (fun p o => shape p = lead (shape op) ++ [o] /\
                        (0 < o -> forall r, r < num_rows p -> sum_R (row p r) = 1%R))
            probs space.
Proof.
  induction heads as [|ph heads IH]; intros [|o space] Hd Hne Hl; try discriminate Hd.
  - exists []. split; [reflexivity|constructor].
  - cbn [map] in Hd. injection Hd as Hi Ho Hrest.
    assert (Hdims : layer_dims ph = (h, o)) by (unfold layer_dims; congruence).
    destruct (head_unmasked ph op h o Hdims Hne Hl) as (p & Hp & Hps).
    destruct (IH space Hrest Hne Hl) as (probs & Hprobs & Hall).
    exists (p :: probs). cbn [mapR]. rewrite Hp. cbn [bind]. rewrite Hprobs. cbn [bind].
    split; [reflexivity|]. constructor; assumption.
Qed.

Lemma forward_heads_unmasked self ip inp h space :
  layers_chain inp (fc self) -> fc self <> [] ->
  List.last (map nn.out_features (fc self)) 0 = h ->
  map layer_dims (policy_head self) = map (fun o => (h, o)) space ->
  layer_dims (vf_head self) = (h, 1) ->
  action_mask self = None ->
  shape ip <> [] -> last_dim (shape ip) = inp ->
  exists probs vals,
    forward_heads self ip = Ok (probs, vals) /\
    Forall2 (fun p o => shape p = lead (shape ip) ++ [o] /\
                        (0 < o -> forall r, r < num_rows p -> sum_R (row p r) = 1%R))
            probs space /\
    shape vals = lead (shape ip).
Proof.
  intros Hchain Hfc Hlast Hheads Hvf Hmask Hne Hl. unfold forward_heads.
  destruct (feed_fc_ok _ _ _ None Hchain Hfc Hne Hl) as [op Hop].
  destruct (feed_fc_shape _ _ _ _ Hop Hfc) as (Hlead & Hone & Hol).
  rewrite Hlast in Hol. rewrite Hop. cbn [bind]. rewrite Hmask.
  destruct (heads_unmasked op h _ _ Hheads Hone Hol) as (probs & Hprobs & Hall).
  rewrite Hprobs. cbn [bind].
  destruct (linear_ok (vf_head self) op Hone) as [v Hv].
  { unfold layer_dims in Hvf. congruence. }
  destruct (linear_shape _ _ _ Hv) as (_ & _ & Hvs & _).
  unfold layer_dims in Hvf. injection Hvf as _ Hvo. rewrite Hvo in Hvs.
  destruct (select_last0_shape v) as (v0 & Hv0 & Hv0s).
  { rewrite Hvs. apply snoc_not_nil. }
  { rewrite Hvs, last_dim_snoc. lia. }
  rewrite Hv. cbn [bind]. rewrite Hv0. cbn [bind].
  exists probs, v0. split; [reflexivity|]. rewrite <- Hlead. split; [exact Hall|].
  rewrite Hv0s, Hvs, lead_snoc. reflexivity.
Qed.

(** With a [Box] observation space no method assigns the mask. *)
Lemma after_box_no_mask ev self sh :
  observation_space self = Box sh ->
  action_mask (after _OBSERVATIONS _ACTION_MASK ev self) = action_mask self.
Proof.
  intros Hsp. destruct ev as [obs| | |store|upd]; cbn [after]; try reflexivity.
  - unfold forward, forward_input. destruct obs as [obs|].
    + reflexivity.
    + unfold get_flattened_obs. rewrite Hsp.
      destruct (bind _ _) as [t|e]; [|reflexivity].
      destruct (negb _ && negb _); [|reflexivity].
      destruct (bind _ _); reflexivity.
  - unfold get_flattened_obs. now rewrite Hsp.
Qed.

Lemma run_box_no_mask evs : forall self sh,
  observation_space self = Box sh ->
  action_mask (run _OBSERVATIONS _ACTION_MASK evs self) = action_mask self.
Proof.
  induction evs as [|ev evs IH]; intros self sh Hsp; [reflexivity|].
  change (run _OBSERVATIONS _ACTION_MASK (ev :: evs) self)
    with (run _OBSERVATIONS _ACTION_MASK evs (after _OBSERVATIONS _ACTION_MASK ev self)).
  rewrite (IH _ sh).
  - now apply after_box_no_mask with sh.
  - destruct (after_same_setup _OBSERVATIONS _ACTION_MASK ev self)
      as (_ & _ & _ & _ & Hosp & _). now rewrite Hosp.
Qed.

(** X13: a constructed network runs on buffers of the declared shape.
    For an instance that the constructor returned, after any calls and
    updates, with a [Box] observation space: if the observation buffer
    is well-formed and has [E >= 1] environments, the [N >= 1] agents of
    the instance and the shape of the space, and (with shared
    placeholders) the agent ids of the policy are below [N], then
    [forward()] returns, leaves the instance as it is, and gives one
    probability tensor per action dimension of shape [E, k, n] whose
    rows sum to 1, and values of shape [E, k]; [k] is the number of the
    policy's agents when they are selected, and [N] otherwise. *)
Theorem forward_on_box_buffers :
  forall a self0 asp,
    __init__ _ACTION_MASK a = Ok self0 ->
    sample_action_space a = Ok asp ->
    forall evs sh buf E N ids,
      let self := run _OBSERVATIONS _ACTION_MASK evs self0 in
      observation_space self = Box sh ->
      num_agents_of self = Ok N ->
      policy_tag_to_agent_id_map self !! policy self = Some ids ->
      (create_separate_placeholders_for_each_policy self = false ->
       Forall (fun i => i < N) ids) ->
      data_on_device_via_torch (env self)
        (if create_separate_placeholders_for_each_policy self
         then _OBSERVATIONS +:+ "_" +:+ policy self else _OBSERVATIONS) = Ok buf ->
      well_formed buf -> buffer_fits self E N sh buf -> 0 < E -> 0 < N ->
      let k := if negb (fast_forward_mode self)
                  && negb (create_separate_placeholders_for_each_policy self)
               then length ids else N in
      exists probs vals,
        forward _OBSERVATIONS _ACTION_MASK self None = (Ok (probs, vals), self) /\
        Forall2 (fun p n => shape p = [E; k; n] /\
                            (0 < n -> forall r, r < E * k -> sum_R (row p r) = 1%R))
                probs (action_dims asp) /\
        shape vals = [E; k].
Proof.
  intros a self0 asp Hinit Hact evs sh buf E N ids self Hsp HN Hids Hlt Hbuf Hwf Hfit HE HN0 k.
  destruct (init_ok _ACTION_MASK a self0 Hinit)
    as (_ & _ & Hm0 & Hosp0 & space & fsz & h & Hasp & Hfsz & Hfc & Hchain & Hlast & Hheads & Hvf).
  rewrite Hact in Hasp.
  assert (Hspace : space = action_dims asp).
  { destruct asp; try contradiction; exact Hasp. }
  subst space. clear Hasp.
  destruct (run_same_setup _OBSERVATIONS _ACTION_MASK evs self0)
    as (_ & _ & _ & _ & Hosp & _ & Hfc' & Hheads' & Hvf').
  fold self in Hosp, Hfc', Hheads', Hvf'.
  rewrite Hheads in Hheads'. rewrite Hvf in Hvf'.
  assert (Hfcne : fc self <> []).
  { intros Hnil. rewrite Hnil in Hfc'. destruct (fc self0); [congruence|discriminate Hfc']. }
  assert (Hchain' : layers_chain fsz (fc self)).
  { apply (layers_chain_dims (fc self0)); [now symmetry|exact Hchain]. }
  assert (Hlast' : List.last (map nn.out_features (fc self)) 0 = h).
  { now rewrite (map_out_features_dims _ _ Hfc'). }
  assert (Hmask : action_mask self = None).
  { unfold self. rewrite (run_box_no_mask evs self0 sh); [exact Hm0|]. now rewrite <- Hosp. }
  assert (Hsz : fsz = np.prod sh).
  { unfold get_flattened_obs_size in Hfsz. rewrite <- Hosp, Hsp in Hfsz. now apply Ok_inj in Hfsz. }
  destruct (buffer_fits_flatten self E N sh buf HN HE HN0 Hfit) as (t & Ht & Hts).
  destruct (reshape_and_flatten_obs_inv _ _ _ Hwf Ht) as (_ & _ & _ & _ & _ & _ & _ & _ & Hwft & _).
  assert (Hg : get_flattened_obs _OBSERVATIONS _ACTION_MASK self = (Ok t, self)).
  { unfold get_flattened_obs. rewrite Hsp, Hbuf. cbn [bind]. now rewrite Ht. }
  assert (Hin : exists ip,
             forward_input _OBSERVATIONS _ACTION_MASK self None = (Ok ip, self) /\
             shape ip = [E; k; np.prod sh]).
  { unfold forward_input. rewrite Hg. subst k.
    destruct (negb _ && negb _) eqn:Hsel; [|now exists t].
    apply andb_true_iff in Hsel as [_ Hsep]. apply negb_true_iff in Hsep.
    unfold dict_lookup. rewrite Hids. cbn [bind].
    destruct (index_axis1_rows t E N (np.prod sh) ids Hts Hwft (Hlt Hsep))
      as (out & Hout & Hos & _).
    rewrite Hout. now exists out. }
  destruct Hin as (ip & Hip & Hips).
  destruct (forward_heads_unmasked self ip fsz h (action_dims asp)
              Hchain' Hfcne Hlast' Hheads' Hvf' Hmask) as (probs & vals & Hfw & Hall & Hvs).
  { now rewrite Hips. }
  { rewrite Hips, Hsz. reflexivity. }
  exists probs, vals. unfold forward. rewrite Hip, Hfw. split; [reflexivity|].
  rewrite Hips in Hall, Hvs. cbn [lead removelast app] in Hall, Hvs.
  split; [|exact Hvs].
  eapply Forall2_impl; [exact Hall|]. cbv beta. intros p n [Hps Hrows]. split; [exact Hps|].
  intros Hn r Hr. apply (Hrows Hn). unfold num_rows. rewrite Hps. cbn. lia.
Qed.

End EndToEnd.

Lemma forward_on_box_buffers_witness :
  exists self0 probs vals,
    __init__ Example.ACTION_MASK
      (Example.args_of
         (Example.env_of 2 (Box [2]) (MultiDiscrete [4; 3])
            {[ "observations" := mkTensor [1; 2; 2] [1; 2; 3; 4]%R ]})
         [0; 1] "first") = Ok self0 /\
    forward Example.OBSERVATIONS Example.ACTION_MASK self0 None = (Ok (probs, vals), self0) /\
    Forall2 (fun p n => shape p = [1; 2; n] /\
                        (0 < n -> forall r, r < 1 * 2 -> sum_R (torch.row p r) = 1%R))
            probs [4; 3] /\
    shape vals = [1; 2].
Proof.
  eexists.
  assert (Hinit : __init__ Example.ACTION_MASK
      (Example.args_of
         (Example.env_of 2 (Box [2]) (MultiDiscrete [4; 3])
            {[ "observations" := mkTensor [1; 2; 2] [1; 2; 3; 4]%R ]})
         [0; 1] "first") = Ok ?[self0]) by reflexivity.
  destruct (forward_on_box_buffers Example.OBSERVATIONS Example.ACTION_MASK _ _
              (MultiDiscrete [4; 3]) Hinit eq_refl [] [2]
              (mkTensor [1; 2; 2] [1; 2; 3; 4]%R) 1 2 [0; 1])
    as (probs & vals & Hfw & Hall & Hvs).
  - reflexivity.
  - reflexivity.
  - reflexivity.
  - intros _. repeat constructor.
  - reflexivity.
  - reflexivity.
  - left. split; reflexivity.
  - lia.
  - lia.
  - exists probs, vals. repeat split; assumption.
Defined.

(** ** The error branches of the module on a constructed instance *)

Section ErrorClasses.

Variables (_OBSERVATIONS _ACTION_MASK : string).

Lemma only_lookup_or_torch_bind {A B} (r : result A) (k : A -> result B) :
  raises_only_lookup_or_torch r -> (forall a, r = Ok a -> raises_only_lookup_or_torch (k a)) -> raises_only_lookup_or_torch (bind r k).
Proof. destruct r as [a|e]; cbn; auto. Qed.

Lemma only_lookup_or_torch_mapR {A B} (f : A -> result B) l :
  (forall a, raises_only_lookup_or_torch (f a)) -> raises_only_lookup_or_torch (mapR f l).
Proof.
  intros Hf. induction l as [|a l IH]; cbn [mapR]; [exact I|].
  apply only_lookup_or_torch_bind; [apply Hf|]. intros b _.
  apply only_lookup_or_torch_bind; [exact IH|]. intros bs _. exact I.
Qed.

Lemma only_lookup_or_torch_dict_lookup {K} `{Countable K} {V} (m : gmap K V) k :
  raises_only_lookup_or_torch (dict_lookup m k).
Proof. unfold dict_lookup. now destruct (m !! k). Qed.

Lemma only_lookup_or_torch_list_head {A} (l : list A) : raises_only_lookup_or_torch (list_head l).
Proof. now destruct l. Qed.

Lemma only_lookup_or_torch_data_on_device e name : raises_only_lookup_or_torch (data_on_device_via_torch e name).
Proof. unfold data_on_device_via_torch. now destruct (_ !! _). Qed.

Lemma only_lookup_or_torch_wrap_dim rank d : raises_only_lookup_or_torch (torch.wrap_dim rank d).
Proof. unfold torch.wrap_dim. repeat case_decide; exact I || reflexivity. Qed.

Lemma only_lookup_or_torch_permute t dims : raises_only_lookup_or_torch (torch.permute t dims).
Proof.
  unfold torch.permute. destruct (negb _); [reflexivity|].
  apply only_lookup_or_torch_bind; [apply only_lookup_or_torch_mapR, only_lookup_or_torch_wrap_dim|].
  intros perm _. now destruct (negb _).
Qed.

Lemma only_lookup_or_torch_infer_size dims n : raises_only_lookup_or_torch (torch.infer_size dims n).
Proof. unfold torch.infer_size. repeat case_match; exact I || reflexivity. Qed.

Lemma only_lookup_or_torch_reshape t dims : raises_only_lookup_or_torch (torch.reshape t dims).
Proof.
  unfold torch.reshape. apply only_lookup_or_torch_bind; [apply only_lookup_or_torch_infer_size|].
  intros; exact I.
Qed.

Lemma only_lookup_or_torch_index_axis1 t ids : raises_only_lookup_or_torch (torch.index_axis1 t ids).
Proof. unfold torch.index_axis1. repeat case_match; exact I || reflexivity. Qed.

Lemma only_lookup_or_torch_cat ts : raises_only_lookup_or_torch (torch.cat ts).
Proof. unfold torch.cat. repeat case_match; exact I || reflexivity. Qed.

Lemma only_lookup_or_torch_binop f a b : raises_only_lookup_or_torch (torch.binop f a b).
Proof.
  unfold torch.binop, torch.broadcast_shapes.
  destruct (torch.broadcast_rev _ _); cbn; exact I || reflexivity.
Qed.

Lemma only_lookup_or_torch_apply_logit_mask logits mask :
  raises_only_lookup_or_torch (apply_logit_mask logits mask).
Proof.
  unfold apply_logit_mask. destruct mask as [mask|]; [|exact I].
  apply only_lookup_or_torch_bind; [apply only_lookup_or_torch_binop|].
  intros; apply only_lookup_or_torch_binop.
Qed.

Lemma only_lookup_or_torch_linear l x : raises_only_lookup_or_torch (F.linear l x).
Proof. unfold F.linear. repeat case_match; exact I || reflexivity. Qed.

Lemma only_lookup_or_torch_select_last0 t : raises_only_lookup_or_torch (torch.select_last0 t).
Proof. unfold torch.select_last0. repeat case_match; exact I || reflexivity. Qed.


Lemma only_lookup_or_torch_num_agents_of self : raises_only_lookup_or_torch (num_agents_of self).
Proof.
  unfold num_agents_of. destruct (create_separate_placeholders_for_each_policy self);
    [|exact I].
  apply only_lookup_or_torch_bind; [apply only_lookup_or_torch_dict_lookup|]. intros; exact I.
Qed.

(** With the agent dimension "first" or "last" the method does not get
    to its [raise ValueError]. *)
Lemma only_lookup_or_torch_reshape_and_flatten_obs self obs :
  obs_dim_corresponding_to_num_agents self ∈ ["first"; "last"] ->
  raises_only_lookup_or_torch (reshape_and_flatten_obs self obs).
Proof.
  intros Hdim. unfold reshape_and_flatten_obs.
  apply only_lookup_or_torch_bind; [apply only_lookup_or_torch_list_head|]. intros num_envs _.
  apply only_lookup_or_torch_bind; [apply only_lookup_or_torch_num_agents_of|]. intros num_agents _.
  apply only_lookup_or_torch_bind; [|intros; apply only_lookup_or_torch_reshape].
  destruct (String.eqb_spec (obs_dim_corresponding_to_num_agents self) "first") as [E|E];
    [exact I|].
  destruct (String.eqb_spec (obs_dim_corresponding_to_num_agents self) "last") as [E'|E'].
  - apply only_lookup_or_torch_bind; [|intros; apply only_lookup_or_torch_permute].
    destruct (_ =? 1); [apply only_lookup_or_torch_reshape|exact I].
  - exfalso. apply elem_of_cons in Hdim as [Hdim|Hdim]; [congruence|].
    apply list_elem_of_singleton in Hdim. congruence.
Qed.

Lemma only_lookup_or_torch_collect_obs keys : forall acc self,
  obs_dim_corresponding_to_num_agents self ∈ ["first"; "last"] ->
  raises_only_lookup_or_torch (fst (collect_obs _OBSERVATIONS _ACTION_MASK keys acc self)).
Proof.
  induction keys as [|key keys IH]; intros acc self Hdim; cbn [collect_obs]; [exact I|].
  pose proof (only_lookup_or_torch_data_on_device (env self)
                (obs_name _OBSERVATIONS self key)) as Hd.
  destruct (data_on_device_via_torch _ _) as [obs|e]; [|exact Hd].
  destruct (String.eqb key _ACTION_MASK); [|now apply IH].
  pose proof (only_lookup_or_torch_reshape_and_flatten_obs self obs Hdim) as Hr.
  destruct (reshape_and_flatten_obs self obs) as [m|e]; [|exact Hr].
  apply IH. exact Hdim.
Qed.

Lemma only_lookup_or_torch_get_flattened_obs self :
  obs_dim_corresponding_to_num_agents self ∈ ["first"; "last"] ->
  is_Box_or_Dict (observation_space self) = true ->
  raises_only_lookup_or_torch (fst (get_flattened_obs _OBSERVATIONS _ACTION_MASK self)).
Proof.
  intros Hdim Hsp. unfold get_flattened_obs.
  destruct (observation_space self) as [sh|n|nvec|n|spaces]; try discriminate Hsp.
  - cbn [fst]. apply only_lookup_or_torch_bind; [apply only_lookup_or_torch_data_on_device|].
    intros. now apply only_lookup_or_torch_reshape_and_flatten_obs.
  - pose proof (only_lookup_or_torch_collect_obs (map fst spaces) [] self Hdim) as Hc.
    destruct (collect_obs_frame _OBSERVATIONS _ACTION_MASK (map fst spaces) [] self)
      as [m Hm].
    destruct (collect_obs _ _ _ _ _) as [[obs_dict|e] self']; cbn [fst snd] in *;
      [|exact Hc].
    apply only_lookup_or_torch_bind; [|intros; apply only_lookup_or_torch_cat].
    apply only_lookup_or_torch_mapR. intros kv.
    apply only_lookup_or_torch_reshape_and_flatten_obs. now rewrite Hm.
Qed.

(** [op] is bound after the loop when there is a layer. *)
Lemma only_lookup_or_torch_feed_fc layers : forall ip op,
  layers <> [] \/ op <> None ->
  raises_only_lookup_or_torch (feed_fc layers ip op).
Proof.
  induction layers as [|l layers IH]; intros ip op Hb; cbn [feed_fc].
  - destruct op; [exact I|]. now destruct Hb.
  - apply only_lookup_or_torch_bind; [apply only_lookup_or_torch_linear|].
    intros; apply IH. now right.
Qed.

Lemma only_lookup_or_torch_forward_heads self ip :
  fc self <> [] -> raises_only_lookup_or_torch (forward_heads self ip).
Proof.
  intros Hfc. unfold forward_heads.
  apply only_lookup_or_torch_bind; [apply only_lookup_or_torch_feed_fc; now left|].
  intros op _.
  apply only_lookup_or_torch_bind.
  { apply only_lookup_or_torch_mapR. intros ph.
    apply only_lookup_or_torch_bind; [apply only_lookup_or_torch_linear|]. intros logits _.
    apply only_lookup_or_torch_bind; [apply only_lookup_or_torch_apply_logit_mask|].
    intros; exact I. }
  intros probs _.
  apply only_lookup_or_torch_bind; [apply only_lookup_or_torch_linear|]. intros vals _.
  apply only_lookup_or_torch_bind; [apply only_lookup_or_torch_select_last0|]. intros; exact I.
Qed.

Lemma only_lookup_or_torch_forward self obs :
  obs_dim_corresponding_to_num_agents self ∈ ["first"; "last"] ->
  is_Box_or_Dict (observation_space self) = true ->
  fc self <> [] ->
  raises_only_lookup_or_torch (fst (forward _OBSERVATIONS _ACTION_MASK self obs)).
Proof.
  intros Hdim Hsp Hfc. unfold forward, forward_input. destruct obs as [obs|].
  - cbn [fst]. now apply only_lookup_or_torch_forward_heads.
  - pose proof (only_lookup_or_torch_get_flattened_obs self Hdim Hsp) as Hg.
    destruct (get_flattened_obs_frame _OBSERVATIONS _ACTION_MASK self) as [m Hm].
    destruct (get_flattened_obs _ _ _) as [[obs|e] self']; cbn [fst snd] in *; [|exact Hg].
    subst self'.
    destruct (negb _ && negb _).
    + pose proof (only_lookup_or_torch_dict_lookup (policy_tag_to_agent_id_map self)
                    (policy self)) as Hl.
      change (policy_tag_to_agent_id_map (set_action_mask m self))
        with (policy_tag_to_agent_id_map self).
      change (policy (set_action_mask m self)) with (policy self).
      destruct (dict_lookup _ _) as [ids|e]; cbn [bind]; [|exact Hl].
      pose proof (only_lookup_or_torch_index_axis1 obs ids) as Hi.
      destruct (torch.index_axis1 obs ids) as [ip|e]; cbn [fst]; [|exact Hi].
      now apply only_lookup_or_torch_forward_heads.
    + cbn [fst]. now apply only_lookup_or_torch_forward_heads.
Qed.

Lemma init_keeps_policy a self :
  __init__ _ACTION_MASK a = Ok self ->
  policy self = arg_policy a /\
  policy_tag_to_agent_id_map self = arg_policy_tag_to_agent_id_map a.
Proof.
  unfold __init__. intros H.
  destruct (bool_decide _); cbn [negb] in H; [|discriminate H].
  inv_bind H. inv_bind H. inv_bind H. inv_bind H. inv_bind H. inv_bind H.
  inv_bind H. inv_bind H. apply Ok_inj in H. subst self. split; reflexivity.
Qed.

(** X14: on a constructed instance the error branches of this module are
    dead.  On an instance that the constructor returned, after any
    calls and updates: the observation space is a [Box] or a [Dict], so
    [get_flattened_obs_size] returns a number and neither it nor
    [get_flattened_obs] nor [forward] gets to its
    [raise NotImplementedError]; the trunk has a layer, so [op] is bound
    when the heads read it; and the policy has its entry in the agent
    map, with a first agent. *)
Theorem constructed_instance_own_errors_unreachable :
  forall a self0,
    __init__ _ACTION_MASK a = Ok self0 ->
    forall evs,
      let self := run _OBSERVATIONS _ACTION_MASK evs self0 in
      is_Box_or_Dict (observation_space self) = true /\
      fc self <> [] /\
      (exists ids, policy_tag_to_agent_id_map self !! policy self = Some ids /\ ids <> []) /\
      (exists n, get_flattened_obs_size _ACTION_MASK self = Ok n) /\
      (forall msg,
          fst (get_flattened_obs _OBSERVATIONS _ACTION_MASK self)
          <> Raise (NotImplementedError msg)) /\
      (forall obs msg,
          fst (forward _OBSERVATIONS _ACTION_MASK self obs)
          <> Raise (NotImplementedError msg)) /\
      (forall obs,
          fst (forward _OBSERVATIONS _ACTION_MASK self obs) <> Raise UnboundLocalError).
Proof.
  intros a self0 Hinit evs self.
  destruct (init_ok _ACTION_MASK a self0 Hinit)
    as (Hdim & _ & _ & Hsample & asp & fsz & h & _ & Hfsz & Hfc & _).
  destruct (init_keeps_policy a self0 Hinit) as [Hpol Hmap].
  destruct (run_same_setup _OBSERVATIONS _ACTION_MASK evs self0)
    as (Hp & Hm & _ & Hd & Hosp & _ & Hfc' & _).
  fold self in Hp, Hm, Hd, Hosp, Hfc'.
  assert (Hdim' : obs_dim_corresponding_to_num_agents self ∈ ["first"; "last"])
    by now rewrite Hd.
  assert (Hfcne : fc self <> []).
  { intros Hnil. rewrite Hnil in Hfc'. destruct (fc self0); [congruence|discriminate Hfc']. }
  assert (Hsz : get_flattened_obs_size _ACTION_MASK self = Ok fsz).
  { unfold get_flattened_obs_size in *. now rewrite Hosp. }
  assert (Hsp : is_Box_or_Dict (observation_space self) = true).
  { unfold get_flattened_obs_size in Hsz.
    destruct (observation_space self); try discriminate Hsz; reflexivity. }
  split; [exact Hsp|]. split; [exact Hfcne|]. split; [|split; [now exists fsz|]].
  - rewrite Hp, Hm, Hpol, Hmap. unfold sample_observation_space, dict_lookup in Hsample.
    destruct (arg_policy_tag_to_agent_id_map a !! arg_policy a) as [ids|];
      [|discriminate Hsample].
    exists ids. split; [reflexivity|]. intros ->. discriminate Hsample.
  - repeat split.
    + intros msg E.
      pose proof (only_lookup_or_torch_get_flattened_obs self Hdim' Hsp) as H.
      rewrite E in H. discriminate H.
    + intros obs msg E.
      pose proof (only_lookup_or_torch_forward self obs Hdim' Hsp Hfcne) as H.
      rewrite E in H. discriminate H.
    + intros obs E.
      pose proof (only_lookup_or_torch_forward self obs Hdim' Hsp Hfcne) as H.
      rewrite E in H. discriminate H.
Qed.

End ErrorClasses.

Lemma constructed_instance_own_errors_unreachable_witness :
  exists self0,
    __init__ Example.ACTION_MASK
      (Example.args_of (Example.env_of 2 (Box [2]) (MultiDiscrete [4; 3]) ∅) [0; 1] "first")
    = Ok self0 /\
    is_Box_or_Dict (observation_space self0) = true /\
    fc self0 <> [] /\
    (exists n, get_flattened_obs_size Example.ACTION_MASK self0 = Ok n) /\
    (forall obs msg,
        fst (forward Example.OBSERVATIONS Example.ACTION_MASK self0 obs)
        <> Raise (NotImplementedError msg)).
Proof.
  eexists.
  assert (Hinit : __init__ Example.ACTION_MASK
      (Example.args_of (Example.env_of 2 (Box [2]) (MultiDiscrete [4; 3]) ∅) [0; 1] "first")
    = Ok ?[self0]) by reflexivity.
  split; [exact Hinit|].
  destruct (constructed_instance_own_errors_unreachable
              Example.OBSERVATIONS Example.ACTION_MASK _ _ Hinit [])
    as (Hsp & Hfc & _ & Hsz & _ & Hfw & _).
  repeat split; assumption.
Defined.

(** ** The mask and the selection of agents *)

Section MaskAndSelection.

Variables (_OBSERVATIONS _ACTION_MASK : string).

Import torch.

Lemma broadcast_agents_mismatch E k N o A :
  k <> N -> k <> 1 -> N <> 1 ->
  broadcast_shapes [E; k; o] [E; N; A] = Raise RuntimeError.
Proof.
  intros HkN Hk HN. unfold broadcast_shapes. cbn [rev app broadcast_rev].
  apply Nat.eqb_neq in HkN, Hk, HN. rewrite HkN, Hk, HN.
  destruct (o =? A); [reflexivity|]. destruct (o =? 1); [reflexivity|].
  destruct (A =? 1); reflexivity.
Qed.

Lemma apply_logit_mask_agents_mismatch logits mask E k N o A :
  shape logits = [E; k; o] -> shape mask = [E; N; A] ->
  k <> N -> k <> 1 -> N <> 1 ->
  apply_logit_mask logits (Some mask) = Raise RuntimeError.
Proof.
  intros Hl Hm HkN Hk HN. unfold apply_logit_mask, mul, binop.
  cbn [shape mul_scalar ones_like rsub_scalar]. rewrite Hl, Hm.
  now rewrite broadcast_agents_mismatch.
Qed.

(** The first loop of [get_flattened_obs] leaves the flattened mask in
    [self.action_mask] when the space has the mask entry. *)
Lemma collect_obs_stores_mask E N spaces : forall acc self d self',
  Forall (fun kv => exists buf f,
            data_on_device_via_torch (env self) (obs_name _OBSERVATIONS self (fst kv)) = Ok buf /\
            reshape_and_flatten_obs self buf = Ok f /\
            shape f = [E; N; np.prod (snd kv)]) spaces ->
  collect_obs _OBSERVATIONS _ACTION_MASK (map fst spaces) acc self = (Ok d, self') ->
  Exists (fun kv => fst kv = _ACTION_MASK) spaces \/
  (exists f A, action_mask self = Some f /\ shape f = [E; N; A]) ->
  exists f A, action_mask self' = Some f /\ shape f = [E; N; A].
Proof.
  induction spaces as [|[key sh] spaces IH]; intros acc self d self' Hall Hc Hm.
  - cbn in Hc. injection Hc as _ <-. destruct Hm as [Hm|Hm]; [|exact Hm].
    now apply Exists_nil in Hm.
  - apply Forall_cons in Hall as [(buf & f & Hb & Hf & Hfs) Hall].
    cbn [map fst collect_obs] in Hc. cbn [fst] in Hb. rewrite Hb in Hc.
    destruct (String.eqb_spec key _ACTION_MASK) as [Hk|Hk].
    + rewrite Hf in Hc.
      apply (IH acc (set_action_mask (Some f) self) d self' Hall Hc).
      right. exists f, (np.prod sh). split; [reflexivity|exact Hfs].
    + apply (IH _ self d self' Hall Hc).
      destruct Hm as [Hm|Hm]; [|now right].
      apply Exists_cons in Hm as [Hm|Hm]; [contradiction|now left].
Qed.

(** X15: the mask is the mask of all agents, also when the policy's
    agents are selected.  On a constructed instance with shared
    placeholders and fast-forward off, whose [Dict] observation space
    has the action-mask entry and whose buffers hold [N > 1] agents: if
    the policy has more than one agent and not [N] of them, [forward()]
    raises [RuntimeError]; the logits are those of the selected agents,
    the mask is not restricted to them, and the two do not broadcast. *)
Theorem forward_mask_not_selected :
  forall a self0 asp,
    __init__ _ACTION_MASK a = Ok self0 ->
    sample_action_space a = Ok asp ->
    action_dims asp <> [] ->
    forall evs spaces E ids,
      let self := run _OBSERVATIONS _ACTION_MASK evs self0 in
      let N := n_agents (env self) in
      create_separate_placeholders_for_each_policy self = false ->
      fast_forward_mode self = false ->
      observation_space self = Dict spaces ->
      Exists (fun kv => fst kv = _ACTION_MASK) spaces ->
      Exists (fun kv => fst kv <> _ACTION_MASK) spaces ->
      (forall name t, cuda_data_manager (env self) !! name = Some t -> well_formed t) ->
      Forall (fun kv => exists buf,
                data_on_device_via_torch (env self)
                  (obs_name _OBSERVATIONS self (fst kv)) = Ok buf /\
                buffer_fits self E N (snd kv) buf) spaces ->
      0 < E -> 1 < N ->
      policy_tag_to_agent_id_map self !! policy self = Some ids ->
      Forall (fun i => i < N) ids ->
      1 < length ids -> length ids <> N ->
      fst (forward _OBSERVATIONS _ACTION_MASK self None) = Raise RuntimeError.
Proof.
  intros a self0 asp Hinit Hact Hdims evs spaces E ids self N Hsep Hff Hsp Hexm Hexo Hst Hall
    HE HN Hids Hlt Hk HkN.
  destruct (init_ok _ACTION_MASK a self0 Hinit)
    as (_ & _ & _ & _ & space & fsz & h & Hasp & Hfsz & Hfc & Hchain & Hlast & Hheads & Hvf).
  rewrite Hact in Hasp.
  assert (Hspace : space = action_dims asp).
  { destruct asp; try contradiction; exact Hasp. }
  subst space. clear Hasp.
  destruct (run_same_setup _OBSERVATIONS _ACTION_MASK evs self0)
    as (_ & _ & _ & _ & Hosp & _ & Hfc' & Hheads' & _).
  fold self in Hosp, Hfc', Hheads'. rewrite Hheads in Hheads'.
  assert (Hfcne : fc self <> []).
  { intros Hnil. rewrite Hnil in Hfc'. destruct (fc self0); [congruence|discriminate Hfc']. }
  assert (Hchain' : layers_chain fsz (fc self)).
  { apply (layers_chain_dims (fc self0)); [now symmetry|exact Hchain]. }
  assert (Hsz : get_flattened_obs_size _ACTION_MASK self = Ok fsz).
  { unfold get_flattened_obs_size in *. now rewrite Hosp. }
  assert (Hnum : num_agents_of self = Ok N).
  { unfold num_agents_of. now rewrite Hsep. }
  assert (Hall' : Forall (fun kv => exists buf f,
            data_on_device_via_torch (env self) (obs_name _OBSERVATIONS self (fst kv)) = Ok buf /\
            reshape_and_flatten_obs self buf = Ok f /\
            shape f = [E; N; np.prod (snd kv)]) spaces).
  { eapply Forall_impl; [exact Hall|]. intros kv (buf & Hb & Hfit).
    destruct (buffer_fits_flatten self E N _ buf Hnum HE ltac:(lia) Hfit) as (f & Hf & Hfs).
    eauto. }
  destruct (collect_obs_ok _OBSERVATIONS _ACTION_MASK E N spaces [] self Hall')
    as (bufs & m & Hc & HF).
  destruct (collect_obs_stores_mask E N spaces [] self ([] ++ bufs) (set_action_mask m self)
              Hall' Hc (or_introl Hexm))
    as (mask & A & Hmask & Hms).
  cbn [action_mask set_action_mask] in Hmask. subst m.
  destruct (flatten_all_ok E N (set_action_mask (Some mask) self) bufs _ HF)
    as (flats & Hm & HF').
  assert (Hne : flats <> []).
  { intros ->. apply Forall2_nil_inv_l in HF'.
    apply Exists_exists in Hexo as (kv & Hin & Hkv).
    assert (kv ∈ filter (fun kv => fst kv <> _ACTION_MASK) spaces)
      by (apply list_elem_of_filter; split; [exact Hkv|exact Hin]).
    rewrite HF' in H. now apply elem_of_nil in H. }
  destruct (cat_flattened E N flats _ Hne HF') as (out & Hcat & Hout).
  assert (Hg : get_flattened_obs _OBSERVATIONS _ACTION_MASK self
               = (Ok out, set_action_mask (Some mask) self)).
  { unfold get_flattened_obs. rewrite Hsp, Hc. cbn [app]. rewrite Hm. cbn [bind].
    now rewrite Hcat. }
  destruct (get_flattened_obs_result _OBSERVATIONS _ACTION_MASK self out _ Hst Hg)
    as (_ & _ & _ & _ & _ & Hwf).
  destruct (index_axis1_rows out E N _ ids Hout Hwf Hlt) as (ip & Hip & Hips & _).
  unfold forward, forward_input. rewrite Hg.
  change (fast_forward_mode (set_action_mask (Some mask) self)) with (fast_forward_mode self).
  change (create_separate_placeholders_for_each_policy (set_action_mask (Some mask) self))
    with (create_separate_placeholders_for_each_policy self).
  rewrite Hff, Hsep. cbn [negb andb].
  change (policy_tag_to_agent_id_map (set_action_mask (Some mask) self))
    with (policy_tag_to_agent_id_map self).
  change (policy (set_action_mask (Some mask) self)) with (policy self).
  unfold dict_lookup. rewrite Hids. cbn [bind]. rewrite Hip. cbn [fst].
  unfold forward_heads.
  change (fc (set_action_mask (Some mask) self)) with (fc self).
  change (policy_head (set_action_mask (Some mask) self)) with (policy_head self).
  change (action_mask (set_action_mask (Some mask) self)) with (Some mask).
  destruct (feed_fc_ok (fc self) fsz ip None Hchain' Hfcne) as [op Hop].
  { now rewrite Hips. }
  { rewrite Hips. cbn. unfold get_flattened_obs_size in Hsz. rewrite Hsp in Hsz.
    apply Ok_inj in Hsz. rewrite <- Hsz. now rewrite dict_size_loop. }
  destruct (feed_fc_shape _ _ _ _ Hop Hfcne) as (Hlead & Hone & Hol).
  rewrite Hop. cbn [bind].
  destruct (policy_head self) as [|ph heads] eqn:Hph.
  { destruct (action_dims asp); [congruence|discriminate Hheads']. }
  destruct (action_dims asp) as [|o space]; [congruence|].
  cbn [map] in Hheads'. injection Hheads' as Hi Ho _.
  destruct (linear_ok ph op Hone) as [logits Hlin].
  { rewrite Hol, Hi. rewrite <- Hlast. now rewrite (map_out_features_dims _ _ Hfc'). }
  destruct (linear_shape _ _ _ Hlin) as (_ & _ & Hls & _).
  rewrite Hlead, Hips in Hls. cbn [lead removelast app] in Hls.
  cbn [mapR]. rewrite Hlin. cbn [bind].
  rewrite (apply_logit_mask_agents_mismatch logits mask E (length ids) N _ A Hls Hms);
    [reflexivity|lia..].
Qed.

End MaskAndSelection.

Lemma forward_mask_not_selected_witness :
  exists self0,
    __init__ Example.ACTION_MASK
      (Example.args_of
         (Example.env_of 3 Example.mask_space (Discrete 2)
            {[ "observations_action_mask" := mkTensor [1; 3; 2] [1; 0; 1; 1; 0; 1]%R;
               "observations_x" := mkTensor [1; 3; 1] [0; 0; 0]%R ]})
         [0; 1] "first") = Ok self0 /\
    fst (forward Example.OBSERVATIONS Example.ACTION_MASK self0 None) = Raise RuntimeError.
Proof.
  eexists.
  assert (Hinit : __init__ Example.ACTION_MASK
      (Example.args_of
         (Example.env_of 3 Example.mask_space (Discrete 2)
            {[ "observations_action_mask" := mkTensor [1; 3; 2] [1; 0; 1; 1; 0; 1]%R;
               "observations_x" := mkTensor [1; 3; 1] [0; 0; 0]%R ]})
         [0; 1] "first") = Ok ?[self0]) by reflexivity.
  split; [exact Hinit|].
  apply (forward_mask_not_selected Example.OBSERVATIONS Example.ACTION_MASK _ _
           (Discrete 2) Hinit eq_refl ltac:(discriminate) []
           [("action_mask", [2]); ("x", [1])] 1 [0; 1]).
  - reflexivity.
  - reflexivity.
  - reflexivity.
  - left. reflexivity.
  - right. left. discriminate.
  - intros name t H. cbn in H.
    apply lookup_insert_Some in H as [[_ <-]|[_ H]]; [reflexivity|].
    apply lookup_singleton_Some in H as [_ <-]. reflexivity.
  - repeat constructor.
    + exists (mkTensor [1; 3; 2] [1; 0; 1; 1; 0; 1]%R). split; [reflexivity|].
      left. split; reflexivity.
    + exists (mkTensor [1; 3; 1] [0; 0; 0]%R). split; [reflexivity|].
      left. split; reflexivity.
  - lia.
  - cbn. lia.
  - reflexivity.
  - cbn. repeat constructor.
  - cbn. lia.
  - cbn. lia.
Defined.
